(** * react-posts: the data-fetching and caching layer

    A shallow embedding of
      - [UniversalCacheManager] and the two cache tiers (useInfiniteApi.ts),
      - [fetchPaginatedPosts] / [fetchPosts] (shared/api/posts.ts),
      - the cache key of [useInfinitePosts] and [useFiltersCacheManager],
      - the paginated controller [useInfiniteApi],
      - the single-resource controller [useApi],
    followed by the properties established about them.

    Conventions.  [Date.now()] is an explicit argument [now : Z]
    (milliseconds).  JavaScript numbers that the code uses as counters, page
    numbers and timestamps are integers and are modelled in [Z]; [NaN] is
    [None] where the code can produce it.  A promise awaiting the network is
    an in-flight request; its continuation is the completion handler, run
    when the response (or the failure) arrives. *)

From Stdlib Require Import ZArith Lia Bool Ascii.
From stdpp Require Import gmap strings list fin_maps pretty.

#[local] Open Scope Z_scope.

(** ** Pagination types (shared/types/api.ts) *)

Module PaginationMeta.
Record t := {
  page : Z;
  limit : Z;
  total : option Z;             (* [None] is NaN *)
  totalPages : option Z;        (* [None] is NaN *)
  hasMore : bool;
  nextPage : option Z;          (* [None] is undefined *)
}.
End PaginationMeta.

Module PaginatedResponse.
Record t (T : Type) := {
  data : list T;
  pagination : PaginationMeta.t;
}.
Arguments data {T} _.
Arguments pagination {T} _.
Arguments Build_t {T} _ _.
End PaginatedResponse.

(** ** Cache entries (useInfiniteApi.ts, lines 8-21)

    [CacheEntry<T>] and [InfiniteCacheEntry<T>] share one map; the code
    tells them apart with ['pages' in entry]. *)

Inductive Entry (D T : Type) :=
  | CacheEntry (payload : D) (timestamp expiresAt : Z)
  | InfiniteCacheEntry (entryPages : list (PaginatedResponse.t T)) (timestamp expiresAt : Z).
Arguments CacheEntry {D T} _ _ _.
Arguments InfiniteCacheEntry {D T} _ _ _.

Definition expiresAt {D T} (e : Entry D T) : Z :=
  match e with
  | CacheEntry _ _ x => x
  | InfiniteCacheEntry _ _ x => x
  end.

Definition timestamp {D T} (e : Entry D T) : Z :=
  match e with
  | CacheEntry _ t _ => t
  | InfiniteCacheEntry _ t _ => t
  end.

Definition isInfiniteEntry {D T} (e : Entry D T) : bool :=
  match e with
  | CacheEntry _ _ _ => false
  | InfiniteCacheEntry _ _ _ => true
  end.

Definition createSingleEntry {D T} (d : D) (cacheTtl now : Z) : Entry D T :=
  CacheEntry d now (now + cacheTtl).

Definition createInfiniteEntry {D T} (ps : list (PaginatedResponse.t T)) (cacheTtl now : Z)
  : Entry D T :=
  InfiniteCacheEntry ps now (now + cacheTtl).

(** ** The durable tier: [localStorage]

    [localStorage] maps strings to strings.  A stored string is represented
    by what the reader does with it: the empty string is falsy and skipped by
    [if (stored)]; on any other text [JSON.parse] either throws or yields the
    entry that [JSON.stringify] wrote.  Two failure modes of the browser
    storage are modelled: [unavailable] (every access throws, e.g. storage
    disabled) and [full] (only [setItem] throws, e.g. quota exceeded). *)

Inductive Stored (D T : Type) :=
  | EmptyText
  | Malformed
  | Json (e : Entry D T).
Arguments EmptyText {D T}.
Arguments Malformed {D T}.
Arguments Json {D T} _.

Record Storage (D T : Type) := {
  items : gmap string (Stored D T);
  unavailable : bool;
  full : bool;
}.
Arguments items {D T} _.
Arguments unavailable {D T} _.
Arguments full {D T} _.
Arguments Build_Storage {D T} _ _ _.

(** The two tiers: the module-level [memoryCache] map and [localStorage]. *)
Record Store (D T : Type) := {
  memoryCache : gmap string (Entry D T);
  localStorage : Storage D T;
}.
Arguments memoryCache {D T} _.
Arguments localStorage {D T} _.
Arguments Build_Store {D T} _ _.

(** ** Computations that may throw

    A statement either returns or throws; side effects made before a throw
    stay.  [try_catch] is [try { m } catch (error) { h }]. *)

Inductive Thrown :=
  | ErrorObject (name message : string)   (* [instanceof Error] *)
  | OtherValue.                           (* anything else that was thrown *)

Inductive outcome (A : Type) :=
  | Ret (a : A)
  | Throw (err : Thrown).
Arguments Ret {A} _.
Arguments Throw {A} _.

Definition M (S A : Type) : Type := S -> outcome A * S.

Definition mret {S A} (a : A) : M S A := fun st => (Ret a, st).

Definition mthrow {S A} (err : Thrown) : M S A := fun st => (Throw err, st).

Definition mbind {S A B} (m : M S A) (k : A -> M S B) : M S B :=
  fun st =>
    match m st with
    | (Ret a, st') => k a st'
    | (Throw err, st') => (Throw err, st')
    end.

Definition try_catch {S A} (m : M S A) (h : Thrown -> M S A) : M S A :=
  fun st =>
    match m st with
    | (Ret a, st') => (Ret a, st')
    | (Throw err, st') => h err st'
    end.

(** [try { m } finally { f }]: [f] always runs; the outcome of [m] stands
    unless [f] itself throws. *)
Definition try_finally {S A} (m : M S A) (f : M S unit) : M S A :=
  fun st =>
    match m st with
    | (r, st') =>
        match f st' with
        | (Ret _, st'') => (r, st'')
        | (Throw err, st'') => (Throw err, st'')
        end
    end.

Definition mget {S} : M S S := fun st => (Ret st, st).
Definition mmodify {S} (f : S -> S) : M S unit := fun st => (Ret tt, f st).

(** Run a computation on a component of a larger state. *)
Definition lift {S1 S2 A} (proj : S2 -> S1) (inj : S1 -> S2 -> S2) (m : M S1 A) : M S2 A :=
  fun st =>
    match m (proj st) with
    | (r, s') => (r, inj s' st)
    end.

Notation "'let*' x ':=' m 'in' k" := (mbind m (fun x => k))
  (at level 10, x name, m at level 100, k at level 200).
Notation "'exec' m 'in' k" := (mbind m (fun _ => k))
  (at level 10, m at level 100, k at level 200).

Fixpoint mforEach {S A} (f : A -> M S unit) (l : list A) : M S unit :=
  match l with
  | [] => mret tt
  | x :: l' => exec f x in mforEach f l'
  end.

Module UniversalCacheManager.
Section Manager.
Context {D T : Type}.

#[local] Abbreviation Store := (Store D T).
#[local] Abbreviation Entry := (Entry D T).

Definition CACHE_PREFIX : string := "api_cache_".

(** *** Primitive operations of the two tiers *)

Definition SecurityError : Thrown :=
  ErrorObject "SecurityError" "The operation is insecure.".
Definition QuotaExceededError : Thrown :=
  ErrorObject "QuotaExceededError" "The quota has been exceeded.".

Definition with_items (f : gmap string (Stored D T) -> gmap string (Stored D T))
    (st : Store) : Store :=
  let ls := localStorage st in
  Build_Store (memoryCache st)
    (Build_Storage (f (items ls)) (unavailable ls) (full ls)).

Definition with_memory (f : gmap string Entry -> gmap string Entry)
    (st : Store) : Store :=
  Build_Store (f (memoryCache st)) (localStorage st).

Definition getItem (k : string) : M Store (option (Stored D T)) :=
  fun st =>
    if unavailable (localStorage st) then (Throw SecurityError, st)
    else (Ret (items (localStorage st) !! k), st).

Definition setItem (k : string) (v : Stored D T) : M Store unit :=
  fun st =>
    if unavailable (localStorage st) then (Throw SecurityError, st)
    else if full (localStorage st) then (Throw QuotaExceededError, st)
    else (Ret tt, with_items (insert k v) st).

Definition removeItem (k : string) : M Store unit :=
  fun st =>
    if unavailable (localStorage st) then (Throw SecurityError, st)
    else (Ret tt, with_items (base.delete k) st).

(** [localStorage.length] and [localStorage.key(i)] for every [i]. *)
Definition storageKeys : M Store (list string) :=
  fun st =>
    if unavailable (localStorage st) then (Throw SecurityError, st)
    else (Ret (map_to_list (items (localStorage st))).*1, st).

Definition JSON_parse (s : Stored D T) : M Store Entry :=
  match s with
  | Json e => mret e
  | EmptyText | Malformed => mthrow (ErrorObject "SyntaxError" "Unexpected end of JSON input")
  end.

(** [if (stored)]: a string is truthy unless it is empty. *)
Definition truthy_text (s : Stored D T) : bool :=
  match s with
  | EmptyText => false
  | Malformed | Json _ => true
  end.

Definition memory_set (k : string) (e : Entry) : M Store unit :=
  fun st => (Ret tt, with_memory (insert k e) st).

Definition memory_delete (k : string) : M Store unit :=
  fun st => (Ret tt, with_memory (base.delete k) st).

Definition memory_clear : M Store unit :=
  fun st => (Ret tt, with_memory (fun _ => ∅) st).

Definition memory_get (k : string) : M Store (option Entry) :=
  fun st => (Ret (memoryCache st !! k), st).

(** *** [delete] (lines 80-88) *)
Definition delete (key : string) : M Store unit :=
  exec try_catch (removeItem (CACHE_PREFIX +:+ key)) (fun _ => mret tt) in
  memory_delete key.

(** *** [get] (lines 37-60)

    The [try] block either returns ([Some r]) or falls through ([None]) to
    the memory fallback; the [catch] only warns and falls through. *)
Definition get (key : string) (now : Z) : M Store (option Entry) :=
  let* early := try_catch
    (let* stored := getItem (CACHE_PREFIX +:+ key) in
     match stored with
     | Some s =>
         if truthy_text s then
           let* entry := JSON_parse s in
           if now >? expiresAt entry then
             exec delete key in mret (Some None)
           else
             exec memory_set key entry in mret (Some (Some entry))
         else mret None
     | None => mret None
     end)
    (fun _ => mret None) in
  match early with
  | Some r => mret r
  | None => memory_get key
  end.

(** *** [set] (lines 65-75) *)
Definition set (key : string) (entry : Entry) : M Store unit :=
  exec try_catch (setItem (CACHE_PREFIX +:+ key) (Json entry)) (fun _ => mret tt) in
  memory_set key entry.

(** *** [clear] (lines 93-109) *)
Definition clear : M Store unit :=
  exec try_catch
    (let* keys := storageKeys in
     let keysToRemove := filter (fun k => String.prefix CACHE_PREFIX k = true) keys in
     mforEach removeItem keysToRemove)
    (fun _ => mret tt) in
  memory_clear.

(** The entry the durable tier hands back for [key], if any. *)
Definition durable_entry (st : Store) (key : string) : option Entry :=
  if unavailable (localStorage st) then None
  else match items (localStorage st) !! (CACHE_PREFIX +:+ key) with
       | Some (Json e) => Some e
       | _ => None
       end.

End Manager.
End UniversalCacheManager.

(** ** JavaScript values at the fetch boundary

    A parsed JSON field: the declared type of a post field is [number] or
    [string], but nothing checks it at run time. *)

Inductive jsval :=
  | JUndefined                  (* the field is missing *)
  | JNull
  | JBool (b : bool)
  | JNum (n : Z)
  | JStr (s : string)
  | JObject.                    (* a nested array or object *)

(** JavaScript truthiness, as tested by [!v]. *)
Definition truthy (v : jsval) : bool :=
  match v with
  | JUndefined | JNull => false
  | JBool b => b
  | JNum n => negb (n =? 0)
  | JStr s => negb (String.eqb s "")
  | JObject => true
  end.

(** [Number.prototype.toString] on an integer. *)
Definition toString (n : Z) : string := pretty n.

(** [parseInt(s, 10)]: leading white space, an optional sign, then the
    longest run of decimal digits; [None] is NaN. *)
Definition is_white_space (a : ascii) : bool :=
  match a with
  | " "%char | "009"%char | "010"%char | "011"%char | "012"%char | "013"%char => true
  | _ => false
  end.

Fixpoint skip_white_space (s : string) : string :=
  match s with
  | String a s' => if is_white_space a then skip_white_space s' else s
  | EmptyString => s
  end.

Definition digit_of (a : ascii) : option Z :=
  let n := Z.of_nat (nat_of_ascii a) in
  if (48 <=? n) && (n <=? 57) then Some (n - 48) else None.

Fixpoint parse_digits (acc : option Z) (s : string) : option Z :=
  match s with
  | String a s' =>
      match digit_of a with
      | Some d => parse_digits (Some (10 * default 0 acc + d)) s'
      | None => acc
      end
  | EmptyString => acc
  end.

Definition parseInt (s : string) : option Z :=
  match skip_white_space s with
  | String "-"%char s' => Z.opp <$> parse_digits None s'
  | String "+"%char s' => parse_digits None s'
  | s' => parse_digits None s'
  end.

(** ** The posts API (shared/api/posts.ts) *)

Module Post.
Record t := { id : jsval; userId : jsval; title : jsval; body : jsval }.
End Post.

Module PostsApi.

Definition DEFAULT_TIMEOUT : Z := 10000.

(** What [await response.json()] yields. *)
Inductive Body :=
  | BodyThrows (err : Thrown)            (* the body is not JSON *)
  | BodyNotArray
  | BodyArray (posts : list Post.t).

Record Response := {
  ok : bool;
  status : Z;
  x_total_count : option string;         (* [headers.get('x-total-count')] *)
  json : Body;
}.

(** What [await fetch(url, ...)] yields.  A timeout aborts the request,
    which rejects with an [AbortError]. *)
Inductive FetchOutcome :=
  | FetchRejects (err : Thrown)
  | FetchResolves (r : Response).

(** The query string, as the pairs appended to [URLSearchParams]. *)
Definition Query := list (string * string).

Definition Server := Query -> FetchOutcome.

Record Params := {
  p_page : option Z;
  p_limit : option Z;
  p_start : option Z;
  p_userId : option Z;
}.

Definition AbortError : Thrown := ErrorObject "AbortError" "The operation was aborted.".

(** [posts.forEach((post, index) => { if (!post.id || ...) throw ... })]:
    the index of the first post that fails the check. *)
Definition invalid_post (post : Post.t) : bool :=
  negb (truthy (Post.id post)) || negb (truthy (Post.userId post))
  || negb (truthy (Post.title post)) || negb (truthy (Post.body post)).

(** What a post that passes the check is known to satisfy. *)
Definition accepted (post : Post.t) : Prop :=
  truthy (Post.id post) = true /\ truthy (Post.userId post) = true
  /\ truthy (Post.title post) = true /\ truthy (Post.body post) = true.

Definition has_falsy_field (post : Post.t) : Prop :=
  truthy (Post.id post) = false \/ truthy (Post.userId post) = false
  \/ truthy (Post.title post) = false \/ truthy (Post.body post) = false.

Fixpoint first_invalid (index : nat) (posts : list Post.t) : option nat :=
  match posts with
  | [] => None
  | post :: rest =>
      if invalid_post post then Some index else first_invalid (S index) rest
  end.

(** The statements of a [try] block either produce a value or throw. *)
Definition Try (A : Type) : Type := A + Thrown.

Definition new_Error (message : string) : Thrown := ErrorObject "Error" message.

Definition validate (b : Body) : Try (list Post.t) :=
  match b with
  | BodyThrows err => inr err
  | BodyNotArray => inr (new_Error "Invalid response format: expected array of posts")
  | BodyArray posts =>
      match first_invalid 0 posts with
      | Some index =>
          inr (new_Error ("Invalid post structure at index " +:+ pretty index))
      | None => inl posts
      end
  end.

(** The shared [catch] block; [what] is "paginated posts" or "posts". *)
Definition rethrow (what : string) (timeout : Z) (error : Thrown) : Thrown :=
  match error with
  | ErrorObject name message =>
      if String.eqb name "AbortError"
      then new_Error ("Request timeout after " +:+ toString timeout +:+ "ms")
      else new_Error ("Failed to fetch " +:+ what +:+ ": " +:+ message)
  | OtherValue =>
      new_Error ("Unknown error occurred while fetching " +:+ what)
  end.

(** [Math.ceil(totalCount / limit)] for [limit <> 0]. *)
Definition ceil_div (a b : Z) : Z := - ((- a) / b).

Definition nonempty_header (h : option string) : bool :=
  match h with
  | Some s => negb (String.eqb s "")
  | None => false
  end.

(** The pairs appended to [queryParams] (lines 24-39). *)
Definition queryParams (params : Params) : Query :=
  let page := default 1 (p_page params) in
  let limit := default 10 (p_limit params) in
  (match p_start params with
   | Some start => [("_start", toString start); ("_limit", toString limit)]
   | None => [("_page", toString page); ("_limit", toString limit)]
   end)
  ++ (match p_userId params with
      | Some userId => [("userId", toString userId)]
      | None => []
      end).

(** *** [fetchPaginatedPosts] (lines 10-127).  [limit] is assumed nonzero:
    with [limit = 0] the page arithmetic leaves the integers. *)
Definition fetchPaginatedPosts (fetch : Server) (params : Params) (timeoutOpt : option Z)
  : Try (PaginatedResponse.t Post.t) :=
  let page := default 1 (p_page params) in
  let limit := default 10 (p_limit params) in
  let start := p_start params in
  let userId := p_userId params in
  let timeout := default DEFAULT_TIMEOUT timeoutOpt in
  let attempt : Try (PaginatedResponse.t Post.t) :=
    match fetch (queryParams params) with
    | FetchRejects err => inr err
    | FetchResolves response =>
        if negb (ok response)
        then inr (new_Error ("HTTP error! status: " +:+ toString (status response)))
        else
          match json response with
          | BodyThrows err => inr err
          | body =>
              let header := x_total_count response in
              let totalCount :=
                if bool_decide (is_Some userId) && negb (nonempty_header header)
                then Some 10
                else parseInt (if nonempty_header header then default "" header else "100") in
              let totalPages := (fun t => ceil_div t limit) <$> totalCount in
              let currentPage :=
                match start with
                | Some s => s / limit + 1
                | None => page
                end in
              let hasMore :=
                match totalPages with
                | Some tp => currentPage <? tp
                | None => false
                end in
              let nextPage := if hasMore then Some (currentPage + 1) else None in
              match validate body with
              | inr err => inr err
              | inl posts =>
                  inl {| PaginatedResponse.data := posts;
                         PaginatedResponse.pagination :=
                           {| PaginationMeta.page := currentPage;
                              PaginationMeta.limit := limit;
                              PaginationMeta.total := totalCount;
                              PaginationMeta.totalPages := totalPages;
                              PaginationMeta.hasMore := hasMore;
                              PaginationMeta.nextPage := nextPage |} |}
              end
          end
    end in
  match attempt with
  | inl r => inl r
  | inr error => inr (rethrow "paginated posts" timeout error)
  end.

(** *** [fetchPosts] (lines 135-195) *)
Definition fetchPosts (fetch : Server) (timeoutOpt : option Z) : Try (list Post.t) :=
  let timeout := default DEFAULT_TIMEOUT timeoutOpt in
  let attempt : Try (list Post.t) :=
    match fetch [] with
    | FetchRejects err => inr err
    | FetchResolves response =>
        if negb (ok response)
        then inr (new_Error ("HTTP error! status: " +:+ toString (status response)))
        else validate (json response)
    end in
  match attempt with
  | inl posts => inl posts
  | inr error => inr (rethrow "posts" timeout error)
  end.

End PostsApi.

(** ** Cache keys *)

(** *** [useFiltersCacheManager] (features/posts-filter/model) *)
Module FiltersCacheManager.
Section Filters.
Context {D T : Type}.

Definition allUsersKey (limit : Z) : string :=
  "posts_infinite_limit_" +:+ toString limit +:+ "_user_all".

Definition userCacheKey (limit userId : Z) : string :=
  "posts_infinite_limit_" +:+ toString limit +:+ "_user_" +:+ toString userId.

(** [for (let userId = 1; userId <= 10; userId++)] *)
Definition knownUserIds : list Z := [1; 2; 3; 4; 5; 6; 7; 8; 9; 10].

(** The body of the effect, run with the current [selectedUserId]. *)
Definition effect (selectedUserId : option Z) (limit : Z) : M (Store D T) unit :=
  match selectedUserId with
  | Some _ => UniversalCacheManager.delete (allUsersKey limit)
  | None =>
      mforEach (fun userId => UniversalCacheManager.delete (userCacheKey limit userId))
        knownUserIds
  end.

(** A render in which the filter goes from [previous] to [selected]: the
    effect depends on [[selectedUserId, limit]] and runs when the selection
    changed. *)
Definition onFilterChange (previous selected : option Z) (limit : Z)
  : M (Store D T) unit :=
  if decide (previous = selected) then mret tt else effect selected limit.

(** [clearAllCache] (lines 53-64); [dev] is [import.meta.env.DEV]. *)
Definition clearAllCache (dev : bool) (limit : Z) : M (Store D T) unit :=
  if dev then
    exec UniversalCacheManager.delete (allUsersKey limit) in
    mforEach (fun userId => UniversalCacheManager.delete (userCacheKey limit userId))
      knownUserIds
  else mret tt.

End Filters.
End FiltersCacheManager.

(** ** Request coordination (ApiUtils, useApi.ts lines 612-632)

    An [AbortController] is identified by the order of its creation; the
    set [abortedSignals] holds those whose [signal.aborted] is true. *)

Record Controllers := {
  abortControllerRef : option nat;
  abortedSignals : gset nat;
  nextController : nat;
}.

Module ApiUtils.

Definition createRequestController (cs : Controllers) : nat * Controllers :=
  let aborted :=
    match abortControllerRef cs with
    | Some existing => {[existing]} ∪ abortedSignals cs
    | None => abortedSignals cs
    end in
  let controller := nextController cs in
  (controller,
   {| abortControllerRef := Some controller;
      abortedSignals := aborted;
      nextController := S controller |}).

Definition cleanupRequest (controller : nat) (cs : Controllers) : Controllers :=
  if decide (abortControllerRef cs = Some controller)
  then {| abortControllerRef := None;
          abortedSignals := abortedSignals cs;
          nextController := nextController cs |}
  else cs.

(** The cleanup function returned by the hooks' effects. *)
Definition abortCurrent (cs : Controllers) : Controllers :=
  match abortControllerRef cs with
  | Some current =>
      {| abortControllerRef := None;
         abortedSignals := {[current]} ∪ abortedSignals cs;
         nextController := nextController cs |}
  | None => cs
  end.

Definition aborted (controller : nat) (cs : Controllers) : bool :=
  bool_decide (controller ∈ abortedSignals cs).

End ApiUtils.

(** What the awaited fetcher promise settles to. *)
Inductive Settled (R : Type) :=
  | Resolved (result : R)
  | Rejected (err : Thrown).
Arguments Resolved {R} _.
Arguments Rejected {R} _.

Definition await {S R} (s : Settled R) : M S R :=
  match s with
  | Resolved r => mret r
  | Rejected err => mthrow err
  end.

(** [err instanceof Error ? err.message : 'Unknown error occurred'] *)
Definition errorMessage (err : Thrown) : string :=
  match err with
  | ErrorObject _ message => message
  | OtherValue => "Unknown error occurred"
  end.

(** ** The paginated controller: [useInfiniteApi] (useInfiniteApi.ts) *)

Module InfiniteApi.
Section Hook.
Context {D T : Type}.

#[local] Abbreviation Page := (PaginatedResponse.t T).

Record Config := {
  cacheKey : string;
  limit : Z;
  cacheTtl : Z;
  enabled : bool;
  persistentCache : bool;
}.

#[export] Instance Config_eq_dec : EqDecision Config.
Proof. solve_decision. Defined.

Definition maxRetries : Z := 3.

(** The code that runs after [await fetcher(...)]: the rest of
    [fetchPage(page, showLoading, isRefetch)] or of [fetchFirstPage]. *)
Inductive Continuation :=
  | FetchPage (page : Z) (showLoading isRefetch : bool)
  | FetchFirstPage.

(** A call of the fetcher that has not settled yet, with the controller
    and the configuration its closure captured. *)
Record Request := {
  controller : nat;
  requestedPage : Z;
  requestedLimit : Z;
  continuation : Continuation;
  closure : Config;
}.

Record World := {
  (* useState *)
  pages : list Page;
  loading : bool;
  loadingMore : bool;
  error : option string;
  hasMore : bool;
  (* useRef *)
  currentPageRef : Z;
  retryCountRef : Z;
  controllers : Controllers;
  (* the cache tiers and the network *)
  store : Store D T;
  inFlight : list Request;
  issued : list Request;
  (* the current props and the effect's bookkeeping *)
  config : Config;
  effectDeps : Config * nat;
  effectCleanup : bool;
}.

Definition map_pages (f : (list Page) -> (list Page)) (w : World) : World :=
  Build_World (f (pages w)) (loading w) (loadingMore w) (error w) (hasMore w) (currentPageRef w) (retryCountRef w) (controllers w) (store w) (inFlight w) (issued w) (config w) (effectDeps w) (effectCleanup w).
Definition map_loading (f : bool -> bool) (w : World) : World :=
  Build_World (pages w) (f (loading w)) (loadingMore w) (error w) (hasMore w) (currentPageRef w) (retryCountRef w) (controllers w) (store w) (inFlight w) (issued w) (config w) (effectDeps w) (effectCleanup w).
Definition map_loadingMore (f : bool -> bool) (w : World) : World :=
  Build_World (pages w) (loading w) (f (loadingMore w)) (error w) (hasMore w) (currentPageRef w) (retryCountRef w) (controllers w) (store w) (inFlight w) (issued w) (config w) (effectDeps w) (effectCleanup w).
Definition map_error (f : (option string) -> (option string)) (w : World) : World :=
  Build_World (pages w) (loading w) (loadingMore w) (f (error w)) (hasMore w) (currentPageRef w) (retryCountRef w) (controllers w) (store w) (inFlight w) (issued w) (config w) (effectDeps w) (effectCleanup w).
Definition map_hasMore (f : bool -> bool) (w : World) : World :=
  Build_World (pages w) (loading w) (loadingMore w) (error w) (f (hasMore w)) (currentPageRef w) (retryCountRef w) (controllers w) (store w) (inFlight w) (issued w) (config w) (effectDeps w) (effectCleanup w).
Definition map_currentPageRef (f : Z -> Z) (w : World) : World :=
  Build_World (pages w) (loading w) (loadingMore w) (error w) (hasMore w) (f (currentPageRef w)) (retryCountRef w) (controllers w) (store w) (inFlight w) (issued w) (config w) (effectDeps w) (effectCleanup w).
Definition map_retryCountRef (f : Z -> Z) (w : World) : World :=
  Build_World (pages w) (loading w) (loadingMore w) (error w) (hasMore w) (currentPageRef w) (f (retryCountRef w)) (controllers w) (store w) (inFlight w) (issued w) (config w) (effectDeps w) (effectCleanup w).
Definition map_controllers (f : Controllers -> Controllers) (w : World) : World :=
  Build_World (pages w) (loading w) (loadingMore w) (error w) (hasMore w) (currentPageRef w) (retryCountRef w) (f (controllers w)) (store w) (inFlight w) (issued w) (config w) (effectDeps w) (effectCleanup w).
Definition map_store (f : (Store D T) -> (Store D T)) (w : World) : World :=
  Build_World (pages w) (loading w) (loadingMore w) (error w) (hasMore w) (currentPageRef w) (retryCountRef w) (controllers w) (f (store w)) (inFlight w) (issued w) (config w) (effectDeps w) (effectCleanup w).
Definition map_inFlight (f : (list Request) -> (list Request)) (w : World) : World :=
  Build_World (pages w) (loading w) (loadingMore w) (error w) (hasMore w) (currentPageRef w) (retryCountRef w) (controllers w) (store w) (f (inFlight w)) (issued w) (config w) (effectDeps w) (effectCleanup w).
Definition map_issued (f : (list Request) -> (list Request)) (w : World) : World :=
  Build_World (pages w) (loading w) (loadingMore w) (error w) (hasMore w) (currentPageRef w) (retryCountRef w) (controllers w) (store w) (inFlight w) (f (issued w)) (config w) (effectDeps w) (effectCleanup w).
Definition map_config (f : Config -> Config) (w : World) : World :=
  Build_World (pages w) (loading w) (loadingMore w) (error w) (hasMore w) (currentPageRef w) (retryCountRef w) (controllers w) (store w) (inFlight w) (issued w) (f (config w)) (effectDeps w) (effectCleanup w).
Definition map_effectDeps (f : (Config * nat) -> (Config * nat)) (w : World) : World :=
  Build_World (pages w) (loading w) (loadingMore w) (error w) (hasMore w) (currentPageRef w) (retryCountRef w) (controllers w) (store w) (inFlight w) (issued w) (config w) (f (effectDeps w)) (effectCleanup w).
Definition map_effectCleanup (f : bool -> bool) (w : World) : World :=
  Build_World (pages w) (loading w) (loadingMore w) (error w) (hasMore w) (currentPageRef w) (retryCountRef w) (controllers w) (store w) (inFlight w) (issued w) (config w) (effectDeps w) (f (effectCleanup w)).

(** *** State setters, refs and the environment *)

Definition setPages (v : list Page) : M World unit := mmodify (map_pages (fun _ => v)).
Definition setLoading (v : bool) : M World unit := mmodify (map_loading (fun _ => v)).
Definition setLoadingMore (v : bool) : M World unit := mmodify (map_loadingMore (fun _ => v)).
Definition setError (v : option string) : M World unit := mmodify (map_error (fun _ => v)).
Definition setHasMore (v : bool) : M World unit := mmodify (map_hasMore (fun _ => v)).
Definition setCurrentPage (v : Z) : M World unit := mmodify (map_currentPageRef (fun _ => v)).
Definition setRetryCount (v : Z) : M World unit := mmodify (map_retryCountRef (fun _ => v)).

Definition liftStore {A} (m : M (Store D T) A) : M World A :=
  lift store (fun s => map_store (fun _ => s)) m.

Definition createRequestController : M World nat :=
  fun w =>
    let '(controller, cs) := ApiUtils.createRequestController (controllers w) in
    (Ret controller, map_controllers (fun _ => cs) w).

Definition cleanupRequest (controller : nat) : M World unit :=
  mmodify (map_controllers (ApiUtils.cleanupRequest controller)).

Definition signalAborted (controller : nat) : M World bool :=
  fun w => (Ret (ApiUtils.aborted controller (controllers w)), w).

(** [fetcher({ page, limit })]: the call goes out and the function
    suspends until the promise settles. *)
Definition callFetcher (rq : Request) : M World unit :=
  mmodify (fun w => map_issued (fun l => l ++ [rq]) (map_inFlight (fun l => l ++ [rq]) w)).

(** *** [getInitialData] (lines 212-230) *)
Definition getInitialData (cfg : Config) (now : Z) : M World (list Page) :=
  if negb (enabled cfg) then mret []
  else
    try_catch
      (let* entry :=
         liftStore (if persistentCache cfg
                    then UniversalCacheManager.get (cacheKey cfg) now
                    else UniversalCacheManager.memory_get (cacheKey cfg)) in
       match entry with
       | Some (InfiniteCacheEntry entryPages _ _) => mret entryPages
       | _ => mret []
       end)
      (fun _ => mret []).

(** *** [setCachedPages] (lines 275-283) *)
Definition setCachedPages (cfg : Config) (newPages : list Page) (now : Z) : M World unit :=
  let entry := createInfiniteEntry newPages (cacheTtl cfg) now in
  liftStore (if persistentCache cfg
             then UniversalCacheManager.set (cacheKey cfg) entry
             else UniversalCacheManager.memory_set (cacheKey cfg) entry).

(** *** [fetchPage] (lines 288-363), up to the [await] *)
Definition fetchPage (page : Z) (showLoading isRefetch : bool) : M World unit :=
  let* controller := createRequestController in
  exec (if showLoading then
          exec (if page =? 1 then setLoading true else setLoadingMore true) in
          setError None
        else mret tt) in
  let* w := mget in
  callFetcher {| controller := controller;
                 requestedPage := page;
                 requestedLimit := limit (config w);
                 continuation := FetchPage page showLoading isRefetch;
                 closure := config w |}.

(** ... and from the [await] on. *)
Definition fetchPage_resume (rq : Request) (page : Z) (showLoading isRefetch : bool)
    (settled : Settled Page) (now : Z) : M World unit :=
  try_finally
    (try_catch
       (let* result := await settled in
        let* aborted := signalAborted (controller rq) in
        if aborted then mret tt
        else
          exec setRetryCount 0 in
          exec (let* w := mget in
                let prevPages := pages w in
                let newPages :=
                  if (page =? 1) && (isRefetch || bool_decide (length prevPages = 0%nat))
                  then [result]
                  else prevPages ++ [result] in
                exec setCachedPages (closure rq) newPages now in
                setPages newPages) in
          exec setHasMore (PaginationMeta.hasMore (PaginatedResponse.pagination result)) in
          exec setError None in
          setCurrentPage (PaginationMeta.page (PaginatedResponse.pagination result)))
       (fun err =>
          let* aborted := signalAborted (controller rq) in
          if aborted then mret tt
          else
            exec mmodify (map_retryCountRef (fun n => n + 1)) in
            setError (Some (errorMessage err))))
    (let* aborted := signalAborted (controller rq) in
     exec (if negb aborted then
             if showLoading then exec setLoading false in setLoadingMore false
             else mret tt
           else mret tt) in
     cleanupRequest (controller rq)).

(** *** [loadMore] (lines 368-373) *)
Definition loadMore : M World unit :=
  let* w := mget in
  if negb (hasMore w) || loadingMore w || loading w then mret tt
  else
    let nextPage := currentPageRef w + 1 in
    fetchPage nextPage true false.

(** *** [refetch] (lines 378-386) *)
Definition refetch : M World unit :=
  exec setRetryCount 0 in
  exec setCurrentPage 1 in
  exec setPages [] in
  exec setHasMore true in
  exec setError None in
  fetchPage 1 true true.

(** *** [invalidateCache] (lines 391-399) *)
Definition invalidateCache : M World unit :=
  let* w := mget in
  exec liftStore (if persistentCache (config w)
                  then UniversalCacheManager.delete (cacheKey (config w))
                  else UniversalCacheManager.memory_delete (cacheKey (config w))) in
  refetch.

(** *** [fetchFirstPage] of the initial-load effect (lines 427-479) *)
Definition fetchFirstPage : M World unit :=
  let* controller := createRequestController in
  exec setLoading true in
  exec setError None in
  let* w := mget in
  callFetcher {| controller := controller;
                 requestedPage := 1;
                 requestedLimit := limit (config w);
                 continuation := FetchFirstPage;
                 closure := config w |}.

Definition fetchFirstPage_resume (rq : Request) (settled : Settled Page) (now : Z)
  : M World unit :=
  try_finally
    (try_catch
       (let* result := await settled in
        let* aborted := signalAborted (controller rq) in
        if aborted then mret tt
        else
          exec setRetryCount 0 in
          exec setPages [result] in
          exec setHasMore (PaginationMeta.hasMore (PaginatedResponse.pagination result)) in
          exec setError None in
          exec setCurrentPage (PaginationMeta.page (PaginatedResponse.pagination result)) in
          setCachedPages (closure rq) [result] now)
       (fun err =>
          let* aborted := signalAborted (controller rq) in
          if aborted then mret tt
          else
            exec mmodify (map_retryCountRef (fun n => n + 1)) in
            setError (Some (errorMessage err))))
    (let* aborted := signalAborted (controller rq) in
     exec (if negb aborted then setLoading false else mret tt) in
     cleanupRequest (controller rq)).

(** *** The initial-load effect (lines 402-490)

    Its dependencies are [enabled, cacheKey, pages.length, fetcher, limit,
    cacheTtl, persistentCache, maxRetries].  A run first executes the
    cleanup function the previous run returned, if it returned one. *)
Definition initialLoadEffect : M World unit :=
  let* w := mget in
  exec (if effectCleanup w
        then mmodify (map_controllers ApiUtils.abortCurrent)
        else mret tt) in
  exec mmodify (map_effectCleanup (fun _ => false)) in
  exec mmodify (fun w => map_effectDeps (fun _ => (config w, length (pages w))) w) in
  let* w := mget in
  if negb (enabled (config w)) then mret tt
  else if bool_decide (0 < length (pages w))%nat then mret tt
  else if retryCountRef w >=? maxRetries then mret tt
  else
    exec fetchFirstPage in
    mmodify (map_effectCleanup (fun _ => true)).

(** After a handler, React renders and runs the effect when one of its
    dependencies differs from the previous run's.  [commit] is that effect
    phase.  The cache read the hook body makes on every render is
    [renderRead] below; it touches the store only, and [stepAt] is the
    step with it. *)
Definition commit (fetcherChanged : bool) : M World unit :=
  let* w := mget in
  if fetcherChanged || bool_decide ((config w, length (pages w)) <> effectDeps w)
  then initialLoadEffect
  else mret tt.

(** *** The first render and mount *)
Definition blank (cfg : Config) (st : Store D T) : World :=
  {| pages := []; loading := false; loadingMore := false; error := None;
     hasMore := true; currentPageRef := 1; retryCountRef := 0;
     controllers := {| abortControllerRef := None; abortedSignals := ∅;
                       nextController := 0 |};
     store := st; inFlight := []; issued := [];
     config := cfg; effectDeps := (cfg, 0%nat); effectCleanup := false |}.

(** The three lazy initialisers (lines 233, 239-246, 252-260). *)
Definition firstRender (now : Z) : M World unit :=
  let* w := mget in
  let* initialPages := getInitialData (config w) now in
  exec setPages initialPages in
  let* initialPages := getInitialData (config w) now in
  exec setHasMore (match last initialPages with
                   | Some lastPage =>
                       PaginationMeta.hasMore (PaginatedResponse.pagination lastPage)
                   | None => true
                   end) in
  let* initialPages := getInitialData (config w) now in
  setCurrentPage (match last initialPages with
                  | Some lastPage =>
                      PaginationMeta.page (PaginatedResponse.pagination lastPage)
                  | None => 1
                  end).

Definition mount (cfg : Config) (now : Z) (st : Store D T) : World :=
  ((exec firstRender now in initialLoadEffect) (blank cfg st)).2.

(** *** Events of one hook instance *)
Inductive Event :=
  | LoadMore
  | Refetch
  | InvalidateCache
  | Settle (c : nat) (settled : Settled Page) (now : Z)
  | Rerender (cfg : Config) (fetcherChanged : bool).

Definition resume (rq : Request) (settled : Settled Page) (now : Z) : M World unit :=
  match continuation rq with
  | FetchPage page showLoading isRefetch =>
      fetchPage_resume rq page showLoading isRefetch settled now
  | FetchFirstPage => fetchFirstPage_resume rq settled now
  end.

Definition settle (c : nat) (settled : Settled Page) (now : Z) : M World unit :=
  let* w := mget in
  match list_find (fun rq => controller rq = c) (inFlight w) with
  | Some (i, rq) =>
      exec mmodify (map_inFlight (base.delete i)) in
      resume rq settled now
  | None => mret tt
  end.

Definition handle (ev : Event) : M World unit :=
  match ev with
  | LoadMore => loadMore
  | Refetch => refetch
  | InvalidateCache => invalidateCache
  | Settle c settled now => settle c settled now
  | Rerender cfg _ => mmodify (map_config (fun _ => cfg))
  end.

Definition react (ev : Event) : M World unit :=
  exec handle ev in
  commit (match ev with Rerender _ changed => changed | _ => false end).

Definition step (w : World) (ev : Event) : World := (react ev w).2.

Definition steps (w : World) (evs : list Event) : World := foldl step w evs.

(** *** The cache read of a re-render (lines 252-260)

    [initialPageNumber] is computed by an immediately invoked function in
    the hook body, so every render calls [getInitialData()], with the
    props of that render; only the first render uses the pages read.  The
    read itself is not idle: [UniversalCacheManager.get] purges an expired
    entry from both tiers and copies an unexpired durable entry over the
    memory tier. *)
Definition renderRead (now : Z) : M World unit :=
  let* w := mget in
  let* initialPages := getInitialData (config w) now in
  mret tt.

(** An event whose handler changes state, with the render this causes at
    [renderTime]: the handler, then the hook body, then the effect.  Several
    renders in a row read the cache several times; the last read subsumes
    the earlier ones.  An event that changes no state (a [loadMore()] the
    guard refuses, the response of an aborted request) causes no render,
    and [react] is all that happens. *)
Definition reactAt (ev : Event) (renderTime : Z) : M World unit :=
  exec handle ev in
  exec renderRead renderTime in
  commit (match ev with Rerender _ changed => changed | _ => false end).

Definition stepAt (w : World) (ev : Event) (renderTime : Z) : World :=
  (reactAt ev renderTime w).2.

(** [flatData] (line 493) *)
Definition flatData (w : World) : list T :=
  foldl (fun acc page => acc ++ PaginatedResponse.data page) [] (pages w).

End Hook.
End InfiniteApi.

(** ** [useInfinitePosts] (entities/post/model/useInfinitePosts.ts) *)

Module InfinitePosts.

#[local] Abbreviation Page := (PaginatedResponse.t Post.t).

(** [postsFetcher] (lines 76-92): the fetcher handed to [useInfiniteApi],
    applied to [{ page, limit }], with the user id read from [userIdRef]. *)
Definition postsFetcher (fetch : PostsApi.Server) (currentUserId : option Z)
    (page limit : Z) : Settled Page :=
  let requestParams :=
    {| PostsApi.p_page := Some page;
       PostsApi.p_limit := Some limit;
       PostsApi.p_start := None;
       PostsApi.p_userId := currentUserId |} in
  match PostsApi.fetchPaginatedPosts fetch requestParams None with
  | inl result => Resolved result
  | inr err => Rejected err
  end.

(** [cacheKey] (lines 95-98):
    [`posts_infinite_limit_${limit}_user_${userId || 'all'}`]. *)
Definition cacheKey (limit : Z) (userId : option Z) : string :=
  "posts_infinite_limit_" +:+ toString limit +:+ "_user_" +:+
  match userId with
  | Some u => if u =? 0 then "all" else toString u
  | None => "all"
  end.

(** The configuration memoised at lines 101-107. *)
Definition config (limit : Z) (enabled : bool) (userId : option Z) : InfiniteApi.Config :=
  {| InfiniteApi.cacheKey := cacheKey limit userId;
     InfiniteApi.limit := limit;
     InfiniteApi.enabled := enabled;
     InfiniteApi.cacheTtl := 5 * 60 * 1000;
     InfiniteApi.persistentCache := true |}.

(** The network answers the request issued last: its promise settles with
    what [postsFetcher] computes from the server's response. *)
Definition respond {D} (fetch : PostsApi.Server) (currentUserId : option Z) (now : Z)
    (w : @InfiniteApi.World D Post.t) : @InfiniteApi.World D Post.t :=
  match last (InfiniteApi.inFlight w) with
  | Some rq =>
      InfiniteApi.step w
        (InfiniteApi.Settle (InfiniteApi.controller rq)
           (postsFetcher fetch currentUserId
              (InfiniteApi.requestedPage rq) (InfiniteApi.requestedLimit rq))
           now)
  | None => w
  end.

End InfinitePosts.

(** ** The remote collaborator

    A server in the style of JSONPlaceholder: it holds [items], answers
    [_page]/[_limit] with the corresponding slice and reports the number of
    items in the [x-total-count] header. *)
Module RemoteApi.

Definition param (name : string) (q : PostsApi.Query) : option Z :=
  match list_find (fun kv => kv.1 = name) q with
  | Some (_, (_, v)) => parseInt v
  | None => None
  end.

Definition slice (items : list Post.t) (pageNumber pageSize : Z) : list Post.t :=
  take (Z.to_nat pageSize) (drop (Z.to_nat ((pageNumber - 1) * pageSize)) items).

Definition pagedServer (items : list Post.t) : PostsApi.Server :=
  fun q =>
    PostsApi.FetchResolves
      {| PostsApi.ok := true;
         PostsApi.status := 200;
         PostsApi.x_total_count := Some (toString (Z.of_nat (length items)));
         PostsApi.json :=
           PostsApi.BodyArray
             (slice items (default 1 (param "_page" q)) (default 10 (param "_limit" q))) |}.

End RemoteApi.

(** ** The single-resource controller: [useApi] (useApi.ts) *)

Module SingleApi.
Section Hook.
Context {D T : Type}.
(** [if (data)]: the truthiness of a payload of type [T]. *)
Variable truthyData : D -> bool.

Record Config := {
  cacheKey : string;
  cacheTtl : Z;
  enabled : bool;
  persistentCache : bool;
  refetchOnFocus : bool;
}.

#[export] Instance Config_eq_dec : EqDecision Config.
Proof. solve_decision. Defined.

(** useApi.ts keeps a [memoryCache] map of its own (line 544), next to
    the tiers of [UniversalCacheManager]. *)
Record Caches := {
  tiers : Store D T;
  ownMemoryCache : gmap string (Entry D T);
}.

Definition liftTiers {A} (m : M (Store D T) A) : M Caches A :=
  lift tiers (fun s c => {| tiers := s; ownMemoryCache := ownMemoryCache c |}) m.

Definition own_get (key : string) : M Caches (option (Entry D T)) :=
  fun c => (Ret (ownMemoryCache c !! key), c).

Definition own_set (key : string) (e : Entry D T) : M Caches unit :=
  mmodify (fun c => {| tiers := tiers c; ownMemoryCache := <[key := e]> (ownMemoryCache c) |}).

Definition own_delete (key : string) : M Caches unit :=
  mmodify (fun c => {| tiers := tiers c;
                       ownMemoryCache := base.delete key (ownMemoryCache c) |}).

Definition readEntry (key : string) (persistent : bool) (now : Z)
  : M Caches (option (Entry D T)) :=
  if persistent then liftTiers (UniversalCacheManager.get key now) else own_get key.

(** *** [ApiUtils.getCachedData] (lines 553-569) *)
Definition getCachedData (key : string) (persistent : bool) (now : Z)
  : M Caches (option D) :=
  try_catch
    (let* entry := readEntry key persistent now in
     match entry with
     | Some (CacheEntry payload _ _) => mret (Some payload)
     | _ => mret None
     end)
    (fun _ => mret None).

(** *** [ApiUtils.setCachedData] (lines 574-582) *)
Definition setCachedData (key : string) (payload : D) (ttl : Z) (persistent : bool)
    (now : Z) : M Caches unit :=
  let entry := createSingleEntry payload ttl now in
  if persistent then liftTiers (UniversalCacheManager.set key entry)
  else own_set key entry.

(** *** [ApiUtils.isCacheStale] (lines 587-596) *)
Definition staleThreshold : Z := 30 * 1000.

Definition isCacheStale (key : string) (persistent : bool) (now : Z) : M Caches bool :=
  let* entry := readEntry key persistent now in
  match entry with
  | Some (CacheEntry _ timestamp _) => mret (now - timestamp >? staleThreshold)
  | _ => mret true
  end.

(** *** [ApiUtils.deleteFromCache] (lines 601-607) *)
Definition deleteFromCache (key : string) (persistent : bool) : M Caches unit :=
  if persistent then liftTiers (UniversalCacheManager.delete key) else own_delete key.

(** A call of the fetcher that has not settled yet. *)
Record Request := {
  controller : nat;
  showLoading : bool;
  closure : Config;
}.

Record World := {
  (* useState *)
  data : option D;
  loading : bool;
  error : option string;
  (* useRef *)
  controllers : Controllers;
  (* the caches and the network *)
  caches : Caches;
  inFlight : list Request;
  issued : list Request;
  (* the current props and the effect's bookkeeping *)
  config : Config;
  dataIdentity : nat;
  effectDeps : Config * nat;
  effectCleanup : bool;
}.

Definition map_data (f : (option D) -> (option D)) (w : World) : World :=
  Build_World (f (data w)) (loading w) (error w) (controllers w) (caches w) (inFlight w) (issued w) (config w) (dataIdentity w) (effectDeps w) (effectCleanup w).
Definition map_loading (f : bool -> bool) (w : World) : World :=
  Build_World (data w) (f (loading w)) (error w) (controllers w) (caches w) (inFlight w) (issued w) (config w) (dataIdentity w) (effectDeps w) (effectCleanup w).
Definition map_error (f : (option string) -> (option string)) (w : World) : World :=
  Build_World (data w) (loading w) (f (error w)) (controllers w) (caches w) (inFlight w) (issued w) (config w) (dataIdentity w) (effectDeps w) (effectCleanup w).
Definition map_controllers (f : Controllers -> Controllers) (w : World) : World :=
  Build_World (data w) (loading w) (error w) (f (controllers w)) (caches w) (inFlight w) (issued w) (config w) (dataIdentity w) (effectDeps w) (effectCleanup w).
Definition map_caches (f : Caches -> Caches) (w : World) : World :=
  Build_World (data w) (loading w) (error w) (controllers w) (f (caches w)) (inFlight w) (issued w) (config w) (dataIdentity w) (effectDeps w) (effectCleanup w).
Definition map_inFlight (f : (list Request) -> (list Request)) (w : World) : World :=
  Build_World (data w) (loading w) (error w) (controllers w) (caches w) (f (inFlight w)) (issued w) (config w) (dataIdentity w) (effectDeps w) (effectCleanup w).
Definition map_issued (f : (list Request) -> (list Request)) (w : World) : World :=
  Build_World (data w) (loading w) (error w) (controllers w) (caches w) (inFlight w) (f (issued w)) (config w) (dataIdentity w) (effectDeps w) (effectCleanup w).
Definition map_config (f : Config -> Config) (w : World) : World :=
  Build_World (data w) (loading w) (error w) (controllers w) (caches w) (inFlight w) (issued w) (f (config w)) (dataIdentity w) (effectDeps w) (effectCleanup w).
Definition map_dataIdentity (f : nat -> nat) (w : World) : World :=
  Build_World (data w) (loading w) (error w) (controllers w) (caches w) (inFlight w) (issued w) (config w) (f (dataIdentity w)) (effectDeps w) (effectCleanup w).
Definition map_effectDeps (f : (Config * nat) -> (Config * nat)) (w : World) : World :=
  Build_World (data w) (loading w) (error w) (controllers w) (caches w) (inFlight w) (issued w) (config w) (dataIdentity w) (f (effectDeps w)) (effectCleanup w).
Definition map_effectCleanup (f : bool -> bool) (w : World) : World :=
  Build_World (data w) (loading w) (error w) (controllers w) (caches w) (inFlight w) (issued w) (config w) (dataIdentity w) (effectDeps w) (f (effectCleanup w)).

Definition setData (v : option D) : M World unit :=
  mmodify (fun w => map_dataIdentity S (map_data (fun _ => v) w)).
Definition setLoading (v : bool) : M World unit := mmodify (map_loading (fun _ => v)).
Definition setError (v : option string) : M World unit := mmodify (map_error (fun _ => v)).

Definition liftCaches {A} (m : M Caches A) : M World A :=
  lift caches (fun c => map_caches (fun _ => c)) m.

Definition createRequestController : M World nat :=
  fun w =>
    let '(controller, cs) := ApiUtils.createRequestController (controllers w) in
    (Ret controller, map_controllers (fun _ => cs) w).

Definition cleanupRequest (controller : nat) : M World unit :=
  mmodify (map_controllers (ApiUtils.cleanupRequest controller)).

Definition signalAborted (controller : nat) : M World bool :=
  fun w => (Ret (ApiUtils.aborted controller (controllers w)), w).

Definition callFetcher (rq : Request) : M World unit :=
  mmodify (fun w => map_issued (fun l => l ++ [rq]) (map_inFlight (fun l => l ++ [rq]) w)).

(** *** [fetchData] (lines 688-737), up to the [await] *)
Definition fetchData (showLoading : bool) : M World unit :=
  let* controller := createRequestController in
  exec (if showLoading then exec setLoading true in setError None else mret tt) in
  let* w := mget in
  callFetcher {| controller := controller; showLoading := showLoading;
                 closure := config w |}.

(** ... and from the [await] on. *)
Definition fetchData_resume (rq : Request) (settled : Settled D) (now : Z) : M World unit :=
  try_finally
    (try_catch
       (let* result := await settled in
        let* aborted := signalAborted (controller rq) in
        if aborted then mret tt
        else
          exec setData (Some result) in
          exec setError None in
          liftCaches (setCachedData (cacheKey (closure rq)) result
                        (cacheTtl (closure rq)) (persistentCache (closure rq)) now))
       (fun err =>
          let* aborted := signalAborted (controller rq) in
          if aborted then mret tt
          else setError (Some (errorMessage err))))
    (let* aborted := signalAborted (controller rq) in
     exec (if negb aborted then
             if showLoading rq then setLoading false else mret tt
           else mret tt) in
     cleanupRequest (controller rq)).

(** *** [refetch], [invalidateCache], [handleFocus] (lines 742-761) *)
Definition refetch : M World unit := fetchData true.

Definition invalidateCache : M World unit :=
  let* w := mget in
  exec liftCaches (deleteFromCache (cacheKey (config w)) (persistentCache (config w))) in
  refetch.

Definition handleFocus (now : Z) : M World unit :=
  let* w := mget in
  if refetchOnFocus (config w) then
    let* stale :=
      liftCaches (isCacheStale (cacheKey (config w)) (persistentCache (config w)) now) in
    if stale then fetchData false else mret tt
  else mret tt.

Definition isTruthy (d : option D) : bool :=
  match d with
  | Some v => truthyData v
  | None => false
  end.

(** *** The initial-load effect (lines 764-790); its dependencies are
    [enabled, cacheKey, data, persistentCache, fetchData]. *)
Definition initialLoadEffect (now : Z) : M World unit :=
  let* w := mget in
  exec (if effectCleanup w
        then mmodify (map_controllers ApiUtils.abortCurrent)
        else mret tt) in
  exec mmodify (map_effectCleanup (fun _ => false)) in
  exec mmodify (fun w => map_effectDeps (fun _ => (config w, dataIdentity w)) w) in
  let* w := mget in
  if negb (enabled (config w)) then mret tt
  else
    exec (if isTruthy (data w) then
            let* stale :=
              liftCaches (isCacheStale (cacheKey (config w))
                            (persistentCache (config w)) now) in
            if stale then fetchData false else mret tt
          else fetchData true) in
    mmodify (map_effectCleanup (fun _ => true)).

Definition commit (fetcherChanged : bool) (now : Z) : M World unit :=
  let* w := mget in
  if fetcherChanged || bool_decide ((config w, dataIdentity w) <> effectDeps w)
  then initialLoadEffect now
  else mret tt.

(** *** The first render and mount *)
Definition blank (cfg : Config) (c : Caches) : World :=
  {| data := None; loading := false; error := None;
     controllers := {| abortControllerRef := None; abortedSignals := ∅;
                       nextController := 0 |};
     caches := c; inFlight := []; issued := [];
     config := cfg; dataIdentity := 0%nat; effectDeps := (cfg, 0%nat);
     effectCleanup := false |}.

(** [getInitialData] (lines 666-669) feeding [useState] (line 672). *)
Definition firstRender (now : Z) : M World unit :=
  let* w := mget in
  let* initial :=
    (if negb (enabled (config w)) then mret None
     else liftCaches (getCachedData (cacheKey (config w))
                        (persistentCache (config w)) now)) in
  mmodify (map_data (fun _ => initial)).

Definition mount (cfg : Config) (now : Z) (c : Caches) : World :=
  ((exec firstRender now in initialLoadEffect now) (blank cfg c)).2.

(** *** Events of one hook instance *)
Inductive Event :=
  | Refetch
  | InvalidateCache
  | Focus
  | Settle (c : nat) (settled : Settled D)
  | Rerender (cfg : Config) (fetcherChanged : bool).

Definition settle (c : nat) (settled : Settled D) (now : Z) : M World unit :=
  let* w := mget in
  match list_find (fun rq => controller rq = c) (inFlight w) with
  | Some (i, rq) =>
      exec mmodify (map_inFlight (base.delete i)) in
      fetchData_resume rq settled now
  | None => mret tt
  end.

Definition handle (ev : Event) (now : Z) : M World unit :=
  match ev with
  | Refetch => refetch
  | InvalidateCache => invalidateCache
  | Focus => handleFocus now
  | Settle c settled => settle c settled now
  | Rerender cfg _ => mmodify (map_config (fun _ => cfg))
  end.

Definition react (ev : Event) (now : Z) : M World unit :=
  exec handle ev now in
  commit (match ev with Rerender _ changed => changed | _ => false end) now.

(** An event happening at time [now]. *)
Definition step (w : World) (ev : Event * Z) : World := (react ev.1 ev.2 w).2.

End Hook.
End SingleApi.

(** ** Concrete data used by the examples below *)

Module Examples.

Definition emptyStorage {D T} (down isFull : bool) : Storage D T :=
  {| items := ∅; unavailable := down; full := isFull |}.

(** A single-resource entry written at 1000 with the default TTL. *)
Definition usersEntry : Entry nat nat := createSingleEntry 1%nat 300000 1000.
Definition newerUsersEntry : Entry nat nat := createSingleEntry 2%nat 300000 2000.
(** ... and one written at 1000 with a TTL of 5 ms. *)
Definition shortLivedEntry : Entry nat nat := createSingleEntry 7%nat 5 1000.



(** The durable tier is unavailable; the fast tier holds one entry. *)
Definition memoryOnlyStore : Store nat nat :=
  {| memoryCache := {[ "users" := shortLivedEntry ]};
     localStorage := emptyStorage true false |}.

(** A well-formed post, and one whose [id] is present but zero. *)
Definition post (n : Z) : Post.t :=
  {| Post.id := JNum n; Post.userId := JNum 1;
     Post.title := JStr "sunt aut facere"; Post.body := JStr "quia et suscipit" |}.

(** A server answering every request with posts 1, 0 and 3. *)
Definition zeroIdServer : PostsApi.Server :=
  fun _ =>
    PostsApi.FetchResolves
      {| PostsApi.ok := true; PostsApi.status := 200;
         PostsApi.x_total_count := Some "3";
         PostsApi.json := PostsApi.BodyArray [post 1; post 0; post 3] |}.

Definition firstPage : PostsApi.Params :=
  {| PostsApi.p_page := Some 1; PostsApi.p_limit := Some 10;
     PostsApi.p_start := None; PostsApi.p_userId := None |}.

(** Twenty-five well-formed posts, ids 1 to 25. *)
Definition posts25 : list Post.t := map (fun n => post (Z.of_nat n)) (seq 1 25).

(** One instance of the paginated controller for the unfiltered posts,
    over an empty cache and a server holding [posts25]. *)
Definition emptyStore : Store unit Post.t :=
  {| memoryCache := ∅; localStorage := emptyStorage false false |}.

Definition postsConfig : InfiniteApi.Config := InfinitePosts.config 10 true None.

Definition mounted : @InfiniteApi.World unit Post.t :=
  InfiniteApi.mount postsConfig 0 emptyStore.

(** The request the mount effect starts. *)
Definition firstRequest : InfiniteApi.Request :=
  {| InfiniteApi.controller := 0; InfiniteApi.requestedPage := 1;
     InfiniteApi.requestedLimit := 10;
     InfiniteApi.continuation := InfiniteApi.FetchFirstPage;
     InfiniteApi.closure := postsConfig |}.

Definition withFirstPage : @InfiniteApi.World unit Post.t :=
  InfinitePosts.respond (RemoteApi.pagedServer posts25) None 1000 mounted.

Definition boom : Settled (PaginatedResponse.t Post.t) :=
  Rejected (ErrorObject "Error" "boom").

(** [loadMore()], answered by a failure. *)
Definition failedLoadMore (now : Z) (w : @InfiniteApi.World unit Post.t)
  : @InfiniteApi.World unit Post.t :=
  let w' := InfiniteApi.step w InfiniteApi.LoadMore in
  match last (InfiniteApi.inFlight w') with
  | Some rq =>
      InfiniteApi.step w' (InfiniteApi.Settle (InfiniteApi.controller rq) boom now)
  | None => w'
  end.

(** Page 1 is loaded; then [loadMore()] failed three times in a row. *)
Definition afterThreeFailures : @InfiniteApi.World unit Post.t :=
  failedLoadMore 4000 (failedLoadMore 3000 (failedLoadMore 2000 withFirstPage)).

(** One instance of the single-resource controller.  Its payload was
    cached at time 0 with the default TTL; at 60000 the entry is stale (older
    than 30 s) and unexpired. *)
Definition usersConfig : SingleApi.Config :=
  {| SingleApi.cacheKey := "users"; SingleApi.cacheTtl := 300000;
     SingleApi.enabled := true; SingleApi.persistentCache := true;
     SingleApi.refetchOnFocus := false |}.

Definition staleUsersEntry : Entry nat nat := createSingleEntry 7%nat 300000 0.

Definition staleCaches : @SingleApi.Caches nat nat :=
  {| SingleApi.tiers :=
       {| memoryCache := {[ "users" := staleUsersEntry ]};
          localStorage :=
            {| items := {[ "api_cache_users" := Json staleUsersEntry ]};
               unavailable := false; full := false |} |};
     SingleApi.ownMemoryCache := ∅ |}.

Definition anyTruthy (payload : nat) : bool := true.

Definition staleMounted : @SingleApi.World nat nat :=
  SingleApi.mount anyTruthy usersConfig 60000 staleCaches.

(** A paginated entry, cached for user 5 with page size 10, in both tiers. *)
Definition userFiveEntry : Entry nat nat := createInfiniteEntry [] 300000 1000.

Definition storeHoldingUserFive : Store nat nat :=
  {| memoryCache := {[ "posts_infinite_limit_10_user_5" := userFiveEntry ]};
     localStorage :=
       {| items := {[ "api_cache_posts_infinite_limit_10_user_5" := Json userFiveEntry ]};
          unavailable := false; full := false |} |}.

End Examples.

(** ** Auxiliary notions for the proofs *)

(** Strings made of decimal digits and minus signs only. *)
Definition numeral_char (a : ascii) : bool :=
  bool_decide (is_Some (digit_of a)) || bool_decide (a = "-"%char).

Fixpoint numeral (s : string) : bool :=
  match s with
  | EmptyString => true
  | String a s' => numeral_char a && numeral s'
  end.

(** An entry for [key] is absent from both tiers. *)
Definition absent {D T} (key : string) (st : Store D T) : Prop :=
  memoryCache st !! key = None /\ UniversalCacheManager.durable_entry st key = None.

(** *** Notions about one instance of the paginated controller *)

Section InfiniteNotions.
Context {D T : Type}.
Import InfiniteApi.


(** The request coordinator's bookkeeping is coherent. *)
Record coordinated (cs : Controllers) (flying : list Request) : Prop := {
  flying_known :
    forall rq, rq ∈ flying -> (controller rq < nextController cs)%nat;
  flying_current_or_aborted :
    forall rq, rq ∈ flying ->
      controller rq ∈ abortedSignals cs \/ abortControllerRef cs = Some (controller rq);
  current_live :
    forall c, abortControllerRef cs = Some c ->
      (c ∉ abortedSignals cs) /\ (c < nextController cs)%nat;
  aborted_known :
    forall c, c ∈ abortedSignals cs -> (c < nextController cs)%nat;
  flying_distinct : NoDup (controller <$> flying);
}.

(** A cleanup function is pending only if the last run of the effect
    went on to fetch: the hook was enabled and held no page. *)
Definition armed (w : @World D T) : Prop :=
  effectCleanup w = true ->
  enabled (effectDeps w).1 = true /\ (effectDeps w).2 = 0%nat.

Record consistent (w : @World D T) : Prop := {
  deps_synced : effectDeps w = (config w, length (pages w));
  is_coordinated : coordinated (controllers w) (inFlight w);
  cleanup_armed : armed w;
}.

(** Worlds an instance can be in: mounted, then driven by events. *)
Inductive reachable : @World D T -> Prop :=
  | reachable_mount cfg now st : reachable (mount cfg now st)
  | reachable_step w ev : reachable w -> reachable (step w ev).

(** ... with the cache read of each render taken into account: an event
    is followed by a render or, when it changes no state, by none.  A
    render that none of these events causes (the parent renders again, or
    the state set by the effect itself is committed) is [Rerender] with
    the props it has. *)
Inductive reachableAt : @World D T -> Prop :=
  | reachableAt_mount cfg now st : reachableAt (mount cfg now st)
  | reachableAt_step w ev : reachableAt w -> reachableAt (step w ev)
  | reachableAt_stepAt w ev renderTime :
      reachableAt w -> reachableAt (stepAt w ev renderTime).

(** The request was started by [fetchFirstPage], the automatic fetch. *)
Definition automatic (rq : Request) : bool :=
  match continuation rq with
  | FetchFirstPage => true
  | FetchPage _ _ _ => false
  end.

Definition manualReset (ev : @Event T) : bool :=
  match ev with
  | Refetch | InvalidateCache => true
  | _ => false
  end.

End InfiniteNotions.

Section InfiniteForget.
Context {D T : Type}.
Import InfiniteApi.


End InfiniteForget.

Section InfiniteOutcomes.
Context {D T : Type}.
Import InfiniteApi.

(** The page sequence a successful completion handler installs. *)
Definition pagesAfter (k : Continuation) (prev : list (PaginatedResponse.t T))
    (result : PaginatedResponse.t T) : list (PaginatedResponse.t T) :=
  match k with
  | FetchPage page _ isRefetch =>
      if (page =? 1) && (isRefetch || bool_decide (length prev = 0%nat))
      then [result] else prev ++ [result]
  | FetchFirstPage => [result]
  end.

(** The store after [setCachedPages] (or the effect's inline copy of it). *)
Definition cacheWrite (cfg : Config) (newPages : list (PaginatedResponse.t T)) (now : Z)
    (st : Store D T) : Store D T :=
  ((if persistentCache cfg
    then UniversalCacheManager.set (cacheKey cfg)
           (createInfiniteEntry newPages (cacheTtl cfg) now)
    else UniversalCacheManager.memory_set (cacheKey cfg)
           (createInfiniteEntry newPages (cacheTtl cfg) now)) st).2.

(** The cache read inside [getInitialData] (lines 216-218). *)
Definition cacheRead (cfg : Config) (now : Z) : M (Store D T) (option (Entry D T)) :=
  if persistentCache cfg
  then UniversalCacheManager.get (cacheKey cfg) now
  else UniversalCacheManager.memory_get (cacheKey cfg).

(** The store a render at [now] leaves behind. *)
Definition renderedStore (cfg : Config) (now : Z) (st : Store D T) : Store D T :=
  if enabled cfg then (cacheRead cfg now st).2 else st.

(** What is written to the cache is what the cache hands back: the cache
    is not persistent, or the durable tier accepts the write, or it hands
    back no entry for the key that could shadow the memory tier. *)
Definition writeThrough (cfg : Config) (st : Store D T) : Prop :=
  persistentCache cfg = false
  \/ (unavailable (localStorage st) = false /\ full (localStorage st) = false)
  \/ UniversalCacheManager.durable_entry st (cacheKey cfg) = None.

(** The flags after the [finally] block of a request that was not
    superseded. *)
Definition loadingAfter (k : Continuation) (before : bool) : bool :=
  match k with
  | FetchPage _ showLoading _ => if showLoading then false else before
  | FetchFirstPage => false
  end.

Definition loadingMoreAfter (k : Continuation) (before : bool) : bool :=
  match k with
  | FetchPage _ showLoading _ => if showLoading then false else before
  | FetchFirstPage => before
  end.

End InfiniteOutcomes.

(** *** Notions about the posts scenario *)

(** The pagination metadata [fetchPaginatedPosts] derives from the
    [x-total-count] header and the request parameters. *)
Definition paginationFor (header : option string) (params : PostsApi.Params)
  : PaginationMeta.t :=
  let page := default 1 (PostsApi.p_page params) in
  let limit := default 10 (PostsApi.p_limit params) in
  let totalCount :=
    if bool_decide (is_Some (PostsApi.p_userId params))
       && negb (PostsApi.nonempty_header header)
    then Some 10
    else parseInt (if PostsApi.nonempty_header header then default "" header else "100") in
  let totalPages := (fun t => PostsApi.ceil_div t limit) <$> totalCount in
  let currentPage :=
    match PostsApi.p_start params with
    | Some s => s / limit + 1
    | None => page
    end in
  let hasMore :=
    match totalPages with
    | Some tp => currentPage <? tp
    | None => false
    end in
  {| PaginationMeta.page := currentPage;
     PaginationMeta.limit := limit;
     PaginationMeta.total := totalCount;
     PaginationMeta.totalPages := totalPages;
     PaginationMeta.hasMore := hasMore;
     PaginationMeta.nextPage := if hasMore then Some (currentPage + 1) else None |}.

(** Page [n] of twenty-five items in pages of ten, as the hook receives it. *)
Definition pageOf25 (items : list Post.t) (n : Z) : PaginatedResponse.t Post.t :=
  {| PaginatedResponse.data := RemoteApi.slice items n 10;
     PaginatedResponse.pagination :=
       {| PaginationMeta.page := n;
          PaginationMeta.limit := 10;
          PaginationMeta.total := Some 25;
          PaginationMeta.totalPages := Some 3;
          PaginationMeta.hasMore := n <? 3;
          PaginationMeta.nextPage := if n <? 3 then Some (n + 1) else None |} |}.

(** ** The users API (shared/api/users.ts) *)

Module JsonPlaceholderUser.
(** The fields [fetchUsers] looks at, and the rest of the object. *)
Record t := {
  id : jsval; name : jsval; username : jsval; email : jsval;
  address : jsval; phone : jsval; website : jsval; company : jsval;
}.
End JsonPlaceholderUser.

Module UsersApi.

Inductive Body :=
  | BodyThrows (err : Thrown)
  | BodyNotArray
  | BodyArray (users : list JsonPlaceholderUser.t).

Record Response := { ok : bool; status : Z; json : Body }.

Inductive FetchOutcome :=
  | FetchRejects (err : Thrown)
  | FetchResolves (r : Response).

(** The request has a fixed URL and no query. *)
Definition Server := FetchOutcome.

(** [!user.id || !user.name || !user.username || !user.email] *)
Definition invalid_user (user : JsonPlaceholderUser.t) : bool :=
  negb (truthy (JsonPlaceholderUser.id user))
  || negb (truthy (JsonPlaceholderUser.name user))
  || negb (truthy (JsonPlaceholderUser.username user))
  || negb (truthy (JsonPlaceholderUser.email user)).

Fixpoint first_invalid (index : nat) (users : list JsonPlaceholderUser.t) : option nat :=
  match users with
  | [] => None
  | user :: rest =>
      if invalid_user user then Some index else first_invalid (S index) rest
  end.

Definition validate (b : Body) : PostsApi.Try (list JsonPlaceholderUser.t) :=
  match b with
  | BodyThrows err => inr err
  | BodyNotArray =>
      inr (PostsApi.new_Error "Invalid response format: expected array of users")
  | BodyArray users =>
      match first_invalid 0 users with
      | Some index =>
          inr (PostsApi.new_Error ("Invalid user structure at index " +:+ pretty index))
      | None => inl users
      end
  end.

(** *** [fetchUsers] (lines 37-99) *)
Definition fetchUsers (fetch : Server) (timeoutOpt : option Z)
  : PostsApi.Try (list JsonPlaceholderUser.t) :=
  let timeout := default PostsApi.DEFAULT_TIMEOUT timeoutOpt in
  let attempt : PostsApi.Try (list JsonPlaceholderUser.t) :=
    match fetch with
    | FetchRejects err => inr err
    | FetchResolves response =>
        if negb (ok response)
        then inr (PostsApi.new_Error
                    ("HTTP error! status: " +:+ toString (status response)))
        else validate (json response)
    end in
  match attempt with
  | inl users => inl users
  | inr error => inr (PostsApi.rethrow "users" timeout error)
  end.

End UsersApi.

(** ** JavaScript numbers

    The numbers of the code are IEEE 754 doubles.  On the safe integers
    ([Number.isSafeInteger]) the models above are exact: [toString] prints
    the full decimal numeral (the exponent form only starts at 1e21),
    [parseInt] of a numeral that denotes a safe integer returns that
    integer (from 2^53 on it rounds), sums and comparisons are exact, and
    the quotient of two of them is rounded by less than its distance to the
    nearest integer, so that [Math.floor] and [Math.ceil] of it are the
    floor and the ceiling of the exact quotient. *)
Definition MAX_SAFE_INTEGER : Z := 2 ^ 53 - 1.

Definition isSafeInteger (n : Z) : Prop :=
  - MAX_SAFE_INTEGER <= n <= MAX_SAFE_INTEGER.

(** ** The user filter (features/posts-filter/model/useUserFilter.ts) *)

Module UserFilter.

(** [selectProps.value]: [selectedUserId?.toString() || ''] (line 133). *)
Definition selectValue (selectedUserId : option Z) : string :=
  match selectedUserId with
  | Some userId =>
      if String.eqb (toString userId) "" then "" else toString userId
  | None => ""
  end.

(** What [handleSelectChange] passes to [onUserChange] (lines 125-128):
    [value ? parseInt(value, 10) : undefined].  The outer [None] is
    [undefined], the inner one NaN. *)
Definition handleSelectChange (value : string) : option (option Z) :=
  if String.eqb value "" then None else Some (parseInt value).

Definition selectUser (userId : Z) : option (option Z) := Some (Some userId).

Definition clearSelection : option (option Z) := None.

End UserFilter.

(** ** Client-side search (shared/hooks/useClientSearch.ts) *)

Module ClientSearch.
Section Search.
Context {T : Type}.

(** [String.prototype.toLowerCase] and [String.prototype.trim] are the
    engine's; nothing is assumed about them. *)
Variable toLowerCase : string -> string.
Variable trim : string -> string.

(** [haystack.includes(needle)] *)
Definition includes (haystack needle : string) : bool :=
  bool_decide (is_Some (String.index 0 needle haystack)).

Record Result := {
  filteredData : list T;
  matchCount : nat;
  hasActiveSearch : bool;
  totalCount : nat;
}.

(** [fields.some(field => field?.toLowerCase().includes(query))]; a field
    that is null or undefined at run time does not match. *)
Definition matches (query : string) (fields : list (option string)) : bool :=
  existsb (fun field =>
             match field with
             | Some text => includes (toLowerCase text) query
             | None => false
             end) fields.

(** [useClientSearch] (lines 42-78).  [searchQuery] is [None] when it is
    null or undefined at run time. *)
Definition useClientSearch (data : list T) (searchQuery : option string)
    (searchFields : T -> list (option string)) : Result :=
  let active :=
    match searchQuery with
    | Some text => negb (String.eqb (trim text) "")
    | None => false
    end in
  let filtered :=
    if negb active then data
    else
      let query := trim (toLowerCase (default "" searchQuery)) in
      filter (fun item => matches query (searchFields item) = true) data in
  {| filteredData := filtered;
     matchCount := length filtered;
     hasActiveSearch := active;
     totalCount := length data |}.

End Search.
End ClientSearch.

(** ** Further concrete data *)

Module Scenarios.

(** An empty store with a working durable tier. *)
Definition healthyStore : Store nat nat :=
  {| memoryCache := ∅; localStorage := Examples.emptyStorage false false |}.

(** The durable tier holds [usersEntry]; the fast tier holds a different
    entry under the same key, an unrelated entry, and the durable tier
    holds a key of some other application. *)
Definition divergedStore : Store nat nat :=
  {| memoryCache := {[ "users" := Examples.newerUsersEntry;
                       "posts" := Examples.shortLivedEntry ]};
     localStorage :=
       {| items := {[ "api_cache_users" := Json Examples.usersEntry;
                      "theme" := Malformed ]};
          unavailable := false; full := false |} |}.

(** The text stored under the key is not JSON. *)
Definition corruptStore : Store nat nat :=
  {| memoryCache := {[ "users" := Examples.usersEntry ]};
     localStorage :=
       {| items := {[ "api_cache_users" := Malformed ]};
          unavailable := false; full := false |} |}.

(** The caches of the single-resource hook before anything was stored,
    over a working durable tier. *)
Definition emptyCaches : @SingleApi.Caches nat nat :=
  {| SingleApi.tiers := healthyStore; SingleApi.ownMemoryCache := ∅ |}.

(** The key [posts] holds pages (an infinite-scroll entry) in both tiers. *)
Definition pagesEntry : Entry nat nat := createInfiniteEntry [] 300000 1000.

Definition cachesHoldingPages : @SingleApi.Caches nat nat :=
  {| SingleApi.tiers :=
       {| memoryCache := {[ "posts" := pagesEntry ]};
          localStorage :=
            {| items := {[ "api_cache_posts" := Json pagesEntry ]};
               unavailable := false; full := false |} |};
     SingleApi.ownMemoryCache := {[ "posts" := pagesEntry ]} |}.

(** The users configuration with focus revalidation, and switched off. *)
Definition focusConfig : SingleApi.Config :=
  {| SingleApi.cacheKey := "users"; SingleApi.cacheTtl := 300000;
     SingleApi.enabled := true; SingleApi.persistentCache := true;
     SingleApi.refetchOnFocus := true |}.

Definition disabledConfig : SingleApi.Config :=
  {| SingleApi.cacheKey := "users"; SingleApi.cacheTtl := 300000;
     SingleApi.enabled := false; SingleApi.persistentCache := true;
     SingleApi.refetchOnFocus := false |}.

(** A second and last page of posts, as a fetcher would return it. *)
Definition lastPageResult : PaginatedResponse.t Post.t :=
  {| PaginatedResponse.data := [Examples.post 11; Examples.post 12];
     PaginatedResponse.pagination :=
       {| PaginationMeta.page := 2; PaginationMeta.limit := 10;
          PaginationMeta.total := Some 12; PaginationMeta.totalPages := Some 2;
          PaginationMeta.hasMore := false; PaginationMeta.nextPage := None |} |}.

(** The posts of user 3, and the unfiltered posts with the hook disabled. *)
Definition userThreeConfig : InfiniteApi.Config := InfinitePosts.config 10 true (Some 3).
Definition disabledPostsConfig : InfiniteApi.Config := InfinitePosts.config 10 false None.

(** Servers: one answering with an HTTP status and no usable body, one
    that never answers in time, and one answering with three well-formed
    posts and a given [x-total-count] header. *)
Definition statusServer (code : Z) : PostsApi.Server :=
  fun _ =>
    PostsApi.FetchResolves
      {| PostsApi.ok := false; PostsApi.status := code;
         PostsApi.x_total_count := None; PostsApi.json := PostsApi.BodyNotArray |}.

Definition silentServer : PostsApi.Server :=
  fun _ => PostsApi.FetchRejects PostsApi.AbortError.

Definition threePosts : list Post.t :=
  [Examples.post 1; Examples.post 2; Examples.post 3].

Definition headerServer (header : option string) : PostsApi.Server :=
  fun _ =>
    PostsApi.FetchResolves
      {| PostsApi.ok := true; PostsApi.status := 200;
         PostsApi.x_total_count := header;
         PostsApi.json := PostsApi.BodyArray threePosts |}.

Definition thirdPage : PostsApi.Params :=
  {| PostsApi.p_page := Some 3; PostsApi.p_limit := Some 10;
     PostsApi.p_start := None; PostsApi.p_userId := None |}.

Definition fromOffset20 : PostsApi.Params :=
  {| PostsApi.p_page := None; PostsApi.p_limit := Some 10;
     PostsApi.p_start := Some 20; PostsApi.p_userId := Some 4 |}.





(** Truthiness of a numeric payload, and a cache whose stale payload is
    the number 0. *)
Definition nonzero (payload : nat) : bool := negb (Nat.eqb payload 0).

Definition zeroEntry : Entry nat nat := createSingleEntry 0%nat 300000 0.

Definition cachesHoldingZero : @SingleApi.Caches nat nat :=
  {| SingleApi.tiers :=
       {| memoryCache := {[ "users" := zeroEntry ]};
          localStorage :=
            {| items := {[ "api_cache_users" := Json zeroEntry ]};
               unavailable := false; full := false |} |};
     SingleApi.ownMemoryCache := ∅ |}.

End Scenarios.

(** ** Auxiliary notions for the further properties *)

Section SingleNotions.
Context {D T : Type}.
Import SingleApi.

(** What is written can be read back: always on the non-persistent path,
    and on the persistent path when the durable write goes through. *)
Definition writable (persistent : bool) (c : @Caches D T) : Prop :=
  persistent = false
  \/ (unavailable (localStorage (tiers c)) = false
      /\ full (localStorage (tiers c)) = false).

(** An instance waiting for its one request (controller 0, the current
    one) to settle. *)
Definition pending (d0 : option D) (l0 sl : bool) (cfg : Config) (c : @Caches D T)
  : @World D T :=
  let rq := {| controller := 0; showLoading := sl; closure := cfg |} in
  {| data := d0; loading := l0; error := None;
     controllers := {| abortControllerRef := Some 0%nat; abortedSignals := ∅;
                       nextController := 1 |};
     caches := c; inFlight := [rq]; issued := [rq]; config := cfg;
     dataIdentity := 0%nat; effectDeps := (cfg, 0%nat); effectCleanup := true |}.

(** An instance at rest: nothing in flight, no request issued yet. *)
Definition resting (d0 : option D) (cfg : Config) (c : @Caches D T) : @World D T :=
  {| data := d0; loading := false; error := None;
     controllers := {| abortControllerRef := None; abortedSignals := ∅;
                       nextController := 0 |};
     caches := c; inFlight := []; issued := []; config := cfg;
     dataIdentity := 0%nat; effectDeps := (cfg, 0%nat); effectCleanup := true |}.

End SingleNotions.

(** * Properties *)

(** ** The cache store *)

Section CacheStoreFacts.
Context {D T : Type}.
Implicit Types (st : Store D T) (e : Entry D T) (key : string).

Import UniversalCacheManager.

Lemma delete_eq key st :
  delete key st =
    (Ret tt,
     if unavailable (localStorage st)
     then with_memory (base.delete key) st
     else with_memory (base.delete key)
            (with_items (base.delete (CACHE_PREFIX +:+ key)) st)).
Proof.
  unfold delete, mbind, try_catch, removeItem, memory_delete, mret.
  destruct (unavailable (localStorage st)); reflexivity.
Qed.

(** [get] reads the durable tier first and checks expiry only there. *)
Lemma get_eq key now st :
  get key now st =
    match durable_entry st key with
    | Some e =>
        if now >? expiresAt e then (Ret None, (delete key st).2)
        else (Ret (Some e), with_memory (insert key e) st)
    | None => (Ret (memoryCache st !! key), st)
    end.
Proof.
  unfold get, durable_entry, mbind, try_catch, getItem.
  destruct (unavailable (localStorage st)) eqn:Hun; [reflexivity|].
  destruct (items (localStorage st) !! (CACHE_PREFIX +:+ key)) as [[| |e]|];
    simpl; try reflexivity.
  destruct (now >? expiresAt e); simpl.
  - rewrite delete_eq. reflexivity.
  - reflexivity.
Qed.

Lemma set_eq key e st :
  set key e st =
    (Ret tt,
     if unavailable (localStorage st) || full (localStorage st)
     then with_memory (insert key e) st
     else with_memory (insert key e)
            (with_items (insert (CACHE_PREFIX +:+ key) (Json e)) st)).
Proof.
  unfold set, mbind, try_catch, setItem, memory_set, mret.
  destruct (unavailable (localStorage st)); [reflexivity|].
  destruct (full (localStorage st)); reflexivity.
Qed.


Lemma durable_entry_with_memory f st key :
  durable_entry (with_memory f st) key = durable_entry st key.
Proof. reflexivity. Qed.

(** After [delete], neither tier yields an entry for the key. *)
Lemma delete_absent key st :
  memoryCache (delete key st).2 !! key = None
  /\ durable_entry (delete key st).2 key = None.
Proof.
  rewrite delete_eq. unfold durable_entry. simpl.
  destruct (unavailable (localStorage st)) eqn:Hun; simpl; rewrite ?Hun.
  - split; [apply lookup_delete_eq | reflexivity].
  - split; [apply lookup_delete_eq |]. by rewrite lookup_delete_eq.
Qed.

(** Durable path, expired: [get] answers null and purges both tiers. *)
Lemma get_expired_durable key now st e :
  durable_entry st key = Some e ->
  expiresAt e < now ->
  (get key now st).1 = Ret None
  /\ memoryCache (get key now st).2 !! key = None
  /\ durable_entry (get key now st).2 key = None.
Proof.
  intros Hd Hlt. rewrite get_eq, Hd.
  assert (Hgt : (now >? expiresAt e) = true) by lia. rewrite Hgt. simpl.
  split; [reflexivity | apply delete_absent].
Qed.

(** Within the TTL, [get] answers with the stored entry on both paths. *)
Lemma get_fresh_durable key now st e :
  durable_entry st key = Some e ->
  now <= expiresAt e ->
  (get key now st).1 = Ret (Some e).
Proof.
  intros Hd Hle. rewrite get_eq, Hd.
  assert (Hgt : (now >? expiresAt e) = false) by lia. rewrite Hgt. reflexivity.
Qed.

(** Memory path: whatever the fast tier holds is returned, at any time. *)
Lemma get_memory_path key now st :
  durable_entry st key = None ->
  get key now st = (Ret (memoryCache st !! key), st).
Proof. intros Hd. by rewrite get_eq, Hd. Qed.



End CacheStoreFacts.



(** C1 at the failing input.  The durable tier is unavailable and the entry
    lives in the fast tier only; it was stored at 1000 with a TTL of 5, so it
    expired at 1005.  A [get] at 1006 still returns it and leaves it in the
    fast tier: the fallback to [memoryCache] performs no expiry check. *)
Theorem get_after_expiry_fast_tier_only :
  let e := Examples.shortLivedEntry in
  let st := Examples.memoryOnlyStore in
  unavailable (localStorage st) = true
  /\ expiresAt e = 1005
  /\ UniversalCacheManager.get "users" 1006 st = (Ret (Some e), st)
  /\ memoryCache (UniversalCacheManager.get "users" 1006 st).2 !! "users" = Some e.
Proof.
  intros e st. split; [reflexivity|]. split; [reflexivity|].
  assert (UniversalCacheManager.get "users" 1006 st = (Ret (Some e), st)) as ->.
  { rewrite get_memory_path by reflexivity. reflexivity. }
  split; reflexivity.
Qed.

(** ** Validation at the fetch boundary *)

Section Validation.
Import PostsApi.

Lemma invalid_post_true post : invalid_post post = true <-> has_falsy_field post.
Proof.
  unfold invalid_post, has_falsy_field.
  rewrite !orb_true_iff, !negb_true_iff. tauto.
Qed.

Lemma invalid_post_false post : invalid_post post = false <-> accepted post.
Proof.
  unfold invalid_post, accepted.
  rewrite !orb_false_iff, !negb_false_iff. tauto.
Qed.

Lemma first_invalid_some posts : forall index,
  Exists has_falsy_field posts ->
  exists found, first_invalid index posts = Some found.
Proof.
  induction posts as [|post rest IH]; intros index Hex.
  - inversion Hex.
  - simpl. destruct (invalid_post post) eqn:Hinv; [by eexists|].
    apply IH. inversion Hex as [? ? Hbad|]; subst; [|assumption].
    apply invalid_post_true in Hbad. congruence.
Qed.

Lemma first_invalid_none posts : forall index,
  first_invalid index posts = None -> Forall accepted posts.
Proof.
  induction posts as [|post rest IH]; intros index Hnone; [constructor|].
  simpl in Hnone. destruct (invalid_post post) eqn:Hinv; [discriminate|].
  constructor; [by apply invalid_post_false | by eapply IH].
Qed.

Lemma validate_rejects posts :
  Exists has_falsy_field posts ->
  exists index : nat,
    validate (BodyArray posts)
    = inr (new_Error ("Invalid post structure at index " +:+ pretty index)).
Proof.
  intros Hex. destruct (first_invalid_some posts 0%nat Hex) as [index Hidx].
  exists index. unfold validate. by rewrite Hidx.
Qed.

Lemma validate_accepts b posts : validate b = inl posts -> Forall accepted posts.
Proof.
  destruct b as [err| |ps]; simpl; try discriminate.
  destruct (first_invalid 0 ps) eqn:Hidx; [discriminate|].
  intros [= <-]. by eapply first_invalid_none.
Qed.

Lemma accepted_fields post :
  accepted post ->
  Post.id post <> JNum 0 /\ Post.userId post <> JNum 0
  /\ Post.title post <> JStr "" /\ Post.body post <> JStr "".
Proof.
  intros (Hi & Hu & Ht & Hb).
  repeat split; intros Heq; rewrite Heq in *; discriminate.
Qed.

Lemma fetchPaginatedPosts_rejects fetch params timeout response posts :
  fetch (queryParams params) = FetchResolves response ->
  ok response = true ->
  json response = BodyArray posts ->
  Exists has_falsy_field posts ->
  exists index : nat,
    fetchPaginatedPosts fetch params timeout
    = inr (new_Error ("Failed to fetch paginated posts: Invalid post structure at index "
                      +:+ pretty index)).
Proof.
  intros Hfetch Hok Hjson Hex.
  destruct (validate_rejects posts Hex) as [index Hval]. exists index.
  unfold fetchPaginatedPosts. rewrite Hfetch, Hok, Hjson. simpl negb. cbv iota.
  rewrite Hval. reflexivity.
Qed.

Lemma fetchPosts_rejects fetch timeout response posts :
  fetch [] = FetchResolves response ->
  ok response = true ->
  json response = BodyArray posts ->
  Exists has_falsy_field posts ->
  exists index : nat,
    fetchPosts fetch timeout
    = inr (new_Error ("Failed to fetch posts: Invalid post structure at index "
                      +:+ pretty index)).
Proof.
  intros Hfetch Hok Hjson Hex.
  destruct (validate_rejects posts Hex) as [index Hval]. exists index.
  unfold fetchPosts. rewrite Hfetch, Hok, Hjson. simpl negb. cbv iota.
  rewrite Hval. reflexivity.
Qed.

Lemma fetchPaginatedPosts_accepts fetch params timeout result :
  fetchPaginatedPosts fetch params timeout = inl result ->
  Forall accepted (PaginatedResponse.data result).
Proof.
  unfold fetchPaginatedPosts.
  destruct (fetch (queryParams params)) as [err|response]; [discriminate|].
  destruct (ok response); [|discriminate]. simpl negb. cbv iota.
  destruct (json response) as [err| |posts] eqn:Hjson; try discriminate.
  destruct (validate (BodyArray posts)) as [ps|err] eqn:Hval; [|discriminate].
  intros [= <-]. simpl. by eapply validate_accepts.
Qed.

Lemma fetchPosts_accepts fetch timeout posts :
  fetchPosts fetch timeout = inl posts -> Forall accepted posts.
Proof.
  unfold fetchPosts.
  destruct (fetch []) as [err|response]; [discriminate|].
  destruct (ok response); [|discriminate]. simpl negb. cbv iota.
  destruct (validate (json response)) as [ps|err] eqn:Hval; [|discriminate].
  intros [= <-]. by eapply validate_accepts.
Qed.

(** C10.  Whenever a post of the parsed response has a falsy [id],
    [userId], [title] or [body], [fetchPaginatedPosts] and [fetchPosts]
    throw the "Invalid post structure" error for the first such post; zero
    and the empty string are falsy, so a present field does not save the
    post.  Hence every post of a successfully returned array has all four
    fields truthy: a nonzero [id] and [userId], a non-empty [title] and
    [body]. *)
Theorem strict_falsy_field_validation fetch posts response :
  ok response = true ->
  json response = BodyArray posts ->
  Exists has_falsy_field posts ->
  (truthy (JNum 0) = false /\ truthy (JStr "") = false)
  /\ (forall params timeout,
        fetch (queryParams params) = FetchResolves response ->
        exists index : nat,
          fetchPaginatedPosts fetch params timeout
          = inr (new_Error
                   ("Failed to fetch paginated posts: Invalid post structure at index "
                    +:+ pretty index)))
  /\ (forall timeout,
        fetch [] = FetchResolves response ->
        exists index : nat,
          fetchPosts fetch timeout
          = inr (new_Error
                   ("Failed to fetch posts: Invalid post structure at index "
                    +:+ pretty index)))
  /\ (forall fetch' params timeout result post,
        fetchPaginatedPosts fetch' params timeout = inl result ->
        post ∈ PaginatedResponse.data result ->
        accepted post
        /\ Post.id post <> JNum 0 /\ Post.userId post <> JNum 0
        /\ Post.title post <> JStr "" /\ Post.body post <> JStr "")
  /\ (forall fetch' timeout returned post,
        fetchPosts fetch' timeout = inl returned ->
        post ∈ returned ->
        accepted post
        /\ Post.id post <> JNum 0 /\ Post.userId post <> JNum 0
        /\ Post.title post <> JStr "" /\ Post.body post <> JStr "").
Proof.
  intros Hok Hjson Hex. split; [split; reflexivity|].
  split; [intros; by eapply fetchPaginatedPosts_rejects|].
  split; [intros; by eapply fetchPosts_rejects|].
  split.
  - intros fetch' params timeout result post Hres Hin.
    apply fetchPaginatedPosts_accepts in Hres.
    rewrite Forall_forall in Hres. specialize (Hres _ Hin).
    split; [assumption | by apply accepted_fields].
  - intros fetch' timeout returned post Hres Hin.
    apply fetchPosts_accepts in Hres.
    rewrite Forall_forall in Hres. specialize (Hres _ Hin).
    split; [assumption | by apply accepted_fields].
Qed.

End Validation.

Lemma strict_falsy_field_validation_witness :
  PostsApi.fetchPaginatedPosts Examples.zeroIdServer Examples.firstPage None
  = inr (PostsApi.new_Error
           "Failed to fetch paginated posts: Invalid post structure at index 1")
  /\ PostsApi.fetchPosts Examples.zeroIdServer None
     = inr (PostsApi.new_Error "Failed to fetch posts: Invalid post structure at index 1").
Proof.
  destruct (strict_falsy_field_validation Examples.zeroIdServer
              [Examples.post 1; Examples.post 0; Examples.post 3]
              {| PostsApi.ok := true; PostsApi.status := 200;
                 PostsApi.x_total_count := Some "3";
                 PostsApi.json :=
                   PostsApi.BodyArray [Examples.post 1; Examples.post 0; Examples.post 3] |}
              eq_refl eq_refl) as (_ & Hpaged & Hall & _).
  - apply Exists_cons_tl, Exists_cons_hd. left. reflexivity.
  - destruct (Hpaged Examples.firstPage None eq_refl) as [i Hi].
    destruct (Hall None eq_refl) as [j Hj].
    split; reflexivity.
Defined.

(** ** Cache keys *)

Section NumeralStrings.

Lemma numeral_pretty_N_go x : forall s, numeral s = true -> numeral (pretty_N_go x s) = true.
Proof.
  induction (N.lt_wf_0 x) as [x _ IH]; intros s Hs.
  assert (x = 0 \/ 0 < x)%N as [->|Hpos] by lia.
  - by rewrite pretty_N_go_0.
  - rewrite pretty_N_go_step by done. apply IH; [by apply N.div_lt|].
    simpl. rewrite Hs, andb_true_r.
    unfold pretty_N_char. by repeat case_match.
Qed.

Lemma numeral_pretty_N (x : N) : numeral (pretty x) = true.
Proof.
  unfold pretty, pretty_N. case_decide; [reflexivity|].
  by apply numeral_pretty_N_go.
Qed.

Lemma numeral_toString (z : Z) : numeral (toString z) = true.
Proof.
  unfold toString, pretty, pretty_Z. destruct z as [|p|p].
  - reflexivity.
  - apply (numeral_pretty_N (Npos p)).
  - change (numeral (String "-" (pretty (Npos p))) = true).
    simpl. apply (numeral_pretty_N (Npos p)).
Qed.

(** A numeral followed by an underscore splits in one way only. *)
Lemma numeral_split s1 : forall s2 t1 t2,
  numeral s1 = true -> numeral s2 = true ->
  s1 +:+ String "_" t1 = s2 +:+ String "_" t2 ->
  s1 = s2 /\ t1 = t2.
Proof.
  induction s1 as [|a s1 IH]; intros [|b s2] t1 t2 H1 H2 Heq; simpl in *.
  - by injection Heq.
  - injection Heq as <- _. apply andb_true_iff in H2 as [H2 _]. discriminate.
  - injection Heq as -> _. apply andb_true_iff in H1 as [H1 _]. discriminate.
  - injection Heq as -> Heq.
    apply andb_true_iff in H1 as [_ H1]. apply andb_true_iff in H2 as [_ H2].
    destruct (IH _ _ _ H1 H2 Heq) as [-> ->]. done.
Qed.

Lemma toString_not_all (z : Z) : toString z <> "all".
Proof. intros Heq. pose proof (numeral_toString z) as H. rewrite Heq in H. discriminate. Qed.

Lemma toString_inj (x y : Z) : toString x = toString y -> x = y.
Proof. apply pretty_Z_inj. Qed.

End NumeralStrings.

(** The key is a function of [(limit, userId)], and it separates any two
    filter combinations whose user id is not zero. *)
Lemma cacheKey_injective_for_nonzero_user limit limit' userId userId' :
  userId <> Some 0 -> userId' <> Some 0 ->
  InfinitePosts.cacheKey limit userId = InfinitePosts.cacheKey limit' userId' ->
  limit = limit' /\ userId = userId'.
Proof.
  intros Hu Hu' Heq. unfold InfinitePosts.cacheKey in Heq.
  apply (inj (String.app "posts_infinite_limit_")) in Heq.
  change ("_user_" +:+ ?s) with (String "_" ("user_" +:+ s)) in Heq.
  apply numeral_split in Heq as [Hl Hs]; [|apply numeral_toString..].
  apply toString_inj in Hl. apply (inj (String.app "user_")) in Hs.
  split; [assumption|].
  destruct userId as [u|], userId' as [u'|]; try reflexivity.
  - destruct (Z.eqb_spec u 0); [congruence|]. destruct (Z.eqb_spec u' 0); [congruence|].
    by apply toString_inj in Hs as ->.
  - destruct (Z.eqb_spec u 0); [congruence|]. by apply toString_not_all in Hs.
  - destruct (Z.eqb_spec u' 0); [congruence|]. symmetry in Hs. by apply toString_not_all in Hs.
Qed.

(** C7 at the failing input.  [userId || 'all'] sends the user id [0] to the
    key of "all users", although [0] is a specific user for the fetcher
    ([userId !== undefined] adds [userId=0] to the query) and for the filters
    cache manager: two different filter combinations share one key. *)
Theorem cacheKey_user_zero_collides_with_all_users :
  InfinitePosts.cacheKey 10 (Some 0) = InfinitePosts.cacheKey 10 None
  /\ InfinitePosts.cacheKey 10 None = "posts_infinite_limit_10_user_all"
  /\ Some 0 <> (None : option Z)
  /\ PostsApi.queryParams
       {| PostsApi.p_page := Some 1; PostsApi.p_limit := Some 10;
          PostsApi.p_start := None; PostsApi.p_userId := Some 0 |}
     = [("_page", "1"); ("_limit", "10"); ("userId", "0")]
  /\ PostsApi.queryParams
       {| PostsApi.p_page := Some 1; PostsApi.p_limit := Some 10;
          PostsApi.p_start := None; PostsApi.p_userId := None |}
     = [("_page", "1"); ("_limit", "10")].
Proof. repeat split; try reflexivity. discriminate. Qed.

(** ** Cross-filter invalidation *)

Section FilterInvalidation.
Context {D T : Type}.
Implicit Types (st : Store D T) (key : string).

Import UniversalCacheManager FiltersCacheManager.

Lemma delete_keeps_absent key key' st : absent key st -> absent key (delete key' st).2.
Proof.
  intros [Hm Hd]. rewrite delete_eq. unfold absent, durable_entry in *. simpl.
  destruct (unavailable (localStorage st)) eqn:Hun; simpl; rewrite ?Hun.
  - split; [|reflexivity]. rewrite lookup_delete_None. by right.
  - split; [rewrite lookup_delete_None; by right|].
    destruct (decide (CACHE_PREFIX +:+ key' = CACHE_PREFIX +:+ key)) as [->|Hne].
    + by rewrite lookup_delete_eq.
    + by rewrite lookup_delete_ne.
Qed.

(** [delete] touches no other key, in either tier. *)
Lemma delete_other key key' st :
  key <> key' ->
  memoryCache (delete key' st).2 !! key = memoryCache st !! key
  /\ items (localStorage (delete key' st).2) !! (CACHE_PREFIX +:+ key)
     = items (localStorage st) !! (CACHE_PREFIX +:+ key).
Proof.
  intros Hne. rewrite delete_eq.
  assert (CACHE_PREFIX +:+ key' <> CACHE_PREFIX +:+ key) as Hne'.
  { intros Heq. apply (inj (String.app CACHE_PREFIX)) in Heq. congruence. }
  destruct (unavailable (localStorage st)); simpl;
    rewrite ?lookup_delete_ne by congruence; done.
Qed.

Lemma forEach_delete_returns (f : Z -> string) ids st :
  (mforEach (fun userId => delete (f userId)) ids st).1 = Ret tt.
Proof.
  revert st. induction ids as [|userId ids IH]; intros st; [reflexivity|].
  simpl. unfold mbind. rewrite delete_eq. apply IH.
Qed.

Lemma forEach_delete_keeps_absent (f : Z -> string) ids key st :
  absent key st -> absent key (mforEach (fun userId => delete (f userId)) ids st).2.
Proof.
  revert st. induction ids as [|userId ids IH]; intros st Habs; [assumption|].
  simpl. unfold mbind.
  pose proof (delete_keeps_absent key (f userId) st Habs) as Habs'.
  rewrite delete_eq in *. by apply IH.
Qed.

Lemma forEach_delete_absent (f : Z -> string) ids userId st :
  userId ∈ ids ->
  absent (f userId) (mforEach (fun userId => delete (f userId)) ids st).2.
Proof.
  revert st. induction ids as [|first ids IH]; intros st Hin; [by inversion Hin|].
  simpl. unfold mbind.
  pose proof (delete_absent (f first) st) as Habs.
  rewrite delete_eq in *. simpl in Habs.
  apply elem_of_cons in Hin as [->|Hin].
  - by apply forEach_delete_keeps_absent.
  - by apply IH.
Qed.

(** C8, amended.  When the user filter changes to a specific user (from
    "all users" or from another user), the manager deletes the "all users"
    entry for the page size from both tiers and touches no other key; when
    it changes back to "all users", the manager deletes the entries of
    every user id from 1 to 10 from both tiers. *)
Theorem cross_filter_invalidation previous selected limit st :
  previous <> selected ->
  match selected with
  | Some _ =>
      absent (allUsersKey limit) (onFilterChange previous selected limit st).2
      /\ (forall key, key <> allUsersKey limit ->
            memoryCache (onFilterChange previous selected limit st).2 !! key
            = memoryCache st !! key
            /\ items (localStorage (onFilterChange previous selected limit st).2)
                 !! (CACHE_PREFIX +:+ key)
               = items (localStorage st) !! (CACHE_PREFIX +:+ key))
  | None =>
      forall userId, 1 <= userId <= 10 ->
        absent (userCacheKey limit userId) (onFilterChange previous selected limit st).2
  end.
Proof.
  intros Hne. unfold onFilterChange. rewrite decide_False by assumption.
  destruct selected as [v|]; unfold effect.
  - split; [apply delete_absent|]. intros key Hkey. by apply delete_other.
  - intros userId Hrange.
    apply (forEach_delete_absent (userCacheKey limit) knownUserIds).
    unfold knownUserIds.
    assert (userId = 1 \/ userId = 2 \/ userId = 3 \/ userId = 4 \/ userId = 5
            \/ userId = 6 \/ userId = 7 \/ userId = 8 \/ userId = 9 \/ userId = 10)
      as Hcases by lia.
    rewrite !elem_of_cons. tauto.
Qed.

End FilterInvalidation.

Lemma cross_filter_invalidation_witness :
  Some 3 <> (None : option Z)
  /\ forall userId, 1 <= userId <= 10 ->
       absent (FiltersCacheManager.userCacheKey 10 userId)
         (FiltersCacheManager.onFilterChange (Some 3) None 10
            Examples.storeHoldingUserFive).2.
Proof.
  split; [discriminate|].
  exact (cross_filter_invalidation (Some 3) None 10 Examples.storeHoldingUserFive
           ltac:(discriminate)).
Defined.

(** C8, as stated, fails for a change from one user to another: the
    effect then deletes the "all users" entry only, and the entry cached for
    user 5 stays in both tiers when the filter goes from user 3 to user 7. *)
Lemma cross_filter_invalidation_counterexample :
  let st' := (FiltersCacheManager.onFilterChange (Some 3) (Some 7) 10
                Examples.storeHoldingUserFive).2 in
  FiltersCacheManager.userCacheKey 10 5 = "posts_infinite_limit_10_user_5"
  /\ memoryCache st' !! FiltersCacheManager.userCacheKey 10 5 = Some Examples.userFiveEntry
  /\ UniversalCacheManager.durable_entry st' (FiltersCacheManager.userCacheKey 10 5)
     = Some Examples.userFiveEntry.
Proof. vm_compute. repeat split. Qed.

(** ** The paginated controller: how each handler transforms the world *)

(** Reduce the projections of explicit worlds and pairs, nothing else. *)
Ltac world_simpl :=
  cbn [fst snd orb andb negb length
       InfiniteApi.pages InfiniteApi.loading InfiniteApi.loadingMore InfiniteApi.error
       InfiniteApi.hasMore InfiniteApi.currentPageRef InfiniteApi.retryCountRef
       InfiniteApi.controllers InfiniteApi.store InfiniteApi.inFlight InfiniteApi.issued
       InfiniteApi.config InfiniteApi.effectDeps InfiniteApi.effectCleanup
       InfiniteApi.controller InfiniteApi.requestedPage InfiniteApi.requestedLimit
       InfiniteApi.continuation InfiniteApi.closure
       InfiniteApi.map_pages InfiniteApi.map_loading InfiniteApi.map_loadingMore
       InfiniteApi.map_error InfiniteApi.map_hasMore InfiniteApi.map_currentPageRef
       InfiniteApi.map_retryCountRef InfiniteApi.map_controllers InfiniteApi.map_store
       InfiniteApi.map_inFlight InfiniteApi.map_issued InfiniteApi.map_config
       InfiniteApi.map_effectDeps InfiniteApi.map_effectCleanup
       abortControllerRef abortedSignals nextController] in *.

Section InfiniteTransitions.
Context {D T : Type}.
Import InfiniteApi.
Implicit Types (w : @World D T) (rq : @Request) (st : Store D T).

#[local] Abbreviation Page := (PaginatedResponse.t T).

Lemma store_write_returns (cfg : Config) (e : Entry D T) st :
  (if persistentCache cfg
   then UniversalCacheManager.set (cacheKey cfg) e
   else UniversalCacheManager.memory_set (cacheKey cfg) e) st
  = (Ret tt,
     ((if persistentCache cfg
       then UniversalCacheManager.set (cacheKey cfg) e
       else UniversalCacheManager.memory_set (cacheKey cfg) e) st).2).
Proof. destruct (persistentCache cfg); [by rewrite set_eq | reflexivity]. Qed.

Lemma store_delete_returns (cfg : Config) st :
  (if persistentCache cfg
   then UniversalCacheManager.delete (cacheKey cfg)
   else UniversalCacheManager.memory_delete (cacheKey cfg)) st
  = (Ret tt,
     ((if persistentCache cfg
       then UniversalCacheManager.delete (cacheKey cfg)
       else UniversalCacheManager.memory_delete (cacheKey cfg)) st).2).
Proof. destruct (persistentCache cfg); [by rewrite delete_eq | reflexivity]. Qed.

Lemma fetchPage_eq page showLoading isRefetch w :
  fetchPage page showLoading isRefetch w =
    let rq := {| controller := nextController (controllers w);
                 requestedPage := page; requestedLimit := limit (config w);
                 continuation := FetchPage page showLoading isRefetch;
                 closure := config w |} in
    (Ret tt,
     {| pages := pages w;
        loading := if showLoading && (page =? 1) then true else loading w;
        loadingMore := if showLoading && negb (page =? 1) then true else loadingMore w;
        error := if showLoading then None else error w;
        hasMore := hasMore w;
        currentPageRef := currentPageRef w;
        retryCountRef := retryCountRef w;
        controllers := (ApiUtils.createRequestController (controllers w)).2;
        store := store w;
        inFlight := inFlight w ++ [rq];
        issued := issued w ++ [rq];
        config := config w;
        effectDeps := effectDeps w;
        effectCleanup := effectCleanup w |}).
Proof.
  destruct w. unfold fetchPage, mbind, createRequestController. simpl.
  destruct showLoading, (page =? 1); reflexivity.
Qed.

Lemma fetchFirstPage_eq w :
  fetchFirstPage w =
    let rq := {| controller := nextController (controllers w);
                 requestedPage := 1; requestedLimit := limit (config w);
                 continuation := FetchFirstPage;
                 closure := config w |} in
    (Ret tt,
     {| pages := pages w;
        loading := true;
        loadingMore := loadingMore w;
        error := None;
        hasMore := hasMore w;
        currentPageRef := currentPageRef w;
        retryCountRef := retryCountRef w;
        controllers := (ApiUtils.createRequestController (controllers w)).2;
        store := store w;
        inFlight := inFlight w ++ [rq];
        issued := issued w ++ [rq];
        config := config w;
        effectDeps := effectDeps w;
        effectCleanup := effectCleanup w |}).
Proof. destruct w. reflexivity. Qed.

Lemma loadMore_eq w :
  loadMore w =
    if negb (hasMore w) || loadingMore w || loading w then (Ret tt, w)
    else fetchPage (currentPageRef w + 1) true false w.
Proof.
  unfold loadMore, mbind, mget.
  destruct (negb (hasMore w) || loadingMore w || loading w); reflexivity.
Qed.

Lemma refetch_eq w :
  refetch w =
    fetchPage 1 true true
      {| pages := []; loading := loading w; loadingMore := loadingMore w;
         error := None; hasMore := true; currentPageRef := 1; retryCountRef := 0;
         controllers := controllers w; store := store w; inFlight := inFlight w;
         issued := issued w; config := config w; effectDeps := effectDeps w;
         effectCleanup := effectCleanup w |}.
Proof. destruct w. reflexivity. Qed.

Lemma invalidateCache_eq w :
  invalidateCache w =
    refetch
      (map_store
         (fun st =>
            ((if persistentCache (config w)
              then UniversalCacheManager.delete (cacheKey (config w))
              else UniversalCacheManager.memory_delete (cacheKey (config w))) st).2)
         w).
Proof.
  unfold invalidateCache, mbind, mget, liftStore, lift.
  rewrite store_delete_returns. reflexivity.
Qed.

(** A superseded request: nothing but the hand-over of the controller
    ref, which is a no-op unless the ref still points to it. *)
Lemma fetchPage_resume_aborted rq page showLoading isRefetch settled now w :
  ApiUtils.aborted (controller rq) (controllers w) = true ->
  fetchPage_resume rq page showLoading isRefetch settled now w
  = (Ret tt, map_controllers (ApiUtils.cleanupRequest (controller rq)) w).
Proof.
  intros Hab.
  unfold fetchPage_resume, try_finally, try_catch, mbind, signalAborted, mret, mthrow,
    await, cleanupRequest, mmodify.
  destruct settled; simpl; repeat (rewrite Hab; simpl); reflexivity.
Qed.

Lemma fetchFirstPage_resume_aborted rq settled now w :
  ApiUtils.aborted (controller rq) (controllers w) = true ->
  fetchFirstPage_resume rq settled now w
  = (Ret tt, map_controllers (ApiUtils.cleanupRequest (controller rq)) w).
Proof.
  intros Hab.
  unfold fetchFirstPage_resume, try_finally, try_catch, mbind, signalAborted, mret,
    mthrow, await, cleanupRequest, mmodify.
  destruct settled; simpl; repeat (rewrite Hab; simpl); reflexivity.
Qed.

Lemma fetchPage_resume_resolved rq page showLoading isRefetch result now w :
  ApiUtils.aborted (controller rq) (controllers w) = false ->
  fetchPage_resume rq page showLoading isRefetch (Resolved result) now w =
    let newPages :=
      if (page =? 1) && (isRefetch || bool_decide (length (pages w) = 0%nat))
      then [result] else pages w ++ [result] in
    (Ret tt,
     {| pages := newPages;
        loading := if showLoading then false else loading w;
        loadingMore := if showLoading then false else loadingMore w;
        error := None;
        hasMore := PaginationMeta.hasMore (PaginatedResponse.pagination result);
        currentPageRef := PaginationMeta.page (PaginatedResponse.pagination result);
        retryCountRef := 0;
        controllers := ApiUtils.cleanupRequest (controller rq) (controllers w);
        store :=
          ((if persistentCache (closure rq)
            then UniversalCacheManager.set (cacheKey (closure rq))
                   (createInfiniteEntry newPages (cacheTtl (closure rq)) now)
            else UniversalCacheManager.memory_set (cacheKey (closure rq))
                   (createInfiniteEntry newPages (cacheTtl (closure rq)) now))
             (store w)).2;
        inFlight := inFlight w;
        issued := issued w;
        config := config w;
        effectDeps := effectDeps w;
        effectCleanup := effectCleanup w |}).
Proof.
  intros Hab. destruct w.
  unfold fetchPage_resume, try_finally, try_catch, mbind, signalAborted,
    setCachedPages, liftStore, lift in *.
  simpl in *. rewrite Hab. simpl. rewrite store_write_returns. simpl. rewrite Hab.
  destruct showLoading; reflexivity.
Qed.

Lemma fetchPage_resume_rejected rq page showLoading isRefetch err now w :
  ApiUtils.aborted (controller rq) (controllers w) = false ->
  fetchPage_resume rq page showLoading isRefetch (Rejected err) now w =
    (Ret tt,
     {| pages := pages w;
        loading := if showLoading then false else loading w;
        loadingMore := if showLoading then false else loadingMore w;
        error := Some (errorMessage err);
        hasMore := hasMore w;
        currentPageRef := currentPageRef w;
        retryCountRef := retryCountRef w + 1;
        controllers := ApiUtils.cleanupRequest (controller rq) (controllers w);
        store := store w;
        inFlight := inFlight w;
        issued := issued w;
        config := config w;
        effectDeps := effectDeps w;
        effectCleanup := effectCleanup w |}).
Proof.
  intros Hab. destruct w.
  unfold fetchPage_resume, try_finally, try_catch, mbind, signalAborted in *.
  simpl in *. rewrite Hab. simpl. rewrite Hab.
  destruct showLoading; reflexivity.
Qed.

Lemma fetchFirstPage_resume_resolved rq result now w :
  ApiUtils.aborted (controller rq) (controllers w) = false ->
  fetchFirstPage_resume rq (Resolved result) now w =
    (Ret tt,
     {| pages := [result];
        loading := false;
        loadingMore := loadingMore w;
        error := None;
        hasMore := PaginationMeta.hasMore (PaginatedResponse.pagination result);
        currentPageRef := PaginationMeta.page (PaginatedResponse.pagination result);
        retryCountRef := 0;
        controllers := ApiUtils.cleanupRequest (controller rq) (controllers w);
        store :=
          ((if persistentCache (closure rq)
            then UniversalCacheManager.set (cacheKey (closure rq))
                   (createInfiniteEntry [result] (cacheTtl (closure rq)) now)
            else UniversalCacheManager.memory_set (cacheKey (closure rq))
                   (createInfiniteEntry [result] (cacheTtl (closure rq)) now))
             (store w)).2;
        inFlight := inFlight w;
        issued := issued w;
        config := config w;
        effectDeps := effectDeps w;
        effectCleanup := effectCleanup w |}).
Proof.
  intros Hab. destruct w.
  unfold fetchFirstPage_resume, try_finally, try_catch, mbind, signalAborted,
    setCachedPages, liftStore, lift in *.
  simpl in *. rewrite Hab. simpl. rewrite store_write_returns. simpl. rewrite Hab.
  reflexivity.
Qed.

Lemma fetchFirstPage_resume_rejected rq err now w :
  ApiUtils.aborted (controller rq) (controllers w) = false ->
  fetchFirstPage_resume rq (Rejected err) now w =
    (Ret tt,
     {| pages := pages w;
        loading := false;
        loadingMore := loadingMore w;
        error := Some (errorMessage err);
        hasMore := hasMore w;
        currentPageRef := currentPageRef w;
        retryCountRef := retryCountRef w + 1;
        controllers := ApiUtils.cleanupRequest (controller rq) (controllers w);
        store := store w;
        inFlight := inFlight w;
        issued := issued w;
        config := config w;
        effectDeps := effectDeps w;
        effectCleanup := effectCleanup w |}).
Proof.
  intros Hab. destruct w.
  unfold fetchFirstPage_resume, try_finally, try_catch, mbind, signalAborted in *.
  simpl in *. rewrite Hab. simpl. rewrite Hab. reflexivity.
Qed.

(** The effect, as a function of the world it finds. *)
Lemma initialLoadEffect_eq w :
  initialLoadEffect w =
    (Ret tt,
     if negb (enabled (config w)) || bool_decide (0 < length (pages w))%nat
        || (retryCountRef w >=? maxRetries)
     then
       {| pages := pages w; loading := loading w; loadingMore := loadingMore w;
          error := error w; hasMore := hasMore w; currentPageRef := currentPageRef w;
          retryCountRef := retryCountRef w;
          controllers := if effectCleanup w
                         then ApiUtils.abortCurrent (controllers w)
                         else controllers w;
          store := store w; inFlight := inFlight w; issued := issued w;
          config := config w;
          effectDeps := (config w, length (pages w));
          effectCleanup := false |}
     else
       let cs := if effectCleanup w
                 then ApiUtils.abortCurrent (controllers w)
                 else controllers w in
       let rq := {| controller := nextController cs;
                    requestedPage := 1; requestedLimit := limit (config w);
                    continuation := FetchFirstPage;
                    closure := config w |} in
       {| pages := pages w; loading := true; loadingMore := loadingMore w;
          error := None; hasMore := hasMore w; currentPageRef := currentPageRef w;
          retryCountRef := retryCountRef w;
          controllers := (ApiUtils.createRequestController cs).2;
          store := store w; inFlight := inFlight w ++ [rq]; issued := issued w ++ [rq];
          config := config w;
          effectDeps := (config w, length (pages w));
          effectCleanup := true |}).
Proof.
  destruct w. unfold initialLoadEffect, mbind, mget, mmodify. simpl.
  destruct effectCleanup0; simpl;
    destruct (enabled config0); simpl; try reflexivity;
    destruct (bool_decide (0 < length pages0)%nat); simpl; try reflexivity;
    destruct (retryCountRef0 >=? maxRetries); reflexivity.
Qed.

End InfiniteTransitions.

#[local] Ltac in_set :=
  rewrite ?elem_of_union, ?elem_of_singleton in *; auto; tauto.

Section Coordination.
Import ApiUtils.
Implicit Types (cs : Controllers).


Lemma aborted_false c cs : aborted c cs = false <-> c ∉ abortedSignals cs.
Proof. unfold aborted. apply bool_decide_eq_false. Qed.



Lemma cleanupRequest_aborted c c' cs :
  c ∈ abortedSignals (cleanupRequest c' cs) <-> c ∈ abortedSignals cs.
Proof. unfold cleanupRequest. case_decide; reflexivity. Qed.

Lemma cleanupRequest_next c cs :
  nextController (cleanupRequest c cs) = nextController cs.
Proof. unfold cleanupRequest. case_decide; reflexivity. Qed.

End Coordination.

Section CoordinationInvariant.
Context {D T : Type}.
Import InfiniteApi.
Implicit Types (cs : Controllers) (flying : list (@Request)).

(** [createRequestController] supersedes everything in flight. *)
Lemma start_supersedes cs flying old :
  coordinated cs flying ->
  old ∈ flying ->
  controller old ∈ abortedSignals (ApiUtils.createRequestController cs).2.
Proof.
  intros [_ Hcur _ _ _] Hold. unfold ApiUtils.createRequestController. simpl.
  destruct (Hcur old Hold) as [Hin|Href].
  - destruct (abortControllerRef cs); in_set.
  - rewrite Href. in_set.
Qed.

(** Starting a fetch: the previous controller is aborted, the new one is
    current, and everything in flight before is superseded. *)
Lemma coordinated_start cs flying rq :
  coordinated cs flying ->
  controller rq = nextController cs ->
  coordinated (ApiUtils.createRequestController cs).2 (flying ++ [rq])
  /\ (forall old, old ∈ flying ->
        controller old ∈ abortedSignals (ApiUtils.createRequestController cs).2)
  /\ abortControllerRef (ApiUtils.createRequestController cs).2 = Some (controller rq)
  /\ controller rq ∉ abortedSignals (ApiUtils.createRequestController cs).2.
Proof.
  intros Hco Hrq. pose proof Hco as [Hknown Hcur Hlive Hab Hnd].
  assert (forall old, old ∈ flying ->
            controller old ∈ abortedSignals (ApiUtils.createRequestController cs).2)
    as Hsup by (intros old Hold; by eapply start_supersedes).
  assert (nextController cs ∉ abortedSignals (ApiUtils.createRequestController cs).2)
    as Hfresh.
  { unfold ApiUtils.createRequestController. simpl.
    destruct (abortControllerRef cs) as [c|] eqn:Href.
    - destruct (Hlive c eq_refl) as [_ Hlt].
      intros [Hc| Hin]%elem_of_union.
      + apply elem_of_singleton in Hc. lia.
      + apply Hab in Hin. lia.
    - intros Hin. apply Hab in Hin. lia. }
  split; [|split; [assumption|split; [by rewrite Hrq|by rewrite Hrq]]].
  constructor.
  - intros r [Hr|Hr]%elem_of_app.
    + apply Hknown in Hr. simpl. lia.
    + apply list_elem_of_singleton in Hr as ->. rewrite Hrq. simpl. lia.
  - intros r [Hr|Hr]%elem_of_app.
    + left. by apply Hsup.
    + apply list_elem_of_singleton in Hr as ->. right. by rewrite Hrq.
  - simpl. intros c [= <-]. split; [assumption | lia].
  - intros c Hc. unfold ApiUtils.createRequestController in *. simpl in *.
    destruct (abortControllerRef cs) as [c'|] eqn:Href.
    + apply elem_of_union in Hc as [Hc|Hc].
      * apply elem_of_singleton in Hc as ->. destruct (Hlive c' eq_refl). lia.
      * apply Hab in Hc. lia.
    + apply Hab in Hc. lia.
  - rewrite fmap_app. simpl. apply NoDup_app. split; [assumption|].
    split; [|apply NoDup_singleton].
    intros c Hc Hc'. apply list_elem_of_singleton in Hc' as ->.
    apply list_elem_of_fmap in Hc as (r & Heq & Hr).
    apply Hknown in Hr. lia.
Qed.

Lemma coordinated_abortCurrent cs flying :
  coordinated cs flying ->
  coordinated (ApiUtils.abortCurrent cs) flying
  /\ (forall old, old ∈ flying -> controller old ∈ abortedSignals (ApiUtils.abortCurrent cs)).
Proof.
  intros Hco. pose proof Hco as [Hknown Hcur Hlive Hab Hnd].
  unfold ApiUtils.abortCurrent.
  destruct (abortControllerRef cs) as [c|] eqn:Href; simpl.
  - split.
    + constructor; simpl; try assumption.
      * intros r Hr. left. destruct (Hcur r Hr) as [Hin|Heq]; [in_set|].
        injection Heq as ->. in_set.
      * intros c' [=].
      * intros c' [Hc|Hc]%elem_of_union; [|by apply Hab].
        apply elem_of_singleton in Hc as ->. by destruct (Hlive c eq_refl).
    + intros r Hr. destruct (Hcur r Hr) as [Hin|Heq]; [in_set|].
      injection Heq as ->. in_set.
  - split; [exact Hco|].
    intros r Hr. destruct (Hcur r Hr) as [Hin|Heq]; [assumption|congruence].
Qed.

(** A request that settles leaves the coordinator coherent. *)
Lemma coordinated_settle cs flying c i rq :
  coordinated cs flying ->
  list_find (fun r => controller r = c) flying = Some (i, rq) ->
  coordinated (ApiUtils.cleanupRequest c cs) (base.delete i flying).
Proof.
  intros [Hknown Hcur Hlive Hab Hnd] Hfind.
  apply list_find_Some in Hfind as (Hi & Hc & _).
  assert (forall r, r ∈ base.delete i flying -> r ∈ flying /\ controller r <> c) as Hrest.
  { intros r Hr. split.
    - by eapply list_elem_of_delete_inv.
    - intros Heq. apply list_elem_of_lookup in Hr as [j Hj].
      assert (NoDup (controller <$> flying)) as Hnd' by assumption.
      rewrite NoDup_alt in Hnd'.
      destruct (decide (j < i)%nat) as [Hlt|Hge].
      + rewrite list_lookup_delete_lt in Hj by done.
        assert (i = j); [|lia].
        apply (Hnd' i j c); rewrite list_lookup_fmap; [by rewrite Hi; simpl; f_equal|].
        rewrite Hj. simpl. by f_equal.
      + rewrite list_lookup_delete_ge in Hj by lia.
        assert (i = S j); [|lia].
        apply (Hnd' i (S j) c); rewrite list_lookup_fmap; [by rewrite Hi; simpl; f_equal|].
        rewrite Hj. simpl. by f_equal. }
  constructor.
  - intros r Hr. rewrite cleanupRequest_next. apply Hknown, Hrest, Hr.
  - intros r Hr. destruct (Hrest r Hr) as [Hin Hne].
    destruct (Hcur r Hin) as [Hab'|Href].
    + left. by apply cleanupRequest_aborted.
    + right. unfold ApiUtils.cleanupRequest.
      rewrite decide_False; [assumption|]. rewrite Href. congruence.
  - intros c' Href. rewrite cleanupRequest_next, cleanupRequest_aborted.
    apply Hlive. unfold ApiUtils.cleanupRequest in Href.
    case_decide; [discriminate | assumption].
  - intros c' Hc'. rewrite cleanupRequest_next. apply Hab.
    by apply cleanupRequest_aborted in Hc'.
  - apply (sublist_NoDup _ (controller <$> flying)); [assumption|].
    apply fmap_sublist, sublist_delete.
Qed.

End CoordinationInvariant.

Section InfiniteInvariant.
Context {D T : Type}.
Import InfiniteApi.
Implicit Types (w : @World D T) (rq : @Request) (ev : @Event T).

Lemma commit_eq fetcherChanged w :
  commit fetcherChanged w =
    if fetcherChanged || bool_decide ((config w, length (pages w)) <> effectDeps w)
    then initialLoadEffect w
    else (Ret tt, w).
Proof.
  unfold commit, mbind, mget.
  destruct (fetcherChanged || bool_decide _); reflexivity.
Qed.

Lemma settle_eq c settled now w :
  settle c settled now w =
    match list_find (fun rq => controller rq = c) (inFlight w) with
    | Some (i, rq) => resume rq settled now (map_inFlight (base.delete i) w)
    | None => (Ret tt, w)
    end.
Proof.
  unfold settle, mbind, mget.
  destruct (list_find _ (inFlight w)) as [[i rq]|]; reflexivity.
Qed.

(** What a completion handler does to the parts the coordinator and the
    effect care about, whatever the request and the way it settled. *)
Lemma resume_frame rq settled now w :
  (resume rq settled now w).1 = Ret tt
  /\ controllers (resume rq settled now w).2
     = ApiUtils.cleanupRequest (controller rq) (controllers w)
  /\ inFlight (resume rq settled now w).2 = inFlight w
  /\ issued (resume rq settled now w).2 = issued w
  /\ config (resume rq settled now w).2 = config w
  /\ effectDeps (resume rq settled now w).2 = effectDeps w
  /\ effectCleanup (resume rq settled now w).2 = effectCleanup w
  /\ (pages (resume rq settled now w).2 = pages w
      \/ pages (resume rq settled now w).2 <> []).
Proof.
  unfold resume.
  destruct (ApiUtils.aborted (controller rq) (controllers w)) eqn:Hab.
  - destruct (continuation rq).
    + rewrite fetchPage_resume_aborted by done. destruct w. repeat split. by left.
    + rewrite fetchFirstPage_resume_aborted by done. destruct w. repeat split. by left.
  - destruct (continuation rq), settled.
    + rewrite fetchPage_resume_resolved by done. simpl. repeat split.
      right. destruct (_ && _); [done|]. by destruct (pages w).
    + rewrite fetchPage_resume_rejected by done. simpl. repeat split. by left.
    + rewrite fetchFirstPage_resume_resolved by done. simpl. repeat split. by right.
    + rewrite fetchFirstPage_resume_rejected by done. simpl. repeat split. by left.
Qed.

Lemma handle_returns ev w : (handle ev w).1 = Ret tt.
Proof.
  destruct ev as [| | |c settled now|cfg changed]; unfold handle.
  - rewrite loadMore_eq. destruct (_ || _); [done|]. by rewrite fetchPage_eq.
  - by rewrite refetch_eq, fetchPage_eq.
  - by rewrite invalidateCache_eq, refetch_eq, fetchPage_eq.
  - rewrite settle_eq. destruct (list_find _ _) as [[i rq]|]; [|done].
    apply resume_frame.
  - reflexivity.
Qed.

Lemma step_eq w ev :
  step w ev
  = (commit (match ev with Rerender _ changed => changed | _ => false end)
       (handle ev w).2).2.
Proof.
  unfold step, react, mbind. pose proof (handle_returns ev w) as Hret.
  destruct (handle ev w) as [r w1]. simpl in Hret. by subst r.
Qed.

Lemma handle_coordinated ev w :
  coordinated (controllers w) (inFlight w) ->
  coordinated (controllers (handle ev w).2) (inFlight (handle ev w).2).
Proof.
  intros Hco. destruct ev as [| | |c settled now|cfg changed]; unfold handle.
  - rewrite loadMore_eq. destruct (_ || _); [done|]. rewrite fetchPage_eq. simpl.
    by apply coordinated_start.
  - rewrite refetch_eq, fetchPage_eq. simpl. by apply coordinated_start.
  - rewrite invalidateCache_eq, refetch_eq, fetchPage_eq. simpl.
    by apply coordinated_start.
  - rewrite settle_eq. destruct (list_find _ _) as [[i rq]|] eqn:Hfind; [|done].
    destruct (resume_frame rq settled now (map_inFlight (base.delete i) w))
      as (_ & -> & -> & _).
    simpl. pose proof Hfind as (_ & <- & _)%list_find_Some.
    by eapply coordinated_settle.
  - assumption.
Qed.

Lemma handle_effect_frame ev w :
  effectDeps (handle ev w).2 = effectDeps w
  /\ effectCleanup (handle ev w).2 = effectCleanup w.
Proof.
  destruct ev as [| | |c settled now|cfg changed]; unfold handle.
  - rewrite loadMore_eq. destruct (_ || _); [done|]. by rewrite fetchPage_eq.
  - by rewrite refetch_eq, fetchPage_eq.
  - by rewrite invalidateCache_eq, refetch_eq, fetchPage_eq.
  - rewrite settle_eq. destruct (list_find _ _) as [[i rq]|]; [|done].
    destruct (resume_frame rq settled now (map_inFlight (base.delete i) w))
      as (_ & _ & _ & _ & _ & -> & -> & _).
    done.
  - done.
Qed.

Lemma initialLoadEffect_consistent w :
  coordinated (controllers w) (inFlight w) -> consistent (initialLoadEffect w).2.
Proof.
  intros Hco. rewrite initialLoadEffect_eq. cbv zeta.
  assert (coordinated
            (if effectCleanup w then ApiUtils.abortCurrent (controllers w)
             else controllers w) (inFlight w)) as Hco'.
  { destruct (effectCleanup w); [by apply coordinated_abortCurrent | done]. }
  simpl. destruct (_ || _) eqn:Hskip.
  - constructor; simpl; done.
  - apply orb_false_iff in Hskip as [[Hen Hlen]%orb_false_iff _].
    apply negb_false_iff in Hen. apply bool_decide_eq_false in Hlen.
    constructor; simpl; [done|by apply coordinated_start|].
    intros _. simpl. split; [done|lia].
Qed.

Lemma commit_consistent fetcherChanged w :
  coordinated (controllers w) (inFlight w) -> armed w ->
  consistent (commit fetcherChanged w).2.
Proof.
  intros Hco Harmed. rewrite commit_eq.
  destruct (fetcherChanged || bool_decide _) eqn:Hrun.
  - by apply initialLoadEffect_consistent.
  - apply orb_false_iff in Hrun as [_ Hdeps].
    apply bool_decide_eq_false in Hdeps.
    constructor; [|done..]. simpl.
    destruct (decide (effectDeps w = (config w, length (pages w)))); [done|].
    exfalso. apply Hdeps. congruence.
Qed.

Lemma step_consistent w ev : consistent w -> consistent (step w ev).
Proof.
  intros [_ Hco Harmed]. rewrite step_eq.
  apply commit_consistent; [by apply handle_coordinated|].
  unfold armed. by destruct (handle_effect_frame ev w) as [-> ->].
Qed.

(** A pending cleanup means the hook is enabled and holds no page. *)
Lemma consistent_armed w :
  consistent w -> effectCleanup w = true ->
  enabled (config w) = true /\ pages w = [].
Proof.
  intros [Hdeps _ Harmed] Hcl. destruct (Harmed Hcl) as [Hen Hlen].
  rewrite Hdeps in Hen, Hlen. simpl in *. split; [done|].
  by destruct (pages w).
Qed.

Lemma getInitialData_frame cfg now w :
  exists ps st',
    getInitialData cfg now w = (Ret ps, map_store (fun _ => st') w).
Proof.
  unfold getInitialData. destruct (enabled cfg); simpl.
  - unfold try_catch, mbind, liftStore, lift.
    destruct (persistentCache cfg).
    + rewrite get_eq.
      destruct (UniversalCacheManager.durable_entry _ _) as [e|].
      * destruct (now >? expiresAt e); [by eexists _, _|].
        destruct e; by eexists _, _.
      * destruct (memoryCache (store w) !! cacheKey cfg) as [[]|]; by eexists _, _.
    + unfold UniversalCacheManager.memory_get.
      destruct (memoryCache (store w) !! cacheKey cfg) as [[]|]; by eexists _, _.
  - exists [], (store w). by destruct w.
Qed.

Lemma firstRender_frame now w :
  (firstRender now w).1 = Ret tt
  /\ controllers (firstRender now w).2 = controllers w
  /\ inFlight (firstRender now w).2 = inFlight w
  /\ issued (firstRender now w).2 = issued w
  /\ config (firstRender now w).2 = config w.
Proof.
  unfold firstRender, mbind, mget, setPages, setHasMore, setCurrentPage, mmodify.
  repeat match goal with
         | |- context [getInitialData ?cfg ?n ?x] =>
             let ps := fresh "ps" in
             let st := fresh "st" in
             let H := fresh "H" in
             destruct (getInitialData_frame cfg n x) as (ps & st & H); rewrite H
         end.
  destruct w. repeat split.
Qed.

Lemma blank_coordinated cfg st :
  coordinated (controllers (blank cfg st)) (inFlight (blank (D:=D) (T:=T) cfg st)).
Proof.
  constructor; simpl.
  - intros rq Hrq. by apply elem_of_nil in Hrq.
  - intros rq Hrq. by apply elem_of_nil in Hrq.
  - intros c [=].
  - intros c Hc. by apply elem_of_empty in Hc.
  - constructor.
Qed.

Lemma mount_consistent cfg now st : consistent (mount (D:=D) (T:=T) cfg now st).
Proof.
  unfold mount, mbind.
  destruct (firstRender_frame now (blank cfg st)) as (Hret & Hcs & Hfl & _).
  destruct (firstRender now (blank cfg st)) as [r w1]. simpl in *. subst r.
  apply initialLoadEffect_consistent. rewrite Hcs, Hfl. apply (blank_coordinated cfg st).
Qed.

Lemma reachable_consistent w : reachable w -> consistent w.
Proof.
  induction 1 as [cfg now st|w ev _ IH];
    [apply mount_consistent | by apply step_consistent].
Qed.

End InfiniteInvariant.

Section InfiniteRaces.
Context {D T : Type}.
Import InfiniteApi.
Implicit Types (w : @World D T) (rq : @Request) (ev : @Event T).












(** In a consistent world the effect does not run unless a dependency
    changed. *)
Lemma commit_idle w w1 :
  consistent w ->
  config w1 = config w -> pages w1 = pages w -> effectDeps w1 = effectDeps w ->
  commit false w1 = (Ret tt, w1).
Proof.
  intros [Hdeps _ _] Hc Hp Hd. rewrite commit_eq. simpl.
  rewrite bool_decide_eq_false_2; [done|].
  rewrite Hc, Hp, Hd, Hdeps. by intros [].
Qed.





End InfiniteRaces.

Section InfiniteCurrent.
Context {D T : Type}.
Import InfiniteApi.
Implicit Types (w : @World D T) (rq : @Request) (ev : @Event T).

Lemma find_own (l : list Request) rq :
  NoDup (controller <$> l) -> rq ∈ l ->
  exists i, l !! i = Some rq
            /\ list_find (fun r => controller r = controller rq) l = Some (i, rq).
Proof.
  intros Hnd Hin.
  destruct (list_find_elem_of (fun r => controller r = controller rq) l rq Hin eq_refl)
    as [[i r] Hfind].
  pose proof Hfind as (Hi & Hc & _)%list_find_Some.
  apply list_elem_of_lookup in Hin as [k Hk].
  assert (i = k) as ->.
  { rewrite NoDup_alt in Hnd. apply (Hnd i k (controller rq)).
    - by rewrite list_lookup_fmap, Hi; simpl; f_equal.
    - by rewrite list_lookup_fmap, Hk. }
  exists k. rewrite Hfind. split; [done|]. congruence.
Qed.

(** The effect touches the loading flag, the error and the coordinator
    only. *)
Lemma commit_shared fetcherChanged w :
  pages (commit fetcherChanged w).2 = pages w
  /\ store (commit fetcherChanged w).2 = store w
  /\ hasMore (commit fetcherChanged w).2 = hasMore w
  /\ currentPageRef (commit fetcherChanged w).2 = currentPageRef w
  /\ retryCountRef (commit fetcherChanged w).2 = retryCountRef w
  /\ loadingMore (commit fetcherChanged w).2 = loadingMore w
  /\ config (commit fetcherChanged w).2 = config w.
Proof.
  rewrite commit_eq. destruct (_ || _); [|done].
  rewrite initialLoadEffect_eq. cbv zeta. cbn [snd].
  destruct (_ || _); done.
Qed.

(** With pages in hand or the retry ceiling reached, the effect issues
    nothing and leaves the flags alone. *)
Lemma commit_quiet fetcherChanged w :
  pages w <> [] \/ maxRetries <= retryCountRef w ->
  issued (commit fetcherChanged w).2 = issued w
  /\ loading (commit fetcherChanged w).2 = loading w
  /\ error (commit fetcherChanged w).2 = error w
  /\ inFlight (commit fetcherChanged w).2 = inFlight w.
Proof.
  intros Hq. rewrite commit_eq. destruct (fetcherChanged || _); [|done].
  rewrite initialLoadEffect_eq. cbv zeta. cbn [snd].
  assert (bool_decide (0 < length (pages w))%nat || (retryCountRef w >=? maxRetries)
          = true) as Hskip.
  { destruct Hq as [Hp|Hr].
    - rewrite bool_decide_eq_true_2; [done|]. destruct (pages w); [done|simpl; lia].
    - apply orb_true_iff. right. lia. }
  rewrite <- orb_assoc, Hskip, orb_true_r. done.
Qed.

Lemma step_settle_current rq settled now w :
  consistent w ->
  rq ∈ inFlight w ->
  abortControllerRef (controllers w) = Some (controller rq) ->
  ApiUtils.aborted (controller rq) (controllers w) = false
  /\ exists i,
       inFlight w !! i = Some rq
       /\ step w (Settle (controller rq) settled now)
          = (commit false (resume rq settled now (map_inFlight (base.delete i) w)).2).2.
Proof.
  intros [_ Hco _] Hin Href. split.
  - apply aborted_false. by destruct (current_live _ _ Hco _ Href).
  - destruct (find_own (inFlight w) rq (flying_distinct _ _ Hco) Hin) as (i & Hi & Hfind).
    exists i. split; [done|].
    rewrite step_eq. unfold handle. by rewrite settle_eq, Hfind.
Qed.

End InfiniteCurrent.

Section InfiniteRefetch.
Context {D T : Type}.
Import InfiniteApi.
Implicit Types (w : @World D T) (rq : @Request) (ev : @Event T).

(** [refetch()] followed by the render it causes.  When pages were held,
    [setPages([])] changes [pages.length], the effect runs again, and (if
    the hook is enabled) its [fetchFirstPage] supersedes the request that
    [refetch] has just started. *)
Lemma step_refetch_eq w :
  consistent w ->
  step w Refetch =
    let cs1 := (ApiUtils.createRequestController (controllers w)).2 in
    let rq1 := {| controller := nextController (controllers w);
                  requestedPage := 1; requestedLimit := limit (config w);
                  continuation := FetchPage 1 true true; closure := config w |} in
    let rq2 := {| controller := nextController cs1;
                  requestedPage := 1; requestedLimit := limit (config w);
                  continuation := FetchFirstPage; closure := config w |} in
    if bool_decide (pages w = []) then
      {| pages := []; loading := true; loadingMore := loadingMore w; error := None;
         hasMore := true; currentPageRef := 1; retryCountRef := 0;
         controllers := cs1; store := store w;
         inFlight := inFlight w ++ [rq1]; issued := issued w ++ [rq1];
         config := config w; effectDeps := effectDeps w;
         effectCleanup := effectCleanup w |}
    else if enabled (config w) then
      {| pages := []; loading := true; loadingMore := loadingMore w; error := None;
         hasMore := true; currentPageRef := 1; retryCountRef := 0;
         controllers := (ApiUtils.createRequestController cs1).2; store := store w;
         inFlight := (inFlight w ++ [rq1]) ++ [rq2];
         issued := (issued w ++ [rq1]) ++ [rq2];
         config := config w; effectDeps := (config w, 0%nat);
         effectCleanup := true |}
    else
      {| pages := []; loading := true; loadingMore := loadingMore w; error := None;
         hasMore := true; currentPageRef := 1; retryCountRef := 0;
         controllers := cs1; store := store w;
         inFlight := inFlight w ++ [rq1]; issued := issued w ++ [rq1];
         config := config w; effectDeps := (config w, 0%nat);
         effectCleanup := false |}.
Proof.
  intros Hw.
  pose proof (deps_synced w Hw) as Hdeps.
  pose proof (consistent_armed w Hw) as Harm. clear Hw.
  rewrite step_eq. unfold handle. rewrite refetch_eq, fetchPage_eq, commit_eq.
  rewrite initialLoadEffect_eq.
  destruct w as [ps ld lm er hm cp rc cs st fl iss cfg deps cl].
  cbv zeta. world_simpl. subst deps.
  destruct ps as [|p ps].
  - rewrite (bool_decide_eq_false_2 ((cfg, 0%nat) <> (cfg, 0%nat))) by (by intros []).
    rewrite (bool_decide_eq_true_2 ([] = [])) by done. reflexivity.
  - rewrite (bool_decide_eq_true_2 ((cfg, 0%nat) <> (cfg, length (p :: ps))))
      by discriminate.
    rewrite (bool_decide_eq_false_2 (p :: ps = [])) by discriminate.
    assert (cl = false) as ->.
    { destruct cl; [|done]. by destruct Harm. }
    rewrite (bool_decide_eq_false_2 (0 < 0)%nat) by lia.
    unfold maxRetries. change (0 >=? 3) with false.
    destruct (enabled cfg); reflexivity.
Qed.

End InfiniteRefetch.

Section InfiniteCompletion.
Context {D T : Type}.
Import InfiniteApi.
Implicit Types (w : @World D T) (rq : @Request) (ev : @Event T).

Lemma pagesAfter_nonempty k (prev : list (PaginatedResponse.t T)) result :
  pagesAfter k prev result <> [].
Proof.
  destruct k as [page sl ir|]; simpl; [|done].
  destruct (_ && _); [done|]. by destruct prev.
Qed.

(** A request that is still current succeeds. *)
Lemma step_settle_resolved w rq result now :
  consistent w ->
  rq ∈ inFlight w ->
  abortControllerRef (controllers w) = Some (controller rq) ->
  let w' := step w (Settle (controller rq) (Resolved result) now) in
  pages w' = pagesAfter (continuation rq) (pages w) result
  /\ store w'
     = cacheWrite (closure rq) (pagesAfter (continuation rq) (pages w) result) now
         (store w)
  /\ hasMore w' = PaginationMeta.hasMore (PaginatedResponse.pagination result)
  /\ currentPageRef w' = PaginationMeta.page (PaginatedResponse.pagination result)
  /\ retryCountRef w' = 0
  /\ error w' = None
  /\ loading w' = loadingAfter (continuation rq) (loading w)
  /\ loadingMore w' = loadingMoreAfter (continuation rq) (loadingMore w)
  /\ issued w' = issued w
  /\ config w' = config w.
Proof.
  intros Hw Hin Href. cbv zeta.
  destruct (step_settle_current rq (Resolved result) now w Hw Hin Href)
    as (Hab & i & Hi & ->).
  set (w1 := map_inFlight (base.delete i) w).
  assert (ApiUtils.aborted (controller rq) (controllers w1) = false) as Hab1 by exact Hab.
  set (w2 := (resume rq (Resolved result) now w1).2).
  assert (pages w2 = pagesAfter (continuation rq) (pages w) result
          /\ store w2 = cacheWrite (closure rq)
                          (pagesAfter (continuation rq) (pages w) result) now (store w)
          /\ hasMore w2 = PaginationMeta.hasMore (PaginatedResponse.pagination result)
          /\ currentPageRef w2
             = PaginationMeta.page (PaginatedResponse.pagination result)
          /\ retryCountRef w2 = 0
          /\ error w2 = None
          /\ loading w2 = loadingAfter (continuation rq) (loading w)
          /\ loadingMore w2 = loadingMoreAfter (continuation rq) (loadingMore w)
          /\ issued w2 = issued w
          /\ config w2 = config w) as (H1 & H2 & H3 & H4 & H5 & H6 & H7 & H8 & H9 & H10).
  { subst w2. unfold resume. destruct (continuation rq) as [page sl ir|].
    - rewrite (fetchPage_resume_resolved rq page sl ir result now w1 Hab1).
      subst w1. destruct w. repeat split.
    - rewrite (fetchFirstPage_resume_resolved rq result now w1 Hab1).
      subst w1. destruct w. repeat split. }
  destruct (commit_shared false w2) as (Hc1 & Hc2 & Hc3 & Hc4 & Hc5 & Hc6 & Hc7).
  destruct (commit_quiet false w2) as (Hq1 & Hq2 & Hq3 & _).
  { left. rewrite H1. apply pagesAfter_nonempty. }
  rewrite Hc1, Hc2, Hc3, Hc4, Hc5, Hc6, Hc7, Hq1, Hq2, Hq3.
  repeat split; assumption.
Qed.

(** A request that is still current fails. *)
Lemma step_settle_rejected w rq err now :
  consistent w ->
  rq ∈ inFlight w ->
  abortControllerRef (controllers w) = Some (controller rq) ->
  let w' := step w (Settle (controller rq) (Rejected err) now) in
  retryCountRef w' = retryCountRef w + 1
  /\ error w' = Some (errorMessage err)
  /\ pages w' = pages w
  /\ store w' = store w
  /\ hasMore w' = hasMore w
  /\ currentPageRef w' = currentPageRef w
  /\ loading w' = loadingAfter (continuation rq) (loading w)
  /\ loadingMore w' = loadingMoreAfter (continuation rq) (loadingMore w)
  /\ issued w' = issued w
  /\ config w' = config w.
Proof.
  intros Hw Hin Href. cbv zeta.
  destruct (step_settle_current rq (Rejected err) now w Hw Hin Href)
    as (Hab & i & Hi & ->).
  set (w1 := map_inFlight (base.delete i) w).
  assert (ApiUtils.aborted (controller rq) (controllers w1) = false) as Hab1 by exact Hab.
  set (w2 := (resume rq (Rejected err) now w1).2).
  assert (retryCountRef w2 = retryCountRef w + 1
          /\ error w2 = Some (errorMessage err)
          /\ pages w2 = pages w
          /\ store w2 = store w
          /\ hasMore w2 = hasMore w
          /\ currentPageRef w2 = currentPageRef w
          /\ loading w2 = loadingAfter (continuation rq) (loading w)
          /\ loadingMore w2 = loadingMoreAfter (continuation rq) (loadingMore w)
          /\ issued w2 = issued w
          /\ config w2 = config w
          /\ effectDeps w2 = effectDeps w)
    as (H1 & H2 & H3 & H4 & H5 & H6 & H7 & H8 & H9 & H10 & H11).
  { subst w2. unfold resume. destruct (continuation rq) as [page sl ir|].
    - rewrite (fetchPage_resume_rejected rq page sl ir err now w1 Hab1).
      subst w1. destruct w. repeat split.
    - rewrite (fetchFirstPage_resume_rejected rq err now w1 Hab1).
      subst w1. destruct w. repeat split. }
  rewrite (commit_idle w w2 Hw H10 H3 H11). cbn [snd].
  repeat split; assumption.
Qed.

End InfiniteCompletion.

(** ** Renders and the cache read they perform *)

Section InfiniteRenders.
Context {D T : Type}.
Import InfiniteApi.
Implicit Types (w : @World D T) (rq : @Request) (ev : @Event T)
  (st : Store D T) (cfg : Config).

Lemma getInitialData_store cfg now w :
  (getInitialData cfg now w).2 = map_store (renderedStore cfg now) w.
Proof.
  destruct w as [ps ld lm er hm cp rc cs st fl iss cfg0 deps cl].
  unfold getInitialData, renderedStore, cacheRead, map_store.
  cbn [pages loading loadingMore error hasMore currentPageRef retryCountRef
       controllers store inFlight issued config effectDeps effectCleanup].
  destruct (enabled cfg); cbn [negb]; [|reflexivity].
  unfold try_catch, mbind, liftStore, lift, map_store.
  cbn [pages loading loadingMore error hasMore currentPageRef retryCountRef
       controllers store inFlight issued config effectDeps effectCleanup].
  destruct (persistentCache cfg).
  - destruct (UniversalCacheManager.get (cacheKey cfg) now st) as [[[[]|]|] st'];
      reflexivity.
  - unfold UniversalCacheManager.memory_get.
    destruct (memoryCache st !! cacheKey cfg) as [[]|]; reflexivity.
Qed.

Lemma renderRead_eq now w :
  renderRead now w = (Ret tt, map_store (renderedStore (config w) now) w).
Proof.
  unfold renderRead, mbind, mget.
  pose proof (getInitialData_store (config w) now w) as Hst.
  destruct (getInitialData_frame (config w) now w) as (ps & st' & Heq).
  rewrite Heq in Hst |- *. cbn [snd] in Hst. by rewrite Hst.
Qed.

(** The effect neither reads nor writes the cache. *)
Lemma commit_map_store f fetcherChanged w :
  (commit fetcherChanged (map_store f w)).2 = map_store f (commit fetcherChanged w).2.
Proof.
  rewrite !commit_eq. destruct w. simpl.
  destruct (fetcherChanged || bool_decide _); [|reflexivity].
  rewrite !initialLoadEffect_eq. cbv zeta. simpl.
  destruct (_ || _); reflexivity.
Qed.

(** A step with its render is the step, followed by the render's read. *)
Lemma stepAt_eq w ev renderTime :
  stepAt w ev renderTime
  = map_store (renderedStore (config (step w ev)) renderTime) (step w ev).
Proof.
  rewrite step_eq. unfold stepAt, reactAt, mbind.
  pose proof (handle_returns ev w) as Hret.
  destruct (handle ev w) as [r w1]. cbn [fst snd] in *. subst r.
  rewrite renderRead_eq, commit_map_store.
  by destruct (commit_shared (match ev with Rerender _ changed => changed | _ => false end)
                 w1) as (_ & _ & _ & _ & _ & _ & ->).
Qed.

Lemma map_store_consistent f w : consistent w -> consistent (map_store f w).
Proof. intros [H1 H2 H3]. by destruct w. Qed.

Lemma stepAt_consistent w ev renderTime :
  consistent w -> consistent (stepAt w ev renderTime).
Proof.
  intros Hw. rewrite stepAt_eq. by apply map_store_consistent, step_consistent.
Qed.

Lemma reachableAt_consistent w : reachableAt w -> consistent w.
Proof.
  induction 1 as [cfg now st|w ev _ IH|w ev t _ IH];
    [apply mount_consistent | by apply step_consistent | by apply stepAt_consistent].
Qed.

Lemma reachable_reachableAt w : reachable w -> reachableAt w.
Proof. induction 1; by constructor. Qed.

(** *** The store under a render's read *)

Lemma renderedStore_flags cfg now st :
  unavailable (localStorage (renderedStore cfg now st)) = unavailable (localStorage st)
  /\ full (localStorage (renderedStore cfg now st)) = full (localStorage st).
Proof.
  unfold renderedStore, cacheRead. destruct (enabled cfg); [|done].
  destruct (persistentCache cfg); [|done].
  rewrite get_eq. destruct (UniversalCacheManager.durable_entry _ _) as [e|]; [|done].
  destruct (now >? expiresAt e); [|done].
  rewrite delete_eq. cbn [snd].
  destruct (unavailable (localStorage st)) eqn:Hu; simpl; by rewrite ?Hu.
Qed.

(** With nothing to find in the durable tier the read changes nothing. *)
Lemma renderedStore_idle cfg now st :
  persistentCache cfg = false
  \/ UniversalCacheManager.durable_entry st (cacheKey cfg) = None ->
  renderedStore cfg now st = st.
Proof.
  unfold renderedStore, cacheRead. destruct (enabled cfg); [|done].
  intros [-> | Hd]; [done|].
  destruct (persistentCache cfg); [|done]. by rewrite get_memory_path.
Qed.

Lemma writeThrough_rendered cfg now st :
  writeThrough cfg st -> writeThrough cfg (renderedStore cfg now st).
Proof.
  intros [Hp | [[Hu Hf] | Hd]].
  - by left.
  - right. left. destruct (renderedStore_flags cfg now st) as [-> ->]. done.
  - right. right. rewrite renderedStore_idle; [done | by right].
Qed.

(** Of two reads in a row under the same props the later one decides. *)
Lemma renderedStore_absorbs cfg now now' st :
  now <= now' ->
  renderedStore cfg now' (renderedStore cfg now st) = renderedStore cfg now' st.
Proof.
  intros Hle. unfold renderedStore, cacheRead. destruct (enabled cfg); [|done].
  destruct (persistentCache cfg); [|done].
  rewrite (get_eq (cacheKey cfg) now st).
  destruct (UniversalCacheManager.durable_entry st (cacheKey cfg)) as [e|] eqn:Hd.
  - destruct (now >? expiresAt e) eqn:Hexp; cbn [snd].
    + destruct (delete_absent (cacheKey cfg) st) as [Hm Hd'].
      rewrite get_memory_path by exact Hd'. cbn [snd].
      rewrite get_eq, Hd.
      assert (Hexp' : (now' >? expiresAt e) = true) by lia. by rewrite Hexp'.
    + rewrite !get_eq, durable_entry_with_memory, Hd.
      destruct (now' >? expiresAt e); cbn [snd].
      * rewrite !delete_eq. cbn [snd].
        unfold UniversalCacheManager.with_memory, UniversalCacheManager.with_items.
        cbn [memoryCache localStorage].
        destruct (unavailable (localStorage st)); by rewrite delete_insert_eq.
      * unfold UniversalCacheManager.with_memory. cbn [memoryCache localStorage].
        by rewrite insert_insert_eq.
  - cbn [snd]. reflexivity.
Qed.

(** A read does not change what a later read returns. *)
Lemma cacheRead_rendered cfg now later st :
  now <= later ->
  (cacheRead cfg later (renderedStore cfg now st)).1 = (cacheRead cfg later st).1.
Proof.
  intros Hle. unfold renderedStore. destruct (enabled cfg); [|done].
  unfold cacheRead. destruct (persistentCache cfg); [|done].
  rewrite (get_eq (cacheKey cfg) now st), (get_eq (cacheKey cfg) later st).
  destruct (UniversalCacheManager.durable_entry st (cacheKey cfg)) as [e|] eqn:Hd.
  - destruct (now >? expiresAt e) eqn:Hexp; cbn [snd].
    + destruct (delete_absent (cacheKey cfg) st) as [Hm Hd'].
      rewrite get_memory_path by exact Hd'. cbn [fst]. rewrite Hm.
      assert (Hexp' : (later >? expiresAt e) = true) by lia. by rewrite Hexp'.
    + rewrite get_eq, durable_entry_with_memory, Hd.
      by destruct (later >? expiresAt e).
  - cbn [snd]. by rewrite get_eq, Hd.
Qed.

(** The read is about one key: the others keep what they hold. *)
Lemma renderedStore_other cfg now st key :
  key <> cacheKey cfg ->
  memoryCache (renderedStore cfg now st) !! key = memoryCache st !! key
  /\ UniversalCacheManager.durable_entry (renderedStore cfg now st) key
     = UniversalCacheManager.durable_entry st key.
Proof.
  intros Hne. unfold renderedStore, cacheRead. destruct (enabled cfg); [|done].
  destruct (persistentCache cfg); [|done].
  rewrite get_eq.
  destruct (UniversalCacheManager.durable_entry st (cacheKey cfg)) as [e|]; [|done].
  destruct (now >? expiresAt e); cbn [snd].
  - destruct (delete_other key (cacheKey cfg) st Hne) as [Hm Hi].
    split; [exact Hm|].
    unfold UniversalCacheManager.durable_entry. rewrite Hi.
    assert (Hu : unavailable (localStorage (UniversalCacheManager.delete (cacheKey cfg) st).2)
                 = unavailable (localStorage st)).
    { rewrite delete_eq. cbn [snd].
      destruct (unavailable (localStorage st)) eqn:Hu; simpl; by rewrite ?Hu. }
    by rewrite Hu.
  - split; [|done]. unfold UniversalCacheManager.with_memory. cbn [memoryCache].
    by rewrite lookup_insert_ne.
Qed.

(** What was written is read back, at the render after the write and at
    any later time within the TTL. *)
Lemma cacheRead_after_write cfg ps now renderTime later st :
  writeThrough cfg st ->
  renderTime <= later -> later <= now + cacheTtl cfg ->
  let e := createInfiniteEntry ps (cacheTtl cfg) now in
  let st' := renderedStore cfg renderTime (cacheWrite cfg ps now st) in
  (cacheRead cfg later st').1 = Ret (Some e)
  /\ memoryCache st' !! cacheKey cfg = Some e.
Proof.
  intros Hwt Hle Httl e st'. subst st'.
  unfold renderedStore, cacheWrite, cacheRead. fold e.
  destruct (persistentCache cfg) eqn:Hp.
  - rewrite set_eq. cbn [snd].
    assert (Hexp : forall t, t <= later -> (t >? expiresAt e) = false).
    { intros t Ht. unfold e, createInfiniteEntry. cbn [expiresAt]. lia. }
    destruct (unavailable (localStorage st) || full (localStorage st)) eqn:Hflags.
    + assert (Hd : UniversalCacheManager.durable_entry st (cacheKey cfg) = None).
      { destruct Hwt as [?|[[Hu Hf]|?]]; [congruence| |done].
        by rewrite Hu, Hf in Hflags. }
      assert (Hsame : (if enabled cfg
                       then (UniversalCacheManager.get (cacheKey cfg) renderTime
                               (UniversalCacheManager.with_memory
                                  (insert (cacheKey cfg) e) st)).2
                       else UniversalCacheManager.with_memory
                              (insert (cacheKey cfg) e) st)
                      = UniversalCacheManager.with_memory (insert (cacheKey cfg) e) st).
      { destruct (enabled cfg); [|done].
        by rewrite get_memory_path by (by rewrite durable_entry_with_memory). }
      rewrite Hsame.
      rewrite get_memory_path by (by rewrite durable_entry_with_memory).
      cbn [fst memoryCache UniversalCacheManager.with_memory].
      by rewrite lookup_insert_eq.
    + apply orb_false_iff in Hflags as [Hu Hf].
      set (st1 := UniversalCacheManager.with_memory (insert (cacheKey cfg) e)
                    (UniversalCacheManager.with_items
                       (insert (UniversalCacheManager.CACHE_PREFIX +:+ cacheKey cfg)
                          (Json e)) st)).
      assert (Hd1 : UniversalCacheManager.durable_entry st1 (cacheKey cfg) = Some e).
      { unfold UniversalCacheManager.durable_entry, st1.
        cbn [localStorage UniversalCacheManager.with_memory
             UniversalCacheManager.with_items unavailable items].
        by rewrite Hu, lookup_insert_eq. }
      assert (Hsame : (if enabled cfg
                       then (UniversalCacheManager.get (cacheKey cfg) renderTime st1).2
                       else st1) = st1).
      { destruct (enabled cfg); [|done].
        rewrite get_eq, Hd1, (Hexp renderTime Hle). cbn [snd].
        unfold st1, UniversalCacheManager.with_memory. cbn [memoryCache localStorage].
        by rewrite insert_insert_eq. }
      rewrite Hsame, get_eq, Hd1, (Hexp later ltac:(lia)).
      split; [reflexivity|].
      unfold st1. cbn [memoryCache UniversalCacheManager.with_memory].
      by rewrite lookup_insert_eq.
  - unfold UniversalCacheManager.memory_set, UniversalCacheManager.memory_get.
    cbn [snd fst]. destruct (enabled cfg); cbn [snd fst memoryCache
      UniversalCacheManager.with_memory]; by rewrite lookup_insert_eq.
Qed.


(** *** Completions, with the render after them *)

Lemma stepAt_settle_resolved w rq result now renderTime :
  consistent w ->
  rq ∈ inFlight w ->
  abortControllerRef (controllers w) = Some (controller rq) ->
  let w' := stepAt w (Settle (controller rq) (Resolved result) now) renderTime in
  pages w' = pagesAfter (continuation rq) (pages w) result
  /\ store w'
     = renderedStore (config w) renderTime
         (cacheWrite (closure rq) (pagesAfter (continuation rq) (pages w) result) now
            (store w))
  /\ hasMore w' = PaginationMeta.hasMore (PaginatedResponse.pagination result)
  /\ currentPageRef w' = PaginationMeta.page (PaginatedResponse.pagination result)
  /\ retryCountRef w' = 0
  /\ error w' = None
  /\ loading w' = loadingAfter (continuation rq) (loading w)
  /\ loadingMore w' = loadingMoreAfter (continuation rq) (loadingMore w)
  /\ issued w' = issued w
  /\ config w' = config w.
Proof.
  intros Hw Hin Href. cbv zeta. rewrite stepAt_eq.
  destruct (step_settle_resolved w rq result now Hw Hin Href)
    as (H1 & H2 & H3 & H4 & H5 & H6 & H7 & H8 & H9 & H10).
  destruct (step w (Settle (controller rq) (Resolved result) now)).
  unfold map_store.
  cbn [pages loading loadingMore error hasMore currentPageRef retryCountRef
       controllers store inFlight issued config effectDeps effectCleanup] in *.
  subst. repeat split.
Qed.

Lemma stepAt_settle_rejected w rq err now renderTime :
  consistent w ->
  rq ∈ inFlight w ->
  abortControllerRef (controllers w) = Some (controller rq) ->
  let w' := stepAt w (Settle (controller rq) (Rejected err) now) renderTime in
  retryCountRef w' = retryCountRef w + 1
  /\ error w' = Some (errorMessage err)
  /\ pages w' = pages w
  /\ store w' = renderedStore (config w) renderTime (store w)
  /\ hasMore w' = hasMore w
  /\ currentPageRef w' = currentPageRef w
  /\ loading w' = loadingAfter (continuation rq) (loading w)
  /\ loadingMore w' = loadingMoreAfter (continuation rq) (loadingMore w)
  /\ issued w' = issued w
  /\ config w' = config w.
Proof.
  intros Hw Hin Href. cbv zeta. rewrite stepAt_eq.
  destruct (step_settle_rejected w rq err now Hw Hin Href)
    as (H1 & H2 & H3 & H4 & H5 & H6 & H7 & H8 & H9 & H10).
  destruct (step w (Settle (controller rq) (Rejected err) now)).
  unfold map_store.
  cbn [pages loading loadingMore error hasMore currentPageRef retryCountRef
       controllers store inFlight issued config effectDeps effectCleanup] in *.
  subst. repeat split.
Qed.

End InfiniteRenders.

Section InfiniteRefetchClaim.
Context {D T : Type}.
Import InfiniteApi.
Implicit Types (w : @World D T) (rq : @Request) (ev : @Event T).



End InfiniteRefetchClaim.

Section InfiniteRetryCeiling.
Context {D T : Type}.
Import InfiniteApi.
Implicit Types (w : @World D T) (rq : @Request) (ev : @Event T).

(** With the ceiling reached, a render whose dependencies changed does not
    fetch. *)
Lemma ceiling_blocks_automatic_fetch w cfg fetcherChanged :
  maxRetries <= retryCountRef w ->
  issued (step w (Rerender cfg fetcherChanged)) = issued w
  /\ retryCountRef (step w (Rerender cfg fetcherChanged)) = retryCountRef w.
Proof.
  intros Hmax. rewrite step_eq. unfold handle, mmodify. cbn [snd].
  destruct (commit_quiet fetcherChanged (map_config (fun _ => cfg) w)) as (-> & _).
  { right. by destruct w. }
  destruct (commit_shared fetcherChanged (map_config (fun _ => cfg) w))
    as (_ & _ & _ & _ & -> & _).
  by destruct w.
Qed.

Lemma filter_automatic_snoc (l : list Request) rq :
  automatic rq = false ->
  filter (fun r => automatic r = true) (l ++ [rq]) = filter (fun r => automatic r = true) l.
Proof.
  intros Hrq. rewrite filter_app, filter_cons_False by (by rewrite Hrq).
  by rewrite filter_nil, app_nil_r.
Qed.

(** As long as neither [refetch()] nor [invalidateCache()] is called, an
    instance that holds pages or has reached the ceiling stays that way,
    and [fetchFirstPage] is not called. *)
Lemma quiet_step w ev :
  pages w <> [] \/ maxRetries <= retryCountRef w ->
  manualReset ev = false ->
  (pages (step w ev) <> [] \/ maxRetries <= retryCountRef (step w ev))
  /\ filter (fun r => automatic r = true) (issued (step w ev))
     = filter (fun r => automatic r = true) (issued w).
Proof.
  intros Hq Hev. rewrite step_eq.
  set (changed := match ev with Rerender _ c => c | _ => false end).
  assert ((pages (handle ev w).2 <> [] \/ maxRetries <= retryCountRef (handle ev w).2)
          /\ filter (fun r => automatic r = true) (issued (handle ev w).2)
             = filter (fun r => automatic r = true) (issued w)) as [Hq1 Hiss1].
  { destruct ev as [| | |c settled now|cfg c]; try discriminate; unfold handle.
    - rewrite loadMore_eq. destruct (_ || _); [done|].
      rewrite fetchPage_eq. cbv zeta. cbn [snd pages retryCountRef issued].
      split; [done|]. by apply filter_automatic_snoc.
    - rewrite settle_eq. destruct (list_find _ _) as [[i rq]|]; [|done].
      set (w1 := map_inFlight (base.delete i) w).
      assert (pages w1 <> [] \/ maxRetries <= retryCountRef w1) as Hq' by (by destruct w).
      assert (issued w1 = issued w) as <- by (by destruct w).
      clearbody w1. clear Hq. unfold resume.
      destruct (ApiUtils.aborted (controller rq) (controllers w1)) eqn:Hab.
      + destruct (continuation rq).
        * rewrite fetchPage_resume_aborted by done. by destruct w1.
        * rewrite fetchFirstPage_resume_aborted by done. by destruct w1.
      + destruct (continuation rq) as [page sl ir|], settled as [result|err].
        * rewrite fetchPage_resume_resolved by done. cbv zeta.
          cbn [snd pages retryCountRef issued]. split; [left|done].
          apply (pagesAfter_nonempty (FetchPage page sl ir)).
        * rewrite fetchPage_resume_rejected by done.
          cbn [snd pages retryCountRef issued]. split; [|done].
          destruct Hq'; [by left | right; lia].
        * rewrite fetchFirstPage_resume_resolved by done.
          cbn [snd pages retryCountRef issued]. split; [by left|done].
        * rewrite fetchFirstPage_resume_rejected by done.
          cbn [snd pages retryCountRef issued]. split; [|done].
          destruct Hq'; [by left | right; lia].
    - unfold mmodify. by destruct w. }
  destruct (commit_shared changed (handle ev w).2) as (-> & _ & _ & _ & -> & _).
  destruct (commit_quiet changed (handle ev w).2 Hq1) as (-> & _).
  done.
Qed.

Lemma quiet_steps evs : forall w,
  pages w <> [] \/ maxRetries <= retryCountRef w ->
  forallb (fun ev => negb (manualReset ev)) evs = true ->
  filter (fun r => automatic r = true) (issued (steps w evs))
  = filter (fun r => automatic r = true) (issued w).
Proof.
  induction evs as [|ev evs IH]; intros w Hq Hevs; [done|].
  simpl in Hevs. apply andb_true_iff in Hevs as [Hev Hevs].
  apply negb_true_iff in Hev.
  destruct (quiet_step w ev Hq Hev) as [Hq' Hiss].
  simpl. rewrite IH by done. exact Hiss.
Qed.

(** [invalidateCache()] is [refetch()] on the store without the entry. *)
Lemma step_invalidateCache_eq w :
  step w InvalidateCache
  = step (map_store
            (fun st =>
               ((if persistentCache (config w)
                 then UniversalCacheManager.delete (cacheKey (config w))
                 else UniversalCacheManager.memory_delete (cacheKey (config w))) st).2)
            w) Refetch.
Proof. rewrite !step_eq. unfold handle. by rewrite invalidateCache_eq. Qed.

(** Both manual resets put the counter back to zero; when no page is
    held, exactly one request goes out. *)
Lemma manual_reset_restarts w ev :
  consistent w ->
  manualReset ev = true ->
  retryCountRef (step w ev) = 0
  /\ (pages w = [] ->
      exists rq, issued (step w ev) = issued w ++ [rq]
                 /\ requestedPage rq = 1
                 /\ abortControllerRef (controllers (step w ev)) = Some (controller rq)).
Proof.
  intros Hw Hev.
  assert (forall v : @World D T, consistent v ->
            retryCountRef (step v Refetch) = 0
            /\ (pages v = [] ->
                exists rq, issued (step v Refetch) = issued v ++ [rq]
                           /\ requestedPage rq = 1
                           /\ abortControllerRef (controllers (step v Refetch))
                              = Some (controller rq))) as Hrefetch.
  { intros v Hv. rewrite (step_refetch_eq v Hv). cbv zeta. split.
    - destruct (bool_decide _); [|destruct (enabled _)]; reflexivity.
    - intros Hp. rewrite (bool_decide_eq_true_2 _ Hp). eexists. repeat split. }
  destruct ev; try discriminate.
  - by apply Hrefetch.
  - rewrite step_invalidateCache_eq.
    destruct (Hrefetch (map_store
               (fun st =>
                  ((if persistentCache (config w)
                    then UniversalCacheManager.delete (cacheKey (config w))
                    else UniversalCacheManager.memory_delete (cacheKey (config w))) st).2)
               w)) as [H0 H1]; [by apply map_store_consistent|].
    split; [exact H0|]. intros Hp. destruct H1 as (rq & H1); [by destruct w|].
    exists rq. by destruct w.
Qed.

(** When pages are held and the hook is enabled, [refetch()] makes two
    requests go out: its own, and the one of the effect that runs because
    [pages.length] changed and that supersedes the first. *)
Lemma refetch_with_pages_issues_twice w :
  consistent w ->
  pages w <> [] ->
  enabled (config w) = true ->
  exists rq1 rq2,
    issued (step w Refetch) = (issued w ++ [rq1]) ++ [rq2]
    /\ continuation rq1 = FetchPage 1 true true
    /\ continuation rq2 = FetchFirstPage
    /\ requestedPage rq1 = 1 /\ requestedPage rq2 = 1
    /\ controller rq1 ∈ abortedSignals (controllers (step w Refetch))
    /\ abortControllerRef (controllers (step w Refetch)) = Some (controller rq2).
Proof.
  intros Hw Hp Hen. rewrite (step_refetch_eq w Hw). cbv zeta.
  rewrite (bool_decide_eq_false_2 _ Hp), Hen.
  eexists _, _. cbn [issued controllers]. repeat split.
  unfold ApiUtils.createRequestController.
  cbn [snd abortControllerRef abortedSignals nextController controller].
  apply elem_of_union. left. by apply elem_of_singleton.
Qed.

End InfiniteRetryCeiling.

Section ExampleInstances.
Import InfiniteApi.

Lemma respond_reachable fetch userId now (w : @World unit Post.t) :
  reachable w -> reachable (InfinitePosts.respond fetch userId now w).
Proof.
  intros Hw. unfold InfinitePosts.respond.
  destruct (last (inFlight w)); [by constructor | done].
Qed.



End ExampleInstances.

(** C5 at the failing input.  The instance holds page 1 and three
    [loadMore()] calls have failed, so the retry counter is 3 and a render
    with changed dependencies fetches nothing.  [refetch()] resets the counter
    to zero, but two requests for page 1 go out, not one: the call of
    [fetchPage(1, true, true)], and then [fetchFirstPage] of the initial-load
    effect, which runs again because [setPages([])] changed [pages.length]
    and which aborts the first request. *)
Theorem refetch_after_ceiling_issues_two_requests :
  let w := Examples.afterThreeFailures in
  InfiniteApi.retryCountRef w = 3
  /\ length (InfiniteApi.pages w) = 1%nat
  /\ length (InfiniteApi.issued w) = 4%nat
  /\ InfiniteApi.issued
       (InfiniteApi.step w (InfiniteApi.Rerender (InfiniteApi.config w) true))
     = InfiniteApi.issued w
  /\ InfiniteApi.retryCountRef (InfiniteApi.step w InfiniteApi.Refetch) = 0
  /\ (fun rq => (InfiniteApi.controller rq, InfiniteApi.requestedPage rq,
                 InfiniteApi.continuation rq))
       <$> drop 4 (InfiniteApi.issued (InfiniteApi.step w InfiniteApi.Refetch))
     = [(4%nat, 1, InfiniteApi.FetchPage 1 true true);
        (5%nat, 1, InfiniteApi.FetchFirstPage)]
  /\ ApiUtils.aborted 4 (InfiniteApi.controllers (InfiniteApi.step w InfiniteApi.Refetch))
     = true
  /\ abortControllerRef (InfiniteApi.controllers (InfiniteApi.step w InfiniteApi.Refetch))
     = Some 5%nat.
Proof. vm_compute. repeat split. Qed.



(** ** Pagination accumulation *)

Section InfiniteRounds.
Context {D T : Type}.
Import InfiniteApi.
Implicit Types (w : @World D T) (rq : @Request) (ev : @Event T) (st : Store D T).
Implicit Types (result : PaginatedResponse.t T).

Lemma getInitialData_absent cfg now w :
  absent (cacheKey cfg) (store w) ->
  getInitialData cfg now w = (Ret [], w).
Proof.
  intros [Hm Hd]. unfold getInitialData. destruct (enabled cfg); [|done]. simpl.
  unfold try_catch, mbind, liftStore, lift.
  destruct (persistentCache cfg).
  - rewrite get_eq, Hd, Hm. by destruct w.
  - unfold UniversalCacheManager.memory_get. rewrite Hm. by destruct w.
Qed.

(** Mounting over a cache without an entry for the key: no page, and the
    effect asks for page 1. *)
Lemma mount_without_cache cfg now st :
  enabled cfg = true ->
  absent (cacheKey cfg) st ->
  mount cfg now st =
    let rq := {| controller := 0; requestedPage := 1; requestedLimit := limit cfg;
                 continuation := FetchFirstPage; closure := cfg |} in
    {| pages := []; loading := true; loadingMore := false; error := None;
       hasMore := true; currentPageRef := 1; retryCountRef := 0;
       controllers := {| abortControllerRef := Some 0%nat; abortedSignals := ∅;
                         nextController := 1 |};
       store := st; inFlight := [rq]; issued := [rq];
       config := cfg; effectDeps := (cfg, 0%nat); effectCleanup := true |}.
Proof.
  intros Hen Habs. unfold mount, mbind.
  assert (firstRender now (blank cfg st) = (Ret tt, blank cfg st)) as ->.
  { unfold firstRender, mbind, mget, setPages, setHasMore, setCurrentPage, mmodify.
    cbn [config blank].
    rewrite (getInitialData_absent cfg now (blank cfg st)) by exact Habs.
    change (map_pages (fun _ => []) (blank cfg st)) with (blank cfg st).
    rewrite (getInitialData_absent cfg now (blank cfg st)) by exact Habs.
    cbn [last].
    change (map_hasMore (fun _ => true) (blank cfg st)) with (blank cfg st).
    rewrite (getInitialData_absent cfg now (blank cfg st)) by exact Habs.
    reflexivity. }
  rewrite initialLoadEffect_eq. unfold blank. cbv zeta. world_simpl.
  rewrite Hen. unfold maxRetries. change (0 >=? 3) with false.
  rewrite (bool_decide_eq_false_2 (0 < 0)%nat) by lia. reflexivity.
Qed.

(** [loadMore()] when nothing is loading and more pages exist. *)
Lemma step_loadMore_fires w :
  consistent w ->
  hasMore w = true -> loading w = false -> loadingMore w = false ->
  step w LoadMore = (fetchPage (currentPageRef w + 1) true false w).2.
Proof.
  intros Hw Hh Hl Hm. rewrite step_eq. unfold handle.
  rewrite loadMore_eq, Hh, Hl, Hm. cbn [negb orb].
  rewrite fetchPage_eq. cbv zeta. cbn [snd].
  erewrite (commit_idle w); [reflexivity|exact Hw|reflexivity..].
Qed.

(** ... and when it is a no-op. *)
Lemma step_loadMore_noop w :
  consistent w ->
  hasMore w = false \/ loadingMore w = true \/ loading w = true ->
  step w LoadMore = w.
Proof.
  intros Hw Hguard. rewrite step_eq. unfold handle. rewrite loadMore_eq.
  assert (negb (hasMore w) || loadingMore w || loading w = true) as ->.
  { destruct Hguard as [-> | [-> | ->]]; [done| |]; by rewrite ?orb_true_r. }
  cbn [snd]. by rewrite (commit_idle w w Hw).
Qed.

(** One successful round of [loadMore()]. *)
Lemma loadMore_round w result now :
  consistent w ->
  hasMore w = true -> loading w = false -> loadingMore w = false ->
  exists rq,
    last (inFlight (step w LoadMore)) = Some rq
    /\ requestedPage rq = currentPageRef w + 1
    /\ requestedLimit rq = limit (config w)
    /\ issued (step w LoadMore) = issued w ++ [rq]
    /\ let w' := step (step w LoadMore) (Settle (controller rq) (Resolved result) now) in
       consistent w'
       /\ config w' = config w
       /\ pages w' = pages w ++ [result]
       /\ hasMore w' = PaginationMeta.hasMore (PaginatedResponse.pagination result)
       /\ currentPageRef w'
          = PaginationMeta.page (PaginatedResponse.pagination result)
       /\ loading w' = false /\ loadingMore w' = false /\ error w' = None
       /\ issued w' = issued w ++ [rq].
Proof.
  intros Hw Hh Hl Hm.
  pose proof (step_consistent w LoadMore Hw) as Hw1.
  rewrite (step_loadMore_fires w Hw Hh Hl Hm) in *. rewrite fetchPage_eq in *.
  cbv zeta in *. cbn [snd] in *.
  match goal with |- context [step ?x] => set (w1 := x) in * end.
  eexists. split; [cbn [inFlight w1]; apply last_snoc|].
  do 3 (split; [reflexivity|]).
  cbv zeta.
  match goal with |- context [Settle (controller ?r)] => set (rq := r) in * end.
  assert (rq ∈ inFlight w1) as Hin.
  { cbn [inFlight w1]. apply elem_of_app. right. by apply list_elem_of_singleton. }
  assert (abortControllerRef (controllers w1) = Some (controller rq)) as Href
    by reflexivity.
  destruct (step_settle_resolved w1 rq result now Hw1 Hin Href)
    as (H1 & _ & H3 & H4 & _ & H6 & H7 & H8 & H9 & H10).
  split; [by apply step_consistent|].
  rewrite H1, H3, H4, H6, H7, H8, H9, H10.
  subst rq w1.
  cbn [pagesAfter loadingAfter loadingMoreAfter continuation pages config issued].
  split; [reflexivity|]. split; [|by repeat split].
  cbn [orb].
  destruct (bool_decide (length (pages w) = 0%nat)) eqn:Hlen;
    [|by rewrite andb_false_r].
  apply bool_decide_eq_true in Hlen. destruct (pages w); [|done].
  by destruct (_ =? 1).
Qed.

(** The initial load, answered with a page. *)
Lemma initial_round cfg now st result now' :
  enabled cfg = true ->
  absent (cacheKey cfg) st ->
  let w0 := mount cfg now st in
  let rq := {| controller := 0; requestedPage := 1; requestedLimit := limit cfg;
               continuation := FetchFirstPage; closure := cfg |} in
  last (inFlight w0) = Some rq
  /\ let w' := step w0 (Settle 0 (Resolved result) now') in
     consistent w'
     /\ config w' = cfg
     /\ pages w' = [result]
     /\ hasMore w' = PaginationMeta.hasMore (PaginatedResponse.pagination result)
     /\ currentPageRef w' = PaginationMeta.page (PaginatedResponse.pagination result)
     /\ loading w' = false /\ loadingMore w' = false /\ error w' = None
     /\ issued w' = [rq].
Proof.
  intros Hen Habs. cbv zeta.
  pose proof (mount_consistent (D:=D) (T:=T) cfg now st) as Hw0.
  rewrite (mount_without_cache cfg now st Hen Habs) in *. cbv zeta in *.
  match goal with |- context [step ?x] => set (w0 := x) in * end.
  split; [reflexivity|].
  match goal with |- context [issued _ = [?r]] => set (rq := r) in * end.
  assert (rq ∈ inFlight w0) as Hin by (by apply list_elem_of_singleton).
  assert (abortControllerRef (controllers w0) = Some (controller rq)) as Href
    by reflexivity.
  destruct (step_settle_resolved w0 rq result now' Hw0 Hin Href)
    as (H1 & _ & H3 & H4 & _ & H6 & H7 & H8 & H9 & H10).
  change (controller rq) with 0%nat in *.
  split; [by apply step_consistent|].
  rewrite H1, H3, H4, H6, H7, H8, H9, H10. by repeat split.
Qed.

End InfiniteRounds.

(** ** Ordering under races *)

Section InfiniteOrdering.
Context {D T : Type}.
Import InfiniteApi.
Implicit Types (w : @World D T) (rq : @Request) (ev : @Event T).





End InfiniteOrdering.


Section PostsPagination.
Import InfiniteApi.
Context {D : Type}.
Implicit Types (w : @World D Post.t) (items : list Post.t).

Lemma first_invalid_accepted posts : forall index,
  Forall PostsApi.accepted posts -> PostsApi.first_invalid index posts = None.
Proof.
  induction posts as [|post rest IH]; intros index Hall; [reflexivity|].
  apply Forall_cons in Hall as [Hpost Hrest]. simpl.
  apply invalid_post_false in Hpost. rewrite Hpost. by apply IH.
Qed.

(** A well-formed response is passed on with the metadata derived from
    the total-count header. *)
Lemma fetchPaginatedPosts_passes fetch params timeout response posts :
  fetch (PostsApi.queryParams params) = PostsApi.FetchResolves response ->
  PostsApi.ok response = true ->
  PostsApi.json response = PostsApi.BodyArray posts ->
  Forall PostsApi.accepted posts ->
  PostsApi.fetchPaginatedPosts fetch params timeout
  = inl {| PaginatedResponse.data := posts;
           PaginatedResponse.pagination :=
             paginationFor (PostsApi.x_total_count response) params |}.
Proof.
  intros Hfetch Hok Hjson Hall.
  unfold PostsApi.fetchPaginatedPosts. rewrite Hfetch, Hok, Hjson.
  cbn [negb]. cbv iota. unfold PostsApi.validate.
  rewrite (first_invalid_accepted posts 0%nat Hall). reflexivity.
Qed.

Lemma slice_accepted items n size :
  Forall PostsApi.accepted items -> Forall PostsApi.accepted (RemoteApi.slice items n size).
Proof. intros Hall. unfold RemoteApi.slice. by apply Forall_take, Forall_drop. Qed.

(** What the hook's fetcher obtains from a server holding twenty-five
    well-formed posts, for pages 1 to 3 of size 10. *)
Lemma postsFetcher_pageOf25 items n :
  length items = 25%nat ->
  Forall PostsApi.accepted items ->
  n = 1 \/ n = 2 \/ n = 3 ->
  InfinitePosts.postsFetcher (RemoteApi.pagedServer items) None n 10
  = Resolved (pageOf25 items n).
Proof.
  intros Hlen Hall Hn. unfold InfinitePosts.postsFetcher. cbv zeta.
  match goal with
  | |- context [PostsApi.fetchPaginatedPosts ?f ?p ?t] =>
      rewrite (fetchPaginatedPosts_passes f p t _ _ eq_refl eq_refl eq_refl
                 (slice_accepted items _ _ Hall))
  end.
  cbn [PostsApi.x_total_count]. rewrite Hlen. f_equal. unfold pageOf25.
  destruct Hn as [-> | [-> | ->]];
    match goal with
    | |- context [RemoteApi.param "_page" ?q] =>
        match goal with
        | |- {| PaginatedResponse.data := _; PaginatedResponse.pagination := ?m |}
             = {| PaginatedResponse.data := RemoteApi.slice _ ?n _;
                  PaginatedResponse.pagination := ?m' |} =>
            replace (RemoteApi.param "_page" q) with (Some n)
              by (vm_compute; reflexivity);
            replace (RemoteApi.param "_limit" q) with (Some 10)
              by (vm_compute; reflexivity);
            replace m with m' by (vm_compute; reflexivity)
        end
    end; reflexivity.
Qed.

Lemma respond_eq fetch userId now w rq :
  last (inFlight w) = Some rq ->
  InfinitePosts.respond fetch userId now w
  = step w (Settle (controller rq)
              (InfinitePosts.postsFetcher fetch userId
                 (requestedPage rq) (requestedLimit rq)) now).
Proof. intros Hlast. unfold InfinitePosts.respond. by rewrite Hlast. Qed.

Lemma slices_of_25 items :
  length items = 25%nat ->
  RemoteApi.slice items 1 10 = take 10 items
  /\ RemoteApi.slice items 2 10 = take 10 (drop 10 items)
  /\ RemoteApi.slice items 3 10 = drop 20 items
  /\ (take 10 items ++ take 10 (drop 10 items)) ++ drop 20 items = items.
Proof.
  intros Hlen. unfold RemoteApi.slice.
  change (Z.to_nat 10) with 10%nat.
  change (Z.to_nat ((1 - 1) * 10)) with 0%nat.
  change (Z.to_nat ((2 - 1) * 10)) with 10%nat.
  change (Z.to_nat ((3 - 1) * 10)) with 20%nat.
  repeat split.
  - apply take_ge. rewrite length_drop. lia.
  - rewrite <- (take_drop 10 items) at 4. rewrite <- app_assoc. f_equal.
    rewrite <- (take_drop 10 (drop 10 items)) at 2. f_equal.
    by rewrite drop_drop.
Qed.

(** C3.  Start with no cached page for the key, a page size of 10 and a
    server holding 25 posts.  The initial load and two [loadMore()] calls,
    each answered by the server, leave the pages 1, 2 and 3 in this order,
    with 10, 10 and 5 items and [hasMore] true, true and false; the
    flattened list is the concatenation of their items, which is the
    server's list of 25; and one more [loadMore()] changes nothing and sends
    no request. *)
Theorem pagination_accumulation items (st : Store D Post.t) now0 now1 now2 now3 :
  length items = 25%nat ->
  Forall PostsApi.accepted items ->
  absent (InfinitePosts.cacheKey 10 None) st ->
  let server := RemoteApi.pagedServer items in
  let w0 := mount (InfinitePosts.config 10 true None) now0 st in
  let w1 := InfinitePosts.respond server None now1 w0 in
  let w2 := InfinitePosts.respond server None now2 (step w1 LoadMore) in
  let w3 := InfinitePosts.respond server None now3 (step w2 LoadMore) in
  pages w0 = []
  /\ pages w3 = [pageOf25 items 1; pageOf25 items 2; pageOf25 items 3]
  /\ (fun p => (PaginationMeta.page (PaginatedResponse.pagination p),
                length (PaginatedResponse.data p),
                PaginationMeta.hasMore (PaginatedResponse.pagination p)))
       <$> pages w3
     = [(1, 10%nat, true); (2, 10%nat, true); (3, 5%nat, false)]
  /\ flatData w3
     = (PaginatedResponse.data (pageOf25 items 1)
        ++ PaginatedResponse.data (pageOf25 items 2))
       ++ PaginatedResponse.data (pageOf25 items 3)
  /\ flatData w3 = items
  /\ length (flatData w3) = 25%nat
  /\ length (issued w3) = 3%nat
  /\ step w3 LoadMore = w3
  /\ issued (step w3 LoadMore) = issued w3.
Proof.
  intros Hlen Hall Habs. cbv zeta.
  set (cfg := InfinitePosts.config 10 true None).
  (* the initial load *)
  destruct (initial_round cfg now0 st (pageOf25 items 1) now1 eq_refl Habs)
    as (Hlast0 & Hw1 & Hcfg1 & Hp1 & Hh1 & Hc1 & Hl1 & Hm1 & _ & Hi1).
  assert (pages (mount cfg now0 st) = []) as Hp0
    by (by rewrite (mount_without_cache cfg now0 st eq_refl Habs)).
  rewrite (respond_eq (RemoteApi.pagedServer items) None now1 _ _ Hlast0).
  cbn [controller requestedPage requestedLimit].
  change (limit cfg) with 10.
  rewrite (postsFetcher_pageOf25 items 1 Hlen Hall) by auto.
  set (w1 := step (mount cfg now0 st) _) in *.
  (* the first loadMore *)
  destruct (loadMore_round w1 (pageOf25 items 2) now2 Hw1 Hh1 Hl1 Hm1)
    as (rq2 & Hlast1 & Hpage2 & Hlim2 & _ & Hw2 & Hcfg2 & Hp2 & Hh2 & Hc2 & Hl2 & Hm2 & _ & Hi2).
  rewrite (respond_eq (RemoteApi.pagedServer items) None now2 _ _ Hlast1), Hpage2, Hlim2, Hc1, Hcfg1.
  change (limit cfg) with 10.
  change (PaginationMeta.page (PaginatedResponse.pagination (pageOf25 items 1)) + 1)
    with 2.
  rewrite (postsFetcher_pageOf25 items 2 Hlen Hall) by auto.
  set (w2 := step (step w1 LoadMore) _) in *.
  (* the second loadMore *)
  destruct (loadMore_round w2 (pageOf25 items 3) now3 Hw2 Hh2 Hl2 Hm2)
    as (rq3 & Hlast2 & Hpage3 & Hlim3 & _ & Hw3 & Hcfg3 & Hp3 & Hh3 & Hc3 & Hl3 & Hm3 & _ & Hi3).
  rewrite (respond_eq (RemoteApi.pagedServer items) None now3 _ _ Hlast2), Hpage3, Hlim3, Hc2, Hcfg2, Hcfg1.
  change (limit cfg) with 10.
  change (PaginationMeta.page (PaginatedResponse.pagination (pageOf25 items 2)) + 1)
    with 3.
  rewrite (postsFetcher_pageOf25 items 3 Hlen Hall) by auto.
  set (w3 := step (step w2 LoadMore) _) in *.
  assert (pages w3 = [pageOf25 items 1; pageOf25 items 2; pageOf25 items 3]) as Hpages
    by (by rewrite Hp3, Hp2, Hp1).
  destruct (slices_of_25 items Hlen) as (Hs1 & Hs2 & Hs3 & Hcat).
  assert (flatData w3
          = (PaginatedResponse.data (pageOf25 items 1)
             ++ PaginatedResponse.data (pageOf25 items 2))
            ++ PaginatedResponse.data (pageOf25 items 3)) as Hflat
    by (unfold flatData; by rewrite Hpages).
  assert (flatData w3 = items) as Hitems.
  { rewrite Hflat. cbn [pageOf25 PaginatedResponse.data]. by rewrite Hs1, Hs2, Hs3. }
  assert (step w3 LoadMore = w3) as Hnoop.
  { apply step_loadMore_noop; [exact Hw3|]. left. by rewrite Hh3. }
  split; [exact Hp0|]. split; [exact Hpages|]. split.
  - rewrite Hpages. cbn [fmap list_fmap pageOf25 PaginatedResponse.data
                           PaginatedResponse.pagination PaginationMeta.page
                           PaginationMeta.hasMore].
    rewrite Hs1, Hs2, Hs3, !length_take, !length_drop, Hlen. reflexivity.
  - split; [exact Hflat|]. split; [exact Hitems|].
    split; [by rewrite Hitems|].
    split; [by rewrite Hi3, Hi2, Hi1, !length_app|].
    split; [exact Hnoop | by rewrite Hnoop].
Qed.

End PostsPagination.

Lemma pagination_accumulation_witness :
  (length Examples.posts25 = 25%nat
   /\ Forall PostsApi.accepted Examples.posts25
   /\ absent (InfinitePosts.cacheKey 10 None) Examples.emptyStore)
  /\ length
       (InfiniteApi.flatData
          (InfinitePosts.respond (RemoteApi.pagedServer Examples.posts25) None 3000
             (InfiniteApi.step
                (InfinitePosts.respond (RemoteApi.pagedServer Examples.posts25) None 2000
                   (InfiniteApi.step
                      (InfinitePosts.respond (RemoteApi.pagedServer Examples.posts25)
                         None 1000
                         (InfiniteApi.mount (InfinitePosts.config 10 true None) 0
                            Examples.emptyStore))
                      InfiniteApi.LoadMore))
                InfiniteApi.LoadMore)))
     = 25%nat.
Proof.
  assert (length Examples.posts25 = 25%nat) as Hlen by reflexivity.
  assert (Forall PostsApi.accepted Examples.posts25) as Hall.
  { unfold Examples.posts25. cbn [seq map].
    repeat (apply List.Forall_cons; [repeat split|]). apply List.Forall_nil. }
  assert (absent (InfinitePosts.cacheKey 10 None) Examples.emptyStore) as Habs.
  { split; reflexivity. }
  split; [auto|].
  exact (proj1 (proj2 (proj2 (proj2 (proj2 (proj2
           (pagination_accumulation Examples.posts25 Examples.emptyStore 0 1000 2000 3000
              Hlen Hall Habs))))))).
Defined.

(** ** The single-resource controller *)

#[local] Ltac single_simpl :=
  cbv beta iota zeta;
  unfold SingleApi.map_caches, SingleApi.map_data, SingleApi.map_loading,
    SingleApi.map_error, SingleApi.map_controllers, SingleApi.map_inFlight,
    SingleApi.map_issued, SingleApi.map_effectCleanup,
    SingleApi.map_effectDeps, SingleApi.blank;
  cbn [SingleApi.effectCleanup SingleApi.config SingleApi.dataIdentity
       SingleApi.data SingleApi.caches SingleApi.isTruthy SingleApi.loading
       SingleApi.error SingleApi.controllers SingleApi.inFlight
       SingleApi.issued SingleApi.effectDeps negb fst snd].

Section SingleFacts.
Context {D T : Type}.
Variable truthyData : D -> bool.
Import SingleApi.
Implicit Types (c : @Caches D T) (w : @World D T) (cfg : Config).

Lemma readEntry_idempotent key persistent now c e :
  (readEntry key persistent now c).1 = Ret (Some e) ->
  readEntry key persistent now (readEntry key persistent now c).2
  = (Ret (Some e), (readEntry key persistent now c).2).
Proof.
  unfold readEntry, liftTiers, lift, own_get.
  destruct persistent; [|intros [= Hm]; cbn [snd]; by rewrite Hm].
  rewrite get_eq.
  destruct (UniversalCacheManager.durable_entry (tiers c) key) as [e'|] eqn:Hd.
  - destruct (now >? expiresAt e') eqn:Hexp; [discriminate|].
    intros [= ->]. cbn [snd tiers]. rewrite get_eq.
    rewrite durable_entry_with_memory, Hd, Hexp.
    unfold UniversalCacheManager.with_memory. cbn [memoryCache localStorage].
    by rewrite insert_insert_eq.
  - intros [= Hm]. cbn [snd tiers]. rewrite get_eq, Hd, Hm. by destruct c.
Qed.

Lemma getCachedData_hit key persistent now c payload ts ex :
  (readEntry key persistent now c).1 = Ret (Some (CacheEntry payload ts ex)) ->
  getCachedData key persistent now c
  = (Ret (Some payload), (readEntry key persistent now c).2).
Proof.
  intros Hread. unfold getCachedData, try_catch, mbind.
  destruct (readEntry key persistent now c) as [r c1]. simpl in Hread. by subst r.
Qed.

Lemma isCacheStale_hit key persistent now c payload ts ex :
  (readEntry key persistent now c).1 = Ret (Some (CacheEntry payload ts ex)) ->
  isCacheStale key persistent now c
  = (Ret (now - ts >? staleThreshold), (readEntry key persistent now c).2).
Proof.
  intros Hread. unfold isCacheStale, mbind.
  destruct (readEntry key persistent now c) as [r c1]. simpl in Hread. by subst r.
Qed.

(** Mounting over an unexpired, stale payload: the payload is shown at
    once, the loading flag stays down, and one background request goes
    out. *)
Lemma mount_stale cfg now c payload ts ex :
  enabled cfg = true ->
  (readEntry (cacheKey cfg) (persistentCache cfg) now c).1
  = Ret (Some (CacheEntry payload ts ex)) ->
  truthyData payload = true ->
  staleThreshold < now - ts ->
  mount truthyData cfg now c =
    let rq := {| controller := 0; showLoading := false; closure := cfg |} in
    {| data := Some payload; loading := false; error := None;
       controllers := {| abortControllerRef := Some 0%nat; abortedSignals := ∅;
                         nextController := 1 |};
       caches := (readEntry (cacheKey cfg) (persistentCache cfg) now c).2;
       inFlight := [rq]; issued := [rq];
       config := cfg; dataIdentity := 0%nat; effectDeps := (cfg, 0%nat);
       effectCleanup := true |}.
Proof.
  intros Hen Hread Htruthy Hstale.
  unfold mount, mbind at 1, firstRender, mbind, mget, mmodify, liftCaches, lift.
  change (config (blank cfg c)) with cfg.
  rewrite Hen. cbn [negb]. cbv beta.
  change (caches (blank cfg c)) with c.
  rewrite (getCachedData_hit _ _ _ _ _ _ _ Hread).
  unfold initialLoadEffect, mbind, mget, mmodify, liftCaches, lift, mret.
  single_simpl.
  rewrite Hen, Htruthy. single_simpl.
  rewrite (isCacheStale_hit _ _ _ _ _ _ _
             (eq_trans (f_equal fst (readEntry_idempotent _ _ _ _ _ Hread)) eq_refl)).
  rewrite (readEntry_idempotent _ _ _ _ _ Hread). cbn [snd].
  assert (Hgt : (now - ts >? staleThreshold) = true) by lia. rewrite Hgt.
  reflexivity.
Qed.

(** Mounting over a cached payload that is falsy: [if (data)] takes the
    other branch, and the hook fetches as if nothing were cached, with the
    loading flag raised. *)
Lemma mount_falsy cfg now c payload ts ex :
  enabled cfg = true ->
  (readEntry (cacheKey cfg) (persistentCache cfg) now c).1
  = Ret (Some (CacheEntry payload ts ex)) ->
  truthyData payload = false ->
  mount truthyData cfg now c =
    let rq := {| controller := 0; showLoading := true; closure := cfg |} in
    {| data := Some payload; loading := true; error := None;
       controllers := {| abortControllerRef := Some 0%nat; abortedSignals := ∅;
                         nextController := 1 |};
       caches := (readEntry (cacheKey cfg) (persistentCache cfg) now c).2;
       inFlight := [rq]; issued := [rq];
       config := cfg; dataIdentity := 0%nat; effectDeps := (cfg, 0%nat);
       effectCleanup := true |}.
Proof.
  intros Hen Hread Hfalsy.
  unfold mount, mbind at 1, firstRender, mbind, mget, mmodify, liftCaches, lift.
  change (config (blank cfg c)) with cfg.
  rewrite Hen. cbn [negb]. cbv beta.
  change (caches (blank cfg c)) with c.
  rewrite (getCachedData_hit _ _ _ _ _ _ _ Hread).
  unfold initialLoadEffect, mbind, mget, mmodify, liftCaches, lift, mret.
  single_simpl.
  rewrite Hen, Hfalsy. single_simpl.
  reflexivity.
Qed.

(** The one request of such an instance failing: the message lands in
    the [error] state, the loading flag drops if the request had raised
    it, and everything else the caller sees stays. *)
Lemma step_sole_request_failure cfg payload c err now' (sl : bool) :
  let rq := {| controller := 0; showLoading := sl; closure := cfg |} in
  step truthyData
    {| data := Some payload; loading := sl; error := None;
       controllers := {| abortControllerRef := Some 0%nat;
                         abortedSignals := ∅; nextController := 1 |};
       caches := c; inFlight := [rq]; issued := [rq]; config := cfg;
       dataIdentity := 0%nat; effectDeps := (cfg, 0%nat);
       effectCleanup := true |}
    (Settle 0 (Rejected err), now')
  = {| data := Some payload; loading := false;
       error := Some (errorMessage err);
       controllers := {| abortControllerRef := None;
                         abortedSignals := ∅; nextController := 1 |};
       caches := c; inFlight := []; issued := [rq]; config := cfg;
       dataIdentity := 0%nat; effectDeps := (cfg, 0%nat);
       effectCleanup := true |}.
Proof.
  intros rq. unfold step, react, handle, settle, mbind at 1.
  cbn [fst snd]. unfold mbind, mget, mmodify.
  cbn [inFlight list_find controller rq].
  rewrite decide_True by reflexivity.
  unfold fetchData_resume, try_finally, try_catch, await, mthrow, mbind,
    signalAborted, setError, setLoading, cleanupRequest, mmodify, mret.
  single_simpl. unfold rq; cbn [controller showLoading].
  assert (Hlive : ApiUtils.aborted 0
                    {| abortControllerRef := Some 0%nat; abortedSignals := ∅;
                       nextController := 1 |} = false)
    by (apply bool_decide_eq_false; cbn [abortedSignals]; apply not_elem_of_empty).
  rewrite Hlive. single_simpl. rewrite Hlive. single_simpl.
  unfold ApiUtils.cleanupRequest.
  destruct sl; single_simpl; cbn [abortControllerRef];
    rewrite decide_True by reflexivity;
    unfold commit, mbind, mget, mret; single_simpl;
    rewrite bool_decide_false by (intros Hne; by apply Hne);
    reflexivity.
Qed.

(** C9 (as amended).  In the single-resource controller, mounting over an
    unexpired but stale cached payload that is truthy shows the payload at
    once, leaves the loading flag down and the error unset, and issues
    exactly one background request (one that does not show loading).  If
    that request fails, the payload is retained unchanged, the loading
    flag and the caches are untouched and no further request goes out --
    but the failure IS surfaced: the [error] state the hook returns is set
    to the failure's message.  A cached payload that is falsy (the effect
    tests [if (data)]) is shown as well but counts as no data: the one
    request issued raises the loading flag; if it fails, the payload is
    retained, the flag drops, the caches are untouched, and the error is
    set likewise. *)
Theorem background_refresh_failure cfg now c payload ts ex err now' :
  enabled cfg = true ->
  (readEntry (cacheKey cfg) (persistentCache cfg) now c).1
  = Ret (Some (CacheEntry payload ts ex)) ->
  staleThreshold < now - ts ->
  let w := mount truthyData cfg now c in
  let w' := step truthyData w (Settle 0 (Rejected err), now') in
  (truthyData payload = true ->
   (data w = Some payload /\ loading w = false /\ error w = None
    /\ issued w = [{| controller := 0; showLoading := false; closure := cfg |}]
    /\ inFlight w = issued w)
   /\ (data w' = Some payload /\ loading w' = false
       /\ caches w' = caches w /\ issued w' = issued w /\ inFlight w' = []
       /\ error w' = Some (errorMessage err)))
  /\ (truthyData payload = false ->
      (data w = Some payload /\ loading w = true /\ error w = None
       /\ issued w = [{| controller := 0; showLoading := true; closure := cfg |}]
       /\ inFlight w = issued w)
      /\ (data w' = Some payload /\ loading w' = false
          /\ caches w' = caches w /\ issued w' = issued w /\ inFlight w' = []
          /\ error w' = Some (errorMessage err))).
Proof.
  intros Hen Hread Hstale w w'. subst w'. subst w. split.
  - intros Htruthy.
    rewrite (mount_stale cfg now c payload ts ex Hen Hread Htruthy Hstale).
    cbv zeta. rewrite (step_sole_request_failure cfg payload _ err now' false).
    cbn [data loading error issued inFlight caches].
    repeat split.
  - intros Hfalsy.
    rewrite (mount_falsy cfg now c payload ts ex Hen Hread Hfalsy).
    cbv zeta. rewrite (step_sole_request_failure cfg payload _ err now' true).
    cbn [data loading error issued inFlight caches].
    repeat split.
Qed.

End SingleFacts.

Lemma background_refresh_failure_witness :
  let w := SingleApi.mount Examples.anyTruthy Examples.usersConfig 60000
             Examples.staleCaches in
  let w' := SingleApi.step Examples.anyTruthy w
              (SingleApi.Settle 0 (Rejected (ErrorObject "Error" "boom")), 61000) in
  (SingleApi.data w = Some 7%nat /\ SingleApi.loading w = false
   /\ SingleApi.error w = None
   /\ SingleApi.issued w
      = [{| SingleApi.controller := 0; SingleApi.showLoading := false;
            SingleApi.closure := Examples.usersConfig |}]
   /\ SingleApi.inFlight w = SingleApi.issued w)
  /\ (SingleApi.data w' = Some 7%nat /\ SingleApi.loading w' = false
      /\ SingleApi.caches w' = SingleApi.caches w
      /\ SingleApi.issued w' = SingleApi.issued w
      /\ SingleApi.inFlight w' = []
      /\ SingleApi.error w' = Some "boom").
Proof.
  assert (Hread : (SingleApi.readEntry (SingleApi.cacheKey Examples.usersConfig)
                     (SingleApi.persistentCache Examples.usersConfig) 60000
                     Examples.staleCaches).1
                  = Ret (Some (CacheEntry 7%nat 0 300000)))
    by (vm_compute; reflexivity).
  assert (Hstale : SingleApi.staleThreshold < 60000 - 0) by (vm_compute; reflexivity).
  exact (proj1 (background_refresh_failure Examples.anyTruthy Examples.usersConfig
                  60000 Examples.staleCaches 7%nat 0 300000
                  (ErrorObject "Error" "boom") 61000 eq_refl Hread Hstale) eq_refl).
Defined.

(** The same mount over a stale payload that is the number 0: the payload
    is shown, but the request raises the loading flag, and its failure sets
    the error as well. *)
Lemma falsy_payload_is_fetched_with_loading :
  let w := SingleApi.mount Scenarios.nonzero Examples.usersConfig 60000
             Scenarios.cachesHoldingZero in
  let w' := SingleApi.step Scenarios.nonzero w
              (SingleApi.Settle 0 (Rejected (ErrorObject "Error" "boom")), 61000) in
  SingleApi.data w = Some 0%nat /\ SingleApi.loading w = true
  /\ SingleApi.issued w
     = [{| SingleApi.controller := 0; SingleApi.showLoading := true;
           SingleApi.closure := Examples.usersConfig |}]
  /\ SingleApi.data w' = Some 0%nat /\ SingleApi.loading w' = false
  /\ SingleApi.error w' = Some "boom".
Proof. vm_compute. repeat split. Qed.

(** The claim as written fails on the stale instance of the examples: its
    background request failing sets the [error] the hook returns. *)
Lemma background_refresh_failure_counterexample :
  SingleApi.data Examples.staleMounted = Some 7%nat
  /\ SingleApi.loading Examples.staleMounted = false
  /\ SingleApi.error Examples.staleMounted = None
  /\ SingleApi.issued Examples.staleMounted
     = [{| SingleApi.controller := 0; SingleApi.showLoading := false;
           SingleApi.closure := Examples.usersConfig |}]
  /\ SingleApi.error
       (SingleApi.step Examples.anyTruthy Examples.staleMounted
          (SingleApi.Settle 0 (Rejected (ErrorObject "Error" "boom")), 61000))
     <> None.
Proof. vm_compute. repeat split. discriminate. Qed.

(** * Further properties of the code *)

(** ** The cache store: round trips, purges and independence of keys *)

Section CacheStoreRoundTrips.
Context {D T : Type}.
Implicit Types (st : Store D T) (e : Entry D T) (key : string).

Import UniversalCacheManager.

Lemma prefixed_inj key key' :
  CACHE_PREFIX +:+ key = CACHE_PREFIX +:+ key' -> key = key'.
Proof. apply (inj (String.app CACHE_PREFIX)). Qed.

Lemma durable_entry_after_set key e st :
  unavailable (localStorage st) = false -> full (localStorage st) = false ->
  durable_entry (set key e st).2 key = Some e.
Proof.
  intros Hun Hfull. rewrite set_eq, Hun, Hfull. unfold durable_entry. simpl.
  by rewrite Hun, lookup_insert_eq.
Qed.

Lemma get_after_set_fresh key e now st :
  unavailable (localStorage st) = false -> full (localStorage st) = false ->
  now <= expiresAt e ->
  get key now (set key e st).2 = (Ret (Some e), (set key e st).2).
Proof.
  intros Hun Hfull Hnow.
  rewrite get_eq, (durable_entry_after_set key e st Hun Hfull).
  assert (Hgt : (now >? expiresAt e) = false) by lia. rewrite Hgt.
  f_equal. rewrite set_eq, Hun, Hfull. unfold with_memory. simpl.
  by rewrite insert_insert_eq.
Qed.

(** X1.  On a working durable tier, [set] followed by [get] is a round
    trip exactly within the TTL: at or before [expiresAt] the [get] returns
    the entry just stored (whatever was cached under the key before) and
    changes nothing; strictly after [expiresAt] it returns null and leaves
    the key absent from both tiers. *)
Theorem set_get_within_ttl key e now st :
  unavailable (localStorage st) = false ->
  full (localStorage st) = false ->
  (now <= expiresAt e ->
     get key now (set key e st).2 = (Ret (Some e), (set key e st).2))
  /\ (expiresAt e < now ->
        (get key now (set key e st).2).1 = Ret None
        /\ absent key (get key now (set key e st).2).2).
Proof.
  intros Hun Hfull.
  pose proof (durable_entry_after_set key e st Hun Hfull) as Hd.
  split; intros Hnow.
  - by apply get_after_set_fresh.
  - destruct (get_expired_durable key now _ e Hd Hnow) as (Hr & Hm & Hdur).
    by repeat split.
Qed.

(** X2.  The durable tier is authoritative: when it holds an unexpired
    entry for the key, [get] returns that entry even if the fast tier holds
    a different one (or none), overwrites the fast tier's entry with it, and
    touches neither the durable tier nor any other key of the fast tier. *)
Theorem get_promotes_durable_entry key e now st :
  durable_entry st key = Some e ->
  now <= expiresAt e ->
  (get key now st).1 = Ret (Some e)
  /\ memoryCache (get key now st).2 !! key = Some e
  /\ localStorage (get key now st).2 = localStorage st
  /\ (forall key', key' <> key ->
        memoryCache (get key now st).2 !! key' = memoryCache st !! key').
Proof.
  intros Hd Hle. rewrite get_eq, Hd.
  assert (Hgt : (now >? expiresAt e) = false) by lia. rewrite Hgt. simpl.
  split; [reflexivity|]. split; [apply lookup_insert_eq|].
  split; [reflexivity|]. intros key' Hne. by rewrite lookup_insert_ne.
Qed.

Lemma get_result_local key now st st' :
  durable_entry st' key = durable_entry st key ->
  memoryCache st' !! key = memoryCache st !! key ->
  (get key now st').1 = (get key now st).1.
Proof.
  intros Hd Hm. rewrite !get_eq, Hd.
  destruct (durable_entry st key) as [e|]; [|by simpl; rewrite Hm].
  by destruct (now >? expiresAt e).
Qed.

(** X3.  [delete] always takes effect for the reader, and both writes are
    local to their key.  Right after [delete], [get] of the key returns
    null, in every state of the two tiers (a durable tier that throws
    included).  Neither [delete] nor [set] on one key changes what [get]
    returns for a different key, whether or not the durable tier accepts
    the operation. *)
Theorem delete_and_set_are_local key e now st :
  (get key now (delete key st).2).1 = Ret None
  /\ (forall key', key' <> key ->
        (get key' now (delete key st).2).1 = (get key' now st).1)
  /\ (forall key', key' <> key ->
        (get key' now (set key e st).2).1 = (get key' now st).1).
Proof.
  split; [|split].
  - destruct (delete_absent key st) as [Hm Hd].
    rewrite get_memory_path by exact Hd. simpl. by rewrite Hm.
  - intros key' Hne. apply get_result_local.
    + destruct (delete_other key' key st Hne) as [_ Hi].
      unfold durable_entry. rewrite Hi.
      rewrite delete_eq.
      destruct (unavailable (localStorage st)) eqn:Hun; simpl; by rewrite Hun.
    + by destruct (delete_other key' key st Hne) as [Hm _].
  - intros key' Hne. apply get_result_local.
    + rewrite set_eq. unfold durable_entry.
      destruct (unavailable (localStorage st)) eqn:Hun; simpl; rewrite ?Hun;
        [reflexivity|].
      destruct (full (localStorage st)); simpl; rewrite ?Hun; [reflexivity|].
      rewrite lookup_insert_ne; [reflexivity|].
      intros Heq. by apply prefixed_inj in Heq.
    + rewrite set_eq.
      destruct (unavailable (localStorage st) || full (localStorage st)); simpl;
        by rewrite lookup_insert_ne.
Qed.

(** X4.  A durable tier that cannot be read for the key (it throws, or the
    text under the key is empty or is not JSON, or there is no such text)
    is skipped silently: [get] answers from the fast tier, without expiry
    check, and changes nothing. *)
Theorem get_falls_back_to_memory key now st :
  unavailable (localStorage st) = true
  \/ items (localStorage st) !! (CACHE_PREFIX +:+ key) = Some Malformed
  \/ items (localStorage st) !! (CACHE_PREFIX +:+ key) = Some EmptyText
  \/ items (localStorage st) !! (CACHE_PREFIX +:+ key) = None ->
  get key now st = (Ret (memoryCache st !! key), st).
Proof.
  intros H. apply get_memory_path. unfold durable_entry.
  destruct (unavailable (localStorage st)); [reflexivity|].
  destruct H as [H|[H|[H|H]]]; [discriminate| by rewrite H..].
Qed.

(** *** [clear] *)

Lemma forEach_removeItem ks st :
  unavailable (localStorage st) = false ->
  mforEach removeItem ks st
  = (Ret tt, with_items (fun m => foldl (fun m k => base.delete k m) m ks) st).
Proof.
  intros Hun. revert st Hun.
  induction ks as [|k ks IH]; intros st Hun.
  - destruct st as [m [i u f]]. reflexivity.
  - cbn [mforEach]. unfold mbind. unfold removeItem at 1. rewrite Hun.
    rewrite IH by exact Hun. destruct st as [m [i u f]]. reflexivity.
Qed.

Lemma lookup_foldl_delete (m : gmap string (Stored D T)) ks k :
  foldl (fun m k => base.delete k m) m ks !! k
  = if bool_decide (k ∈ ks) then None else m !! k.
Proof.
  revert m. induction ks as [|k' ks IH]; intros m; [reflexivity|].
  cbn [foldl]. rewrite IH.
  destruct (decide (k = k')) as [->|Hne].
  - rewrite lookup_delete_eq, (bool_decide_true (k' ∈ k' :: ks)) by left.
    by case_bool_decide.
  - rewrite lookup_delete_ne by congruence.
    case_bool_decide as Hin.
    + rewrite bool_decide_true; [reflexivity | by right].
    + rewrite bool_decide_false; [reflexivity|].
      rewrite elem_of_cons. intros [?|?]; congruence.
Qed.

Lemma clear_eq st :
  clear st =
    (Ret tt,
     if unavailable (localStorage st)
     then with_memory (fun _ => ∅) st
     else with_memory (fun _ => ∅)
            (with_items
               (fun m => foldl (fun m k => base.delete k m) m
                           (filter (fun k => String.prefix CACHE_PREFIX k = true)
                              (map_to_list m).*1))
               st)).
Proof.
  unfold clear, mbind at 1, try_catch, mbind, storageKeys, memory_clear.
  destruct (unavailable (localStorage st)) eqn:Hun; [reflexivity|].
  rewrite forEach_removeItem by exact Hun. reflexivity.
Qed.

(** X5.  After [clear], [get] returns null for every key, whatever the
    state of the durable tier; and [clear] removes from [localStorage] only
    the keys that start with the cache prefix: any other key keeps its
    text. *)
Theorem clear_empties_cache st :
  (forall key now, (get key now (clear st).2).1 = Ret None)
  /\ (forall k, String.prefix CACHE_PREFIX k = false ->
        items (localStorage (clear st).2) !! k = items (localStorage st) !! k).
Proof.
  split.
  - intros key now.
    assert (Hm : memoryCache (clear st).2 !! key = None).
    { rewrite clear_eq. simpl. destruct (unavailable (localStorage st)); done. }
    assert (Hd : durable_entry (clear st).2 key = None).
    { rewrite clear_eq. unfold durable_entry.
      destruct (unavailable (localStorage st)) eqn:Hun; simpl; rewrite Hun;
        [reflexivity|].
      rewrite lookup_foldl_delete. case_bool_decide as Hin; [reflexivity|].
      destruct (items (localStorage st) !! (CACHE_PREFIX +:+ key)) as [s|] eqn:Hs;
        [|reflexivity].
      exfalso. apply Hin. apply list_elem_of_filter.
      split; [by destruct key|].
      apply list_elem_of_fmap. exists (CACHE_PREFIX +:+ key, s).
      split; [reflexivity|]. by apply elem_of_map_to_list. }
    rewrite get_memory_path by exact Hd. simpl. by rewrite Hm.
  - intros k Hk. rewrite clear_eq.
    destruct (unavailable (localStorage st)); simpl; [reflexivity|].
    rewrite lookup_foldl_delete. case_bool_decide as Hin; [|reflexivity].
    apply list_elem_of_filter in Hin as [Hp _]. congruence.
Qed.

End CacheStoreRoundTrips.

Lemma set_get_within_ttl_witness :
  let e := Examples.usersEntry in
  let st := Scenarios.divergedStore in
  UniversalCacheManager.get "users" 2000 (UniversalCacheManager.set "users" e st).2
  = (Ret (Some e), (UniversalCacheManager.set "users" e st).2)
  /\ (UniversalCacheManager.get "users" 400000
        (UniversalCacheManager.set "users" e st).2).1 = Ret None.
Proof.
  intros e st.
  destruct (set_get_within_ttl "users" e 2000 st eq_refl eq_refl) as [Hin _].
  destruct (set_get_within_ttl "users" e 400000 st eq_refl eq_refl) as [_ Hout].
  split.
  - apply Hin. vm_compute. discriminate.
  - apply Hout. vm_compute. reflexivity.
Defined.

Lemma get_promotes_durable_entry_witness :
  let st := Scenarios.divergedStore in
  memoryCache st !! "users" = Some Examples.newerUsersEntry
  /\ (UniversalCacheManager.get "users" 2000 st).1 = Ret (Some Examples.usersEntry)
  /\ memoryCache (UniversalCacheManager.get "users" 2000 st).2 !! "users"
     = Some Examples.usersEntry.
Proof.
  intros st. split; [reflexivity|].
  destruct (get_promotes_durable_entry "users" Examples.usersEntry 2000 st eq_refl)
    as (H1 & H2 & _).
  - vm_compute. discriminate.
  - split; assumption.
Defined.

Lemma get_falls_back_to_memory_witness :
  UniversalCacheManager.get "users" 999999 Scenarios.corruptStore
  = (Ret (Some Examples.usersEntry), Scenarios.corruptStore).
Proof.
  apply (get_falls_back_to_memory "users" 999999 Scenarios.corruptStore).
  right. left. reflexivity.
Defined.

(** ** The cache helpers of [ApiUtils] (useApi.ts) *)

Section SingleCacheHelpers.
Context {D T : Type}.
Import SingleApi.
Implicit Types (c : @Caches D T) (key : string).

Lemma read_after_write key payload ttl persistent now now' c :
  writable persistent c ->
  now' <= now + ttl ->
  (readEntry key persistent now'
     (setCachedData key payload ttl persistent now c).2).1
  = Ret (Some (createSingleEntry payload ttl now)).
Proof.
  intros Hw Hle. unfold readEntry, setCachedData.
  destruct persistent.
  - destruct Hw as [|[Hun Hfull]]; [discriminate|].
    unfold liftTiers, lift.
    destruct (UniversalCacheManager.set key (createSingleEntry payload ttl now) (tiers c))
      as [r s'] eqn:Hset.
    cbn [snd tiers].
    assert (s' = (UniversalCacheManager.set key
                    (createSingleEntry payload ttl now) (tiers c)).2) as ->
      by (by rewrite Hset).
    rewrite get_after_set_fresh by assumption. reflexivity.
  - unfold own_set, own_get, mmodify. cbn [fst snd ownMemoryCache].
    by rewrite lookup_insert_eq.
Qed.

Lemma readEntry_miss_after_delete key persistent now c :
  (readEntry key persistent now (deleteFromCache key persistent c).2).1 = Ret None.
Proof.
  unfold readEntry, deleteFromCache. destruct persistent.
  - unfold liftTiers, lift.
    destruct (UniversalCacheManager.delete key (tiers c)) as [r s'] eqn:Hdel.
    cbn [snd tiers].
    assert (s' = (UniversalCacheManager.delete key (tiers c)).2) as ->
      by (by rewrite Hdel).
    destruct (delete_absent key (tiers c)) as [Hm Hd].
    rewrite get_memory_path by exact Hd. cbn [fst]. by rewrite Hm.
  - unfold own_delete, own_get, mmodify. cbn [fst snd ownMemoryCache].
    by rewrite lookup_delete_eq.
Qed.

Lemma getCachedData_of_read key persistent now c :
  (getCachedData key persistent now c).1
  = match (readEntry key persistent now c).1 with
    | Ret (Some (CacheEntry payload _ _)) => Ret (Some payload)
    | _ => Ret None
    end.
Proof.
  unfold getCachedData, try_catch, mbind.
  destruct (readEntry key persistent now c) as [[[[p ts ex|ps ts ex]|]|err] c1];
    reflexivity.
Qed.

Lemma readEntry_returns key persistent now c :
  exists r, (readEntry key persistent now c).1 = Ret r.
Proof.
  unfold readEntry. destruct persistent; [|by eexists].
  unfold liftTiers, lift. rewrite get_eq.
  destruct (UniversalCacheManager.durable_entry (tiers c) key) as [e|];
    [destruct (now >? expiresAt e)|]; by eexists.
Qed.

Lemma isCacheStale_of_read key persistent now c :
  (isCacheStale key persistent now c).1
  = match (readEntry key persistent now c).1 with
    | Ret (Some (CacheEntry _ ts _)) => Ret (now - ts >? staleThreshold)
    | Ret _ => Ret true
    | Throw err => Throw err
    end.
Proof.
  unfold isCacheStale, mbind.
  destruct (readEntry key persistent now c) as [[[[p ts ex|ps ts ex]|]|err] c1];
    reflexivity.
Qed.

(** X6.  The non-persistent path of [ApiUtils] keeps its entries in the
    [memoryCache] map of useApi.ts and never checks their expiry: whatever
    [setCachedData] stored is returned by [getCachedData] at every later
    time, past [expiresAt] included; [isCacheStale] reports it stale exactly
    when it is older than 30 seconds; and the two tiers of
    [UniversalCacheManager] are not touched. *)
Theorem nonpersistent_cache_never_expires key payload ttl now now' c :
  let c' := (setCachedData key payload ttl false now c).2 in
  getCachedData key false now' c' = (Ret (Some payload), c')
  /\ isCacheStale key false now' c' = (Ret (now' - now >? staleThreshold), c')
  /\ tiers c' = tiers c.
Proof.
  unfold setCachedData, getCachedData, isCacheStale, readEntry, try_catch, mbind,
    own_set, own_get, mmodify, createSingleEntry.
  cbn [fst snd ownMemoryCache tiers]. rewrite lookup_insert_eq. done.
Qed.

(** X7.  On the persistent path with a working durable tier,
    [setCachedData] followed by [getCachedData] is a round trip exactly
    within the TTL: up to [now + ttl] the payload comes back and
    [isCacheStale] tells whether it is older than 30 seconds; after that
    [getCachedData] returns null and [isCacheStale] returns true.  The
    [memoryCache] map of useApi.ts is not touched. *)
Theorem persistent_cache_round_trip key payload ttl now now' c :
  unavailable (localStorage (tiers c)) = false ->
  full (localStorage (tiers c)) = false ->
  let c' := (setCachedData key payload ttl true now c).2 in
  (now' <= now + ttl ->
     (getCachedData key true now' c').1 = Ret (Some payload)
     /\ (isCacheStale key true now' c').1 = Ret (now' - now >? staleThreshold))
  /\ (now + ttl < now' ->
        (getCachedData key true now' c').1 = Ret None
        /\ (isCacheStale key true now' c').1 = Ret true)
  /\ ownMemoryCache c' = ownMemoryCache c.
Proof.
  intros Hun Hfull c'.
  split; [|split].
  - intros Hle.
    pose proof (read_after_write key payload ttl true now now' c
                  (or_intror (conj Hun Hfull)) Hle) as Hread.
    fold c' in Hread.
    rewrite getCachedData_of_read, isCacheStale_of_read, Hread. done.
  - intros Hlt.
    assert ((readEntry key true now' c').1 = Ret None) as Hread.
    { subst c'. unfold readEntry, setCachedData, liftTiers, lift.
      destruct (UniversalCacheManager.set key (createSingleEntry payload ttl now)
                  (tiers c)) as [r s'] eqn:Hset.
      cbn [snd tiers].
      assert (s' = (UniversalCacheManager.set key
                      (createSingleEntry payload ttl now) (tiers c)).2) as ->
        by (by rewrite Hset).
      pose proof (durable_entry_after_set key (createSingleEntry payload ttl now)
                    (tiers c) Hun Hfull) as Hd.
      destruct (get_expired_durable key now' _ _ Hd) as (Hr & _); [exact Hlt|].
      destruct (UniversalCacheManager.get key now' _) as [r' s'']. by simpl in *. }
    rewrite getCachedData_of_read, isCacheStale_of_read, Hread. done.
  - subst c'. unfold setCachedData, liftTiers, lift.
    by destruct (UniversalCacheManager.set key _ (tiers c)).
Qed.

(** The two kinds of entry do not mix: where the cache the hook reads
    holds an infinite-scroll entry (pages) under the key, [getCachedData]
    returns null rather than the pages, and [isCacheStale] returns true. *)
Lemma single_reader_skips_pages key persistent now c ps ts ex :
  (readEntry key persistent now c).1 = Ret (Some (InfiniteCacheEntry ps ts ex)) ->
  (getCachedData key persistent now c).1 = Ret None
  /\ (isCacheStale key persistent now c).1 = Ret true.
Proof.
  intros Hread. by rewrite getCachedData_of_read, isCacheStale_of_read, Hread.
Qed.

(** [deleteFromCache] takes effect on either path: right after it,
    [getCachedData] returns null and [isCacheStale] returns true for the
    key. *)
Lemma deleteFromCache_then_read key persistent now c :
  (getCachedData key persistent now (deleteFromCache key persistent c).2).1 = Ret None
  /\ (isCacheStale key persistent now (deleteFromCache key persistent c).2).1
     = Ret true.
Proof.
  by rewrite getCachedData_of_read, isCacheStale_of_read,
    readEntry_miss_after_delete.
Qed.

End SingleCacheHelpers.

Lemma persistent_cache_round_trip_witness :
  let c' := (SingleApi.setCachedData "users" 7%nat 300000 true 1000
               Scenarios.emptyCaches).2 in
  ((SingleApi.getCachedData "users" true 50000 c').1 = Ret (Some 7%nat)
   /\ (SingleApi.isCacheStale "users" true 50000 c').1 = Ret true)
  /\ ((SingleApi.getCachedData "users" true 400000 c').1 = Ret None
      /\ (SingleApi.isCacheStale "users" true 400000 c').1 = Ret true).
Proof.
  intros c'.
  destruct (persistent_cache_round_trip "users" 7%nat 300000 1000 50000
              Scenarios.emptyCaches eq_refl eq_refl) as (Hin & _ & _).
  destruct (persistent_cache_round_trip "users" 7%nat 300000 1000 400000
              Scenarios.emptyCaches eq_refl eq_refl) as (_ & Hout & _).
  split.
  - apply Hin. vm_compute. discriminate.
  - apply Hout. vm_compute. reflexivity.
Defined.

(** ** The single-resource controller: mounting and the first round *)

#[local] Ltac single_simpl' :=
  unfold SingleApi.map_dataIdentity, SingleApi.map_config; single_simpl.

Section SingleRounds.
Context {D T : Type}.
Variable truthyData : D -> bool.
Import SingleApi.
Implicit Types (c : @Caches D T) (w : @World D T) (cfg : Config).

Lemma mount_stale_pending cfg now c payload ts ex :
  enabled cfg = true ->
  (readEntry (cacheKey cfg) (persistentCache cfg) now c).1
  = Ret (Some (CacheEntry payload ts ex)) ->
  truthyData payload = true ->
  staleThreshold < now - ts ->
  mount truthyData cfg now c
  = pending (Some payload) false false cfg
      (readEntry (cacheKey cfg) (persistentCache cfg) now c).2.
Proof. apply mount_stale. Qed.

Lemma mount_fresh cfg now c payload ts ex :
  enabled cfg = true ->
  (readEntry (cacheKey cfg) (persistentCache cfg) now c).1
  = Ret (Some (CacheEntry payload ts ex)) ->
  truthyData payload = true ->
  now - ts <= staleThreshold ->
  mount truthyData cfg now c
  = resting (Some payload) cfg
      (readEntry (cacheKey cfg) (persistentCache cfg) now c).2.
Proof.
  intros Hen Hread Htruthy Hfresh.
  unfold mount, mbind at 1, firstRender, mbind, mget, mmodify, liftCaches, lift.
  change (config (blank cfg c)) with cfg.
  rewrite Hen. cbn [negb]. cbv beta.
  change (caches (blank cfg c)) with c.
  rewrite (getCachedData_hit _ _ _ _ _ _ _ Hread).
  unfold initialLoadEffect, mbind, mget, mmodify, liftCaches, lift, mret.
  single_simpl.
  rewrite Hen, Htruthy. single_simpl.
  rewrite (isCacheStale_hit _ _ _ _ _ _ _
             (eq_trans (f_equal fst (readEntry_idempotent _ _ _ _ _ Hread)) eq_refl)).
  rewrite (readEntry_idempotent _ _ _ _ _ Hread). cbn [snd].
  assert (Hgt : (now - ts >? staleThreshold) = false) by lia. rewrite Hgt.
  reflexivity.
Qed.

Lemma mount_miss cfg now c :
  enabled cfg = true ->
  (getCachedData (cacheKey cfg) (persistentCache cfg) now c).1 = Ret None ->
  mount truthyData cfg now c
  = pending None true true cfg
      (getCachedData (cacheKey cfg) (persistentCache cfg) now c).2.
Proof.
  intros Hen Hmiss.
  unfold mount, mbind at 1, firstRender, mbind, mget, mmodify, liftCaches, lift.
  change (config (blank cfg c)) with cfg.
  rewrite Hen. cbn [negb]. cbv beta.
  change (caches (blank cfg c)) with c.
  destruct (getCachedData (cacheKey cfg) (persistentCache cfg) now c) as [r c1].
  cbn [fst snd] in *. subst r.
  unfold initialLoadEffect, mbind, mget, mmodify, liftCaches, lift, mret.
  single_simpl.
  rewrite Hen. single_simpl.
  reflexivity.
Qed.

Lemma mount_disabled cfg now c :
  enabled cfg = false -> mount truthyData cfg now c = blank cfg c.
Proof.
  intros Hen.
  unfold mount, mbind at 1, firstRender, mbind, mget, mmodify, liftCaches, lift.
  change (config (blank cfg c)) with cfg.
  rewrite Hen. cbn [negb]. cbv beta.
  unfold initialLoadEffect, mbind, mget, mmodify, liftCaches, lift, mret.
  single_simpl.
  rewrite Hen. reflexivity.
Qed.

Lemma setCachedData_returns key payload ttl persistent now c :
  setCachedData key payload ttl persistent now c
  = (Ret tt, (setCachedData key payload ttl persistent now c).2).
Proof.
  unfold setCachedData. destruct persistent; [|reflexivity].
  unfold liftTiers, lift. by rewrite set_eq.
Qed.

Lemma live_zero :
  ApiUtils.aborted 0
    {| abortControllerRef := Some 0%nat; abortedSignals := ∅; nextController := 1 |}
  = false.
Proof. apply bool_decide_eq_false. cbn [abortedSignals]. apply not_elem_of_empty. Qed.

(** The request of a pending instance fails. *)
Lemma step_pending_rejected d0 l0 sl cfg c err now' :
  step truthyData (pending d0 l0 sl cfg c) (Settle 0 (Rejected err), now')
  = {| data := d0; loading := if sl then false else l0;
       error := Some (errorMessage err);
       controllers := {| abortControllerRef := None; abortedSignals := ∅;
                         nextController := 1 |};
       caches := c; inFlight := [];
       issued := [{| controller := 0; showLoading := sl; closure := cfg |}];
       config := cfg; dataIdentity := 0%nat; effectDeps := (cfg, 0%nat);
       effectCleanup := true |}.
Proof.
  unfold pending. cbv zeta.
  unfold step, react, handle, settle, mbind at 1.
  cbn [fst snd]. unfold mbind, mget, mmodify.
  cbn [inFlight list_find controller].
  rewrite decide_True by reflexivity.
  unfold fetchData_resume, try_finally, try_catch, await, mthrow, mbind,
    signalAborted, setError, setLoading, cleanupRequest, mmodify, mret.
  single_simpl. cbn [controller showLoading].
  rewrite live_zero. single_simpl. rewrite live_zero. single_simpl.
  unfold ApiUtils.cleanupRequest.
  destruct sl; single_simpl; cbn [abortControllerRef];
    rewrite decide_True by reflexivity;
    unfold commit, mbind, mget, mret; single_simpl;
    rewrite bool_decide_false by (intros Hne; by apply Hne);
    reflexivity.
Qed.

(** The request of a pending instance succeeds with a truthy payload, and
    the cache hands back what was just written. *)
Lemma step_pending_resolved d0 l0 sl cfg c result now' :
  enabled cfg = true ->
  truthyData result = true ->
  (readEntry (cacheKey cfg) (persistentCache cfg) now'
     (setCachedData (cacheKey cfg) result (cacheTtl cfg) (persistentCache cfg)
        now' c).2).1
  = Ret (Some (createSingleEntry result (cacheTtl cfg) now')) ->
  step truthyData (pending d0 l0 sl cfg c) (Settle 0 (Resolved result), now')
  = {| data := Some result; loading := if sl then false else l0;
       error := None;
       controllers := {| abortControllerRef := None; abortedSignals := ∅;
                         nextController := 1 |};
       caches :=
         (readEntry (cacheKey cfg) (persistentCache cfg) now'
            (setCachedData (cacheKey cfg) result (cacheTtl cfg)
               (persistentCache cfg) now' c).2).2;
       inFlight := [];
       issued := [{| controller := 0; showLoading := sl; closure := cfg |}];
       config := cfg; dataIdentity := 1%nat; effectDeps := (cfg, 1%nat);
       effectCleanup := true |}.
Proof.
  intros Hen Htruthy Hback.
  unfold pending. cbv zeta.
  unfold step, react, handle, settle, mbind at 1.
  cbn [fst snd]. unfold mbind, mget, mmodify.
  cbn [inFlight list_find controller].
  rewrite decide_True by reflexivity.
  unfold fetchData_resume, try_finally, try_catch, await, mthrow, mbind,
    signalAborted, setError, setData, setLoading, cleanupRequest, liftCaches, lift,
    mmodify, mret.
  single_simpl'. cbn [controller showLoading closure].
  rewrite live_zero. single_simpl'.
  rewrite setCachedData_returns. single_simpl'.
  rewrite live_zero. single_simpl'.
  set (c1 := (setCachedData (cacheKey cfg) result (cacheTtl cfg)
                (persistentCache cfg) now' c).2) in *.
  assert (Hstale : isCacheStale (cacheKey cfg) (persistentCache cfg) now' c1
                   = (Ret false,
                      (readEntry (cacheKey cfg) (persistentCache cfg) now' c1).2)).
  { rewrite (isCacheStale_hit _ _ _ _ _ _ _ Hback).
    rewrite Z.sub_diag. reflexivity. }
  unfold ApiUtils.cleanupRequest.
  destruct sl; single_simpl'; cbn [abortControllerRef];
    rewrite decide_True by reflexivity;
    unfold commit, mbind, mget, mret; single_simpl';
    rewrite bool_decide_true by congruence; cbn [orb];
    unfold initialLoadEffect, mbind, mget, mmodify, liftCaches, lift, mret;
    single_simpl'; unfold ApiUtils.abortCurrent; cbn [abortControllerRef];
    single_simpl'; rewrite Hen, Htruthy; single_simpl';
    rewrite Hstale; reflexivity.
Qed.

Lemma getCachedData_state key persistent now c :
  (getCachedData key persistent now c).2 = (readEntry key persistent now c).2.
Proof.
  unfold getCachedData, try_catch, mbind.
  destruct (readEntry key persistent now c) as [[[[p ts ex|ps ts ex]|]|err] c1];
    reflexivity.
Qed.

Lemma writable_after_read key persistent now c :
  writable persistent c -> writable persistent (readEntry key persistent now c).2.
Proof.
  intros [->|[Hun Hfull]]; [by left|]. destruct persistent; [|by left]. right.
  unfold readEntry, liftTiers, lift. rewrite get_eq.
  destruct (UniversalCacheManager.durable_entry (tiers c) key) as [e|];
    [destruct (now >? expiresAt e)|]; cbn [snd tiers];
    rewrite ?delete_eq, ?Hun; by simpl.
Qed.

Lemma read_back_after_fetch cfg c result now' :
  writable (persistentCache cfg) c ->
  0 <= cacheTtl cfg ->
  (readEntry (cacheKey cfg) (persistentCache cfg) now'
     (setCachedData (cacheKey cfg) result (cacheTtl cfg) (persistentCache cfg)
        now' c).2).1
  = Ret (Some (createSingleEntry result (cacheTtl cfg) now')).
Proof. intros Hw Httl. apply read_after_write; [exact Hw | lia]. Qed.

(** X8.  Mounting [useApi] over a cached payload that is truthy and at
    most 30 seconds old shows the payload at once and fetches nothing: no
    request is issued and the loading flag stays down. *)
Theorem mount_on_fresh_cache_fetches_nothing cfg now c payload ts ex :
  enabled cfg = true ->
  (readEntry (cacheKey cfg) (persistentCache cfg) now c).1
  = Ret (Some (CacheEntry payload ts ex)) ->
  truthyData payload = true ->
  now - ts <= staleThreshold ->
  let w := mount truthyData cfg now c in
  data w = Some payload /\ loading w = false /\ error w = None
  /\ issued w = [] /\ inFlight w = [].
Proof.
  intros Hen Hread Htruthy Hfresh w. subst w.
  rewrite (mount_fresh cfg now c payload ts ex Hen Hread Htruthy Hfresh).
  by repeat split.
Qed.

(** X9.  Mounting [useApi] without a cached payload raises the loading
    flag and issues exactly one request.  When that request succeeds with a
    truthy payload, the payload becomes the data, the loading flag drops,
    the error is unset, the payload is written to the cache (and read back
    from it by [getCachedData]), and no further request is issued. *)
Theorem initial_fetch_success cfg now c result now' :
  enabled cfg = true ->
  (getCachedData (cacheKey cfg) (persistentCache cfg) now c).1 = Ret None ->
  writable (persistentCache cfg) c ->
  0 <= cacheTtl cfg ->
  truthyData result = true ->
  let w := mount truthyData cfg now c in
  let w' := step truthyData w (Settle 0 (Resolved result), now') in
  (data w = None /\ loading w = true /\ error w = None
   /\ issued w = [{| controller := 0; showLoading := true; closure := cfg |}]
   /\ inFlight w = issued w)
  /\ (data w' = Some result /\ loading w' = false /\ error w' = None
      /\ issued w' = issued w /\ inFlight w' = []
      /\ (getCachedData (cacheKey cfg) (persistentCache cfg) now' (caches w')).1
         = Ret (Some result)).
Proof.
  intros Hen Hmiss Hw Httl Htruthy w w'. subst w' w.
  rewrite (mount_miss cfg now c Hen Hmiss).
  split; [by repeat split|].
  rewrite getCachedData_state.
  pose proof (read_back_after_fetch cfg _ result now'
                (writable_after_read (cacheKey cfg) _ now c Hw) Httl) as Hback.
  rewrite (step_pending_resolved _ _ _ cfg _ result now' Hen Htruthy Hback).
  cbn [data loading error issued inFlight caches].
  repeat split.
  rewrite getCachedData_of_read, (readEntry_idempotent _ _ _ _ _ Hback).
  reflexivity.
Qed.

(** X10.  When the request issued by a mount without cached payload fails,
    the error state takes the failure's message, the loading flag drops, the
    data stays null, the caches are untouched, and [useApi] does not retry:
    no further request is issued. *)
Theorem initial_fetch_failure cfg now c err now' :
  enabled cfg = true ->
  (getCachedData (cacheKey cfg) (persistentCache cfg) now c).1 = Ret None ->
  let w := mount truthyData cfg now c in
  let w' := step truthyData w (Settle 0 (Rejected err), now') in
  data w' = None /\ loading w' = false /\ error w' = Some (errorMessage err)
  /\ issued w' = issued w /\ inFlight w' = [] /\ caches w' = caches w.
Proof.
  intros Hen Hmiss w w'. subst w' w.
  rewrite (mount_miss cfg now c Hen Hmiss), step_pending_rejected.
  by repeat split.
Qed.

(** X11.  When the background revalidation of a stale cached payload
    succeeds with a truthy payload, the new payload replaces the old one,
    the loading flag stays down throughout, the error is unset, the cache
    entry is replaced by one written at the time of the response (so it is
    no longer stale), and no further request is issued. *)
Theorem background_refresh_success cfg now c payload ts ex result now' :
  enabled cfg = true ->
  (readEntry (cacheKey cfg) (persistentCache cfg) now c).1
  = Ret (Some (CacheEntry payload ts ex)) ->
  truthyData payload = true ->
  staleThreshold < now - ts ->
  writable (persistentCache cfg) c ->
  0 <= cacheTtl cfg ->
  truthyData result = true ->
  let w := mount truthyData cfg now c in
  let w' := step truthyData w (Settle 0 (Resolved result), now') in
  loading w = false
  /\ data w' = Some result /\ loading w' = false /\ error w' = None
  /\ issued w' = issued w /\ inFlight w' = []
  /\ (getCachedData (cacheKey cfg) (persistentCache cfg) now' (caches w')).1
     = Ret (Some result)
  /\ (isCacheStale (cacheKey cfg) (persistentCache cfg) now' (caches w')).1
     = Ret false.
Proof.
  intros Hen Hread Htruthy Hstale Hw Httl Hres w w'. subst w' w.
  rewrite (mount_stale_pending cfg now c payload ts ex Hen Hread Htruthy Hstale).
  pose proof (read_back_after_fetch cfg _ result now'
                (writable_after_read (cacheKey cfg) _ now c Hw) Httl) as Hback.
  rewrite (step_pending_resolved _ _ _ cfg _ result now' Hen Hres Hback).
  cbn [data loading error issued inFlight caches].
  repeat split.
  - rewrite getCachedData_of_read, (readEntry_idempotent _ _ _ _ _ Hback).
    reflexivity.
  - rewrite isCacheStale_of_read, (readEntry_idempotent _ _ _ _ _ Hback).
    cbn [fst createSingleEntry]. by rewrite Z.sub_diag.
Qed.

Lemma commit_synced now w :
  effectDeps w = (config w, dataIdentity w) ->
  commit truthyData false now w = (Ret tt, w).
Proof.
  intros Hdeps. unfold commit, mbind, mget, mret. cbn [orb].
  rewrite bool_decide_false; [reflexivity|]. intros Hne. by apply Hne.
Qed.

Lemma step_blank_refetch cfg c now' :
  step truthyData (blank cfg c) (Refetch, now')
  = {| data := None; loading := true; error := None;
       controllers := {| abortControllerRef := Some 0%nat; abortedSignals := ∅;
                         nextController := 1 |};
       caches := c;
       inFlight := [{| controller := 0; showLoading := true; closure := cfg |}];
       issued := [{| controller := 0; showLoading := true; closure := cfg |}];
       config := cfg; dataIdentity := 0%nat; effectDeps := (cfg, 0%nat);
       effectCleanup := false |}.
Proof.
  unfold step, react, handle, refetch, mbind. cbn [fst snd].
  unfold fetchData, mbind, createRequestController, setLoading, setError, mget,
    callFetcher, mmodify, ApiUtils.createRequestController.
  single_simpl'. cbn [abortControllerRef abortedSignals nextController].
  single_simpl'.
  rewrite commit_synced by reflexivity.
  reflexivity.
Qed.

(** X12.  [enabled = false] switches off the cache read and the automatic
    fetch only: the mount shows no data, reads and writes no cache and
    issues no request, yet a later [refetch()] still raises the loading
    flag and issues a request. *)
Theorem disabled_hook_still_refetches cfg now c now' :
  enabled cfg = false ->
  let w := mount truthyData cfg now c in
  let w' := step truthyData w (Refetch, now') in
  (data w = None /\ loading w = false /\ error w = None /\ issued w = []
   /\ caches w = c)
  /\ (loading w' = true
      /\ issued w' = [{| controller := 0; showLoading := true; closure := cfg |}]
      /\ inFlight w' = issued w').
Proof.
  intros Hen w w'. subst w' w. rewrite (mount_disabled cfg now c Hen).
  split; [by repeat split|].
  rewrite step_blank_refetch. by repeat split.
Qed.

(** X13.  Window focus on an instance showing a fresh cached payload:
    with [refetchOnFocus = false] nothing happens at all; with
    [refetchOnFocus = true], once the cached entry has become older than 30
    seconds (and is still handed back by the cache), one background request
    is issued, the payload stays and the loading flag stays down. *)
Theorem focus_revalidates_stale_payload cfg now c payload ts ex now2 :
  enabled cfg = true ->
  (readEntry (cacheKey cfg) (persistentCache cfg) now c).1
  = Ret (Some (CacheEntry payload ts ex)) ->
  truthyData payload = true ->
  now - ts <= staleThreshold ->
  let w := mount truthyData cfg now c in
  let w2 := step truthyData w (Focus, now2) in
  (refetchOnFocus cfg = false -> w2 = w)
  /\ (refetchOnFocus cfg = true ->
      (readEntry (cacheKey cfg) (persistentCache cfg) now2 (caches w)).1
      = Ret (Some (CacheEntry payload ts ex)) ->
      staleThreshold < now2 - ts ->
      data w2 = Some payload /\ loading w2 = false /\ error w2 = None
      /\ issued w2 = [{| controller := 0; showLoading := false; closure := cfg |}]
      /\ inFlight w2 = issued w2).
Proof.
  intros Hen Hread Htruthy Hfresh w w2. subst w2 w.
  rewrite (mount_fresh cfg now c payload ts ex Hen Hread Htruthy Hfresh).
  set (c1 := (readEntry (cacheKey cfg) (persistentCache cfg) now c).2).
  unfold resting.
  split.
  - intros Hoff. unfold step, react, handle, handleFocus, mbind, mget.
    cbn [fst snd config]. rewrite Hoff. unfold mret.
    by rewrite commit_synced.
  - intros Hon Hread2 Hstale. cbn [caches] in Hread2.
    unfold step, react, handle, handleFocus, mbind, mget, liftCaches, lift.
    cbn [fst snd config caches]. rewrite Hon. single_simpl'.
    rewrite (isCacheStale_hit _ _ _ _ _ _ _ Hread2).
    assert (Hgt : (now2 - ts >? staleThreshold) = true) by lia. rewrite Hgt.
    unfold fetchData, mbind, createRequestController, mget, mret,
      callFetcher, mmodify, ApiUtils.createRequestController.
    single_simpl'. cbn [abortControllerRef abortedSignals nextController].
    single_simpl'.
    rewrite commit_synced by reflexivity.
    by repeat split.
Qed.

End SingleRounds.

Lemma mount_on_fresh_cache_fetches_nothing_witness :
  let w := SingleApi.mount Examples.anyTruthy Examples.usersConfig 20000
             Examples.staleCaches in
  SingleApi.data w = Some 7%nat /\ SingleApi.loading w = false
  /\ SingleApi.error w = None /\ SingleApi.issued w = [] /\ SingleApi.inFlight w = [].
Proof.
  apply (mount_on_fresh_cache_fetches_nothing Examples.anyTruthy Examples.usersConfig
           20000 Examples.staleCaches 7%nat 0 300000).
  - reflexivity.
  - vm_compute. reflexivity.
  - reflexivity.
  - vm_compute. discriminate.
Defined.

Lemma initial_fetch_success_witness :
  let w := SingleApi.mount Examples.anyTruthy Examples.usersConfig 0
             Scenarios.emptyCaches in
  let w' := SingleApi.step Examples.anyTruthy w
              (SingleApi.Settle 0 (Resolved 9%nat), 500) in
  (SingleApi.data w = None /\ SingleApi.loading w = true /\ SingleApi.error w = None
   /\ SingleApi.issued w
      = [{| SingleApi.controller := 0; SingleApi.showLoading := true;
            SingleApi.closure := Examples.usersConfig |}]
   /\ SingleApi.inFlight w = SingleApi.issued w)
  /\ (SingleApi.data w' = Some 9%nat /\ SingleApi.loading w' = false
      /\ SingleApi.error w' = None
      /\ SingleApi.issued w' = SingleApi.issued w /\ SingleApi.inFlight w' = []
      /\ (SingleApi.getCachedData "users" true 500 (SingleApi.caches w')).1
         = Ret (Some 9%nat)).
Proof.
  apply (initial_fetch_success Examples.anyTruthy Examples.usersConfig 0
           Scenarios.emptyCaches 9%nat 500).
  - reflexivity.
  - vm_compute. reflexivity.
  - right. split; reflexivity.
  - vm_compute. discriminate.
  - reflexivity.
Defined.

Lemma initial_fetch_failure_witness :
  let w := SingleApi.mount Examples.anyTruthy Examples.usersConfig 0
             Scenarios.emptyCaches in
  let w' := SingleApi.step Examples.anyTruthy w
              (SingleApi.Settle 0 (Rejected (ErrorObject "Error" "boom")), 500) in
  SingleApi.data w' = None /\ SingleApi.loading w' = false
  /\ SingleApi.error w' = Some "boom"
  /\ SingleApi.issued w' = SingleApi.issued w /\ SingleApi.inFlight w' = []
  /\ SingleApi.caches w' = SingleApi.caches w.
Proof.
  apply (initial_fetch_failure Examples.anyTruthy Examples.usersConfig 0
           Scenarios.emptyCaches (ErrorObject "Error" "boom") 500).
  - reflexivity.
  - vm_compute. reflexivity.
Defined.

Lemma background_refresh_success_witness :
  let w := SingleApi.mount Examples.anyTruthy Examples.usersConfig 60000
             Examples.staleCaches in
  let w' := SingleApi.step Examples.anyTruthy w
              (SingleApi.Settle 0 (Resolved 9%nat), 61000) in
  SingleApi.loading w = false
  /\ SingleApi.data w' = Some 9%nat /\ SingleApi.loading w' = false
  /\ SingleApi.error w' = None
  /\ SingleApi.issued w' = SingleApi.issued w /\ SingleApi.inFlight w' = []
  /\ (SingleApi.getCachedData "users" true 61000 (SingleApi.caches w')).1
     = Ret (Some 9%nat)
  /\ (SingleApi.isCacheStale "users" true 61000 (SingleApi.caches w')).1 = Ret false.
Proof.
  apply (background_refresh_success Examples.anyTruthy Examples.usersConfig 60000
           Examples.staleCaches 7%nat 0 300000 9%nat 61000).
  - reflexivity.
  - vm_compute. reflexivity.
  - reflexivity.
  - vm_compute. reflexivity.
  - right. split; reflexivity.
  - vm_compute. discriminate.
  - reflexivity.
Defined.

Lemma disabled_hook_still_refetches_witness :
  let w := SingleApi.mount Examples.anyTruthy Scenarios.disabledConfig 60000
             Examples.staleCaches in
  let w' := SingleApi.step Examples.anyTruthy w (SingleApi.Refetch, 61000) in
  (SingleApi.data w = None /\ SingleApi.loading w = false /\ SingleApi.error w = None
   /\ SingleApi.issued w = [] /\ SingleApi.caches w = Examples.staleCaches)
  /\ (SingleApi.loading w' = true
      /\ SingleApi.issued w'
         = [{| SingleApi.controller := 0; SingleApi.showLoading := true;
               SingleApi.closure := Scenarios.disabledConfig |}]
      /\ SingleApi.inFlight w' = SingleApi.issued w').
Proof.
  apply (disabled_hook_still_refetches Examples.anyTruthy Scenarios.disabledConfig
           60000 Examples.staleCaches 61000).
  reflexivity.
Defined.

Lemma focus_revalidates_stale_payload_witness :
  let w := SingleApi.mount Examples.anyTruthy Scenarios.focusConfig 20000
             Examples.staleCaches in
  let w2 := SingleApi.step Examples.anyTruthy w (SingleApi.Focus, 60000) in
  SingleApi.issued w = []
  /\ SingleApi.data w2 = Some 7%nat /\ SingleApi.loading w2 = false
  /\ SingleApi.error w2 = None
  /\ SingleApi.issued w2
     = [{| SingleApi.controller := 0; SingleApi.showLoading := false;
           SingleApi.closure := Scenarios.focusConfig |}]
  /\ SingleApi.inFlight w2 = SingleApi.issued w2.
Proof.
  intros w w2. split; [vm_compute; reflexivity|].
  assert (Hfresh : 20000 - 0 <= SingleApi.staleThreshold) by (vm_compute; discriminate).
  destruct (focus_revalidates_stale_payload Examples.anyTruthy Scenarios.focusConfig
              20000 Examples.staleCaches 7%nat 0 300000 60000
              eq_refl eq_refl eq_refl Hfresh) as [_ Hon].
  apply Hon.
  - reflexivity.
  - vm_compute. reflexivity.
  - vm_compute. reflexivity.
Defined.

(** ** The paginated controller: further properties *)

Section InfiniteMore.
Context {D T : Type}.
Import InfiniteApi.
Implicit Types (w : @World D T) (rq : @Request) (ev : @Event T)
  (st : Store D T) (cfg : Config).

(** X14.  At most one request of an instance is live.  In every state the
    hook can reach, two pending requests that are both not aborted are one
    and the same request, and it is the one the controller ref points to:
    every other pending request has been aborted and its result will be
    dropped. *)
Theorem at_most_one_live_request w a b :
  reachable w ->
  a ∈ inFlight w -> b ∈ inFlight w ->
  ApiUtils.aborted (controller a) (controllers w) = false ->
  ApiUtils.aborted (controller b) (controllers w) = false ->
  a = b /\ abortControllerRef (controllers w) = Some (controller a).
Proof.
  intros Hw Ha Hb Hla Hlb.
  destruct (reachable_consistent w Hw) as [_ Hco _].
  apply aborted_false in Hla, Hlb.
  destruct (flying_current_or_aborted _ _ Hco a Ha) as [?|Hca]; [done|].
  destruct (flying_current_or_aborted _ _ Hco b Hb) as [?|Hcb]; [done|].
  split; [|exact Hca].
  assert (controller a = controller b) as Heq by congruence.
  apply list_elem_of_lookup in Ha as [i Hi]. apply list_elem_of_lookup in Hb as [j Hj].
  assert (i = j) as ->.
  { apply (NoDup_lookup (controller <$> inFlight w) i j (controller a)).
    - apply (flying_distinct _ _ Hco).
    - by rewrite list_lookup_fmap, Hi.
    - by rewrite list_lookup_fmap, Hj, Heq. }
  congruence.
Qed.

(** X15.  A failed fetch loses nothing.  When the live request of an
    instance fails, whichever fetch started it, the pages already loaded,
    the flattened data, [hasMore] and the current page number stay exactly
    as they were; the error takes the failure's message, the retry counter
    goes up by one, and no request is issued in response.  The handler
    writes nothing to the cache: after the render that follows, the store
    is what that render's own cache read makes of the store as it was (an
    expired entry purged, an unexpired durable entry copied to the memory
    tier), and the hook's cache read returns from then on what it would
    have returned without the failure. *)
Theorem failed_fetch_keeps_pages w rq err now renderTime :
  reachableAt w ->
  rq ∈ inFlight w ->
  abortControllerRef (controllers w) = Some (controller rq) ->
  let w' := stepAt w (Settle (controller rq) (Rejected err) now) renderTime in
  pages w' = pages w /\ flatData w' = flatData w
  /\ hasMore w' = hasMore w /\ currentPageRef w' = currentPageRef w
  /\ error w' = Some (errorMessage err)
  /\ retryCountRef w' = retryCountRef w + 1
  /\ issued w' = issued w
  /\ store w' = store (renderRead renderTime w).2
  /\ forall later,
       renderTime <= later ->
       (cacheRead (config w) later (store w')).1
       = (cacheRead (config w) later (store w)).1.
Proof.
  intros Hw Hin Href w'.
  destruct (stepAt_settle_rejected w rq err now renderTime
              (reachableAt_consistent w Hw) Hin Href)
    as (Hretry & Herr & Hpages & Hstore & Hmore & Hpage & _ & _ & Hissued & _).
  fold w' in Hretry, Herr, Hpages, Hstore, Hmore, Hpage, Hissued.
  unfold flatData. rewrite Hpages, Hstore.
  do 7 (split; [done|]). split.
  - rewrite renderRead_eq. by destruct w.
  - intros later Hle. by apply cacheRead_rendered.
Qed.

(** X16.  [loadMore()] is guarded: while the initial load or a previous
    [loadMore()] is in progress, or once the last page reported
    [hasMore = false], calling it changes nothing and issues no request. *)
Theorem loadMore_is_guarded w :
  reachable w ->
  hasMore w = false \/ loadingMore w = true \/ loading w = true ->
  step w LoadMore = w.
Proof. intros Hw. apply step_loadMore_noop. by apply reachable_consistent. Qed.

Lemma flatData_snoc (ps : list (PaginatedResponse.t T)) p :
  foldl (fun acc page => acc ++ PaginatedResponse.data page) [] (ps ++ [p])
  = foldl (fun acc page => acc ++ PaginatedResponse.data page) [] ps
    ++ PaginatedResponse.data p.
Proof. by rewrite foldl_app. Qed.

(** X17.  One round of [loadMore()].  From any reachable state in which
    the guard lets it through, [loadMore()] issues exactly one request, for
    the page after the current one with the configured page size; when the
    response arrives the page is appended to the pages, the flattened data
    grows by exactly that page's items (what was shown stays in place), the
    flags drop, and [hasMore] and the current page follow the response.
    The handler writes a cache entry with all the pages; provided writes
    show through (the cache is not persistent, or the durable tier accepts
    the write, or hands back no entry for the key), that entry is in the
    memory tier after the render that follows and is what the hook's cache
    read returns from then on until it expires. *)
Theorem loadMore_appends_page w result now render0 render1 :
  reachableAt w ->
  hasMore w = true -> loading w = false -> loadingMore w = false ->
  let w1 := stepAt w LoadMore render0 in
  exists rq,
    issued w1 = issued w ++ [rq]
    /\ requestedPage rq = currentPageRef w + 1
    /\ requestedLimit rq = limit (config w)
    /\ (currentPageRef w <> 0 -> loadingMore w1 = true)
    /\ let w' := stepAt w1 (Settle (controller rq) (Resolved result) now) render1 in
       let entry :=
         createInfiniteEntry (pages w ++ [result]) (cacheTtl (config w)) now in
       pages w' = pages w ++ [result]
       /\ flatData w' = flatData w ++ PaginatedResponse.data result
       /\ hasMore w' = PaginationMeta.hasMore (PaginatedResponse.pagination result)
       /\ currentPageRef w'
          = PaginationMeta.page (PaginatedResponse.pagination result)
       /\ loading w' = false /\ loadingMore w' = false /\ error w' = None
       /\ issued w' = issued w ++ [rq]
       /\ (writeThrough (config w) (store w) ->
           render1 <= now + cacheTtl (config w) ->
           memoryCache (store w') !! cacheKey (config w) = Some entry
           /\ forall later,
                render1 <= later -> later <= now + cacheTtl (config w) ->
                (cacheRead (config w) later (store w')).1 = Ret (Some entry)).
Proof.
  intros Hw Hmore Hld Hlm w1.
  pose proof (reachableAt_consistent w Hw) as Hc.
  pose proof (step_loadMore_fires w Hc Hmore Hld Hlm) as Hstep.
  rewrite fetchPage_eq in Hstep. cbv zeta in Hstep. cbn [snd] in Hstep.
  set (rq := {| controller := nextController (controllers w);
                requestedPage := currentPageRef w + 1;
                requestedLimit := limit (config w);
                continuation := FetchPage (currentPageRef w + 1) true false;
                closure := config w |}) in *.
  exists rq.
  assert (Hc1 : consistent w1) by (by apply stepAt_consistent).
  assert (Hshape : pages w1 = pages w /\ issued w1 = issued w ++ [rq]
                   /\ inFlight w1 = inFlight w ++ [rq]
                   /\ abortControllerRef (controllers w1) = Some (controller rq)
                   /\ loading w1 = loading (step w LoadMore)
                   /\ loadingMore w1 = loadingMore (step w LoadMore)
                   /\ config w1 = config w
                   /\ store w1 = renderedStore (config w) render0 (store w)).
  { unfold w1. rewrite stepAt_eq, Hstep. repeat split. }
  destruct Hshape as (Hprev & Hissued & Hfl & Href & Hl1 & Hlm1 & Hcfg1 & Hst1).
  assert (Hin : rq ∈ inFlight w1).
  { rewrite Hfl. apply elem_of_app. right. by left. }
  destruct (stepAt_settle_resolved w1 rq result now render1 Hc1 Hin Href)
    as (Hpages & Hstore & Hhm & Hcp & _ & Herr & Hl & Hlm' & Hiss & _).
  assert (Happ : pagesAfter (continuation rq) (pages w) result = pages w ++ [result]).
  { unfold rq, pagesAfter. cbn [continuation orb].
    destruct (currentPageRef w + 1 =? 1); [|reflexivity]. cbn [andb].
    case_bool_decide as Hlen; [|reflexivity].
    by destruct (pages w). }
  rewrite Hprev, Happ in Hpages. rewrite Hprev, Happ, Hst1, Hcfg1 in Hstore.
  split; [exact Hissued|]. split; [reflexivity|]. split; [reflexivity|].
  split.
  { intros Hcp0. rewrite Hlm1, Hstep. cbn [loadingMore andb].
    destruct (currentPageRef w + 1 =? 1) eqn:E; [lia | reflexivity]. }
  cbv zeta.
  split; [exact Hpages|].
  split; [unfold flatData; rewrite Hpages; apply flatData_snoc|].
  split; [exact Hhm|]. split; [exact Hcp|].
  split; [exact Hl|]. split; [exact Hlm'|]. split; [exact Herr|].
  split; [by rewrite Hiss|].
  intros Hwt Hle.
  pose proof (writeThrough_rendered (config w) render0 (store w) Hwt) as Hwt1.
  rewrite Hstore. change (closure rq) with (config w). split.
  - by apply (cacheRead_after_write (config w) _ now render1 render1).
  - intros later Hfrom Hupto.
    by apply (cacheRead_after_write (config w) _ now render1 later).
Qed.

(** X18.  A render with new props never reloads by itself while pages
    are held: whatever the new configuration (another cache key, page size
    or fetcher), the pages, [hasMore], the current page and the loading
    flag stay as they are and no request is issued; the configuration used
    by later calls changes.  The cache is touched by the cache read of the
    render only, made under the new key: entries under other keys are
    left alone, and nothing changes at all when the new configuration is
    disabled or not persistent, or the durable tier hands back no entry
    for the new key. *)
Theorem rerender_keeps_loaded_pages w cfg fetcherChanged renderTime :
  pages w <> [] ->
  let w' := stepAt w (Rerender cfg fetcherChanged) renderTime in
  pages w' = pages w /\ hasMore w' = hasMore w
  /\ currentPageRef w' = currentPageRef w
  /\ issued w' = issued w /\ loading w' = loading w /\ config w' = cfg
  /\ store w' = (if enabled cfg then (cacheRead cfg renderTime (store w)).2 else store w)
  /\ (enabled cfg = false \/ persistentCache cfg = false
      \/ UniversalCacheManager.durable_entry (store w) (cacheKey cfg) = None ->
      store w' = store w)
  /\ forall key,
       key <> cacheKey cfg ->
       memoryCache (store w') !! key = memoryCache (store w) !! key
       /\ UniversalCacheManager.durable_entry (store w') key
          = UniversalCacheManager.durable_entry (store w) key.
Proof.
  intros Hpages w'.
  assert (Hstep : pages (step w (Rerender cfg fetcherChanged)) = pages w
                  /\ hasMore (step w (Rerender cfg fetcherChanged)) = hasMore w
                  /\ currentPageRef (step w (Rerender cfg fetcherChanged))
                     = currentPageRef w
                  /\ store (step w (Rerender cfg fetcherChanged)) = store w
                  /\ issued (step w (Rerender cfg fetcherChanged)) = issued w
                  /\ loading (step w (Rerender cfg fetcherChanged)) = loading w
                  /\ config (step w (Rerender cfg fetcherChanged)) = cfg).
  { rewrite step_eq. unfold handle, mmodify. cbn [snd].
    destruct (commit_quiet fetcherChanged (map_config (fun _ => cfg) w))
      as (Hiss & Hld & _ & _).
    { left. by destruct w. }
    destruct (commit_shared fetcherChanged (map_config (fun _ => cfg) w))
      as (Hp & Hst & Hhm & Hcp & _ & _ & Hcfg).
    rewrite Hiss, Hld, Hp, Hst, Hhm, Hcp, Hcfg. by destruct w. }
  destruct Hstep as (Hp & Hhm & Hcp & Hst & Hiss & Hld & Hcfg).
  assert (Hshape : pages w' = pages w /\ hasMore w' = hasMore w
                   /\ currentPageRef w' = currentPageRef w
                   /\ issued w' = issued w /\ loading w' = loading w
                   /\ config w' = cfg
                   /\ store w' = renderedStore cfg renderTime (store w)).
  { unfold w'. rewrite stepAt_eq, Hcfg.
    rewrite <- Hp, <- Hhm, <- Hcp, <- Hst, <- Hiss, <- Hld, <- Hcfg at 1.
    by destruct (step w (Rerender cfg fetcherChanged)). }
  destruct Hshape as (H1 & H2 & H3 & H4 & H5 & H6 & H7).
  do 6 (split; [assumption|]). rewrite H7. split; [reflexivity|]. split.
  - intros [Hen | Hidle].
    + unfold renderedStore. by rewrite Hen.
    + by apply renderedStore_idle.
  - intros key Hne. by apply renderedStore_other.
Qed.

(** X19.  [invalidateCache()] removes the cache entry of the instance's
    key (from the fast tier, and from both tiers when the cache is
    persistent) and then starts over like [refetch()]: the pages are
    dropped, the retry counter and the error are reset, the loading flag is
    raised, and the request the controller ref points to afterwards is a
    request for page 1. *)
Theorem invalidateCache_drops_entry w :
  reachable w ->
  let w' := step w InvalidateCache in
  memoryCache (store w') !! cacheKey (config w) = None
  /\ (persistentCache (config w) = true -> absent (cacheKey (config w)) (store w'))
  /\ pages w' = [] /\ retryCountRef w' = 0 /\ error w' = None /\ loading w' = true
  /\ exists rq, last (issued w') = Some rq
                /\ requestedPage rq = 1
                /\ abortControllerRef (controllers w') = Some (controller rq).
Proof.
  intros Hw w'. subst w'. rewrite step_invalidateCache_eq.
  set (del := fun st : Store D T =>
                ((if persistentCache (config w)
                  then UniversalCacheManager.delete (cacheKey (config w))
                  else UniversalCacheManager.memory_delete (cacheKey (config w))) st).2).
  pose proof (map_store_consistent del w (reachable_consistent w Hw)) as Hc.
  rewrite (step_refetch_eq _ Hc). cbv zeta.
  assert (Hstore : store (map_store del w) = del (store w)) by (by destruct w).
  assert (Hmem : memoryCache (del (store w)) !! cacheKey (config w) = None).
  { unfold del. destruct (persistentCache (config w)).
    - apply delete_absent.
    - unfold UniversalCacheManager.memory_delete. simpl. apply lookup_delete_eq. }
  assert (Habs : persistentCache (config w) = true ->
                 absent (cacheKey (config w)) (del (store w))).
  { intros Hp. unfold del. rewrite Hp. apply delete_absent. }
  assert (Hcfg : config (map_store del w) = config w) by (by destruct w).
  case_bool_decide; [|destruct (enabled (config (map_store del w)))];
    cbn [store pages retryCountRef error loading issued controllers];
    rewrite Hstore; (split; [exact Hmem|]); (split; [exact Habs|]);
    (split; [reflexivity|]); (split; [reflexivity|]);
    (split; [reflexivity|]); (split; [reflexivity|]);
    eexists; rewrite last_snoc; (split; [reflexivity|]);
    (split; [reflexivity|]); reflexivity.
Qed.

(** *** Mounting *)

Lemma get_idempotent key now st :
  UniversalCacheManager.get key now (UniversalCacheManager.get key now st).2
  = UniversalCacheManager.get key now st.
Proof.
  rewrite (get_eq key now st).
  destruct (UniversalCacheManager.durable_entry st key) as [e|] eqn:Hd.
  - destruct (now >? expiresAt e) eqn:Hexp; cbn [snd].
    + destruct (delete_absent key st) as [Hm Hd'].
      rewrite get_memory_path by exact Hd'. by rewrite Hm.
    + rewrite get_eq, durable_entry_with_memory, Hd, Hexp.
      unfold UniversalCacheManager.with_memory. cbn [memoryCache localStorage].
      by rewrite insert_insert_eq.
  - cbn [snd]. by rewrite get_eq, Hd.
Qed.

(** The cache read of [getInitialData]. *)
Lemma initial_read_idempotent cfg now st :
  let read := if persistentCache cfg
              then UniversalCacheManager.get (cacheKey cfg) now
              else UniversalCacheManager.memory_get (cacheKey cfg) in
  read (read st).2 = read st.
Proof.
  cbv zeta. destruct (persistentCache cfg); [apply get_idempotent | reflexivity].
Qed.

Lemma getInitialData_hit cfg now w ps ts ex :
  enabled cfg = true ->
  ((if persistentCache cfg
    then UniversalCacheManager.get (cacheKey cfg) now
    else UniversalCacheManager.memory_get (cacheKey cfg)) (store w)).1
  = Ret (Some (InfiniteCacheEntry ps ts ex)) ->
  getInitialData cfg now w
  = (Ret ps,
     map_store
       (fun _ => ((if persistentCache cfg
                   then UniversalCacheManager.get (cacheKey cfg) now
                   else UniversalCacheManager.memory_get (cacheKey cfg)) (store w)).2)
       w).
Proof.
  intros Hen Hread. unfold getInitialData. rewrite Hen. cbn [negb].
  unfold try_catch, mbind, liftStore, lift.
  destruct ((if persistentCache cfg
             then UniversalCacheManager.get (cacheKey cfg) now
             else UniversalCacheManager.memory_get (cacheKey cfg)) (store w))
    as [r st1].
  cbn [fst snd] in *. by subst r.
Qed.

Lemma firstRender_hit cfg now st ps ts ex :
  enabled cfg = true ->
  ((if persistentCache cfg
    then UniversalCacheManager.get (cacheKey cfg) now
    else UniversalCacheManager.memory_get (cacheKey cfg)) st).1
  = Ret (Some (InfiniteCacheEntry ps ts ex)) ->
  firstRender now (blank cfg st)
  = (Ret tt,
     {| pages := ps; loading := false; loadingMore := false; error := None;
        hasMore := match last ps with
                   | Some lastPage =>
                       PaginationMeta.hasMore (PaginatedResponse.pagination lastPage)
                   | None => true
                   end;
        currentPageRef := match last ps with
                          | Some lastPage =>
                              PaginationMeta.page (PaginatedResponse.pagination lastPage)
                          | None => 1
                          end;
        retryCountRef := 0;
        controllers := {| abortControllerRef := None; abortedSignals := ∅;
                          nextController := 0 |};
        store := ((if persistentCache cfg
                   then UniversalCacheManager.get (cacheKey cfg) now
                   else UniversalCacheManager.memory_get (cacheKey cfg)) st).2;
        inFlight := []; issued := [];
        config := cfg; effectDeps := (cfg, 0%nat); effectCleanup := false |}).
Proof.
  intros Hen Hread.
  pose proof (initial_read_idempotent cfg now st) as Hidem. cbv zeta in Hidem.
  set (read := if persistentCache cfg
               then UniversalCacheManager.get (cacheKey cfg) now
               else UniversalCacheManager.memory_get (cacheKey cfg)) in *.
  assert (Hread1 : (read (read st).2).1 = Ret (Some (InfiniteCacheEntry ps ts ex)))
    by (by rewrite Hidem).
  assert (Hst1 : (read (read st).2).2 = (read st).2) by (by rewrite Hidem).
  unfold firstRender, mbind at 1, mget. cbn [config blank].
  unfold mbind at 1.
  rewrite (getInitialData_hit cfg now (blank cfg st) ps ts ex Hen Hread).
  fold read. unfold mbind at 1, setPages, mmodify. unfold mbind at 1.
  rewrite (getInitialData_hit cfg now _ ps ts ex Hen); [|exact Hread1].
  fold read. cbn [store blank map_store map_pages].
  unfold mbind at 1, setHasMore, mmodify. unfold mbind at 1.
  rewrite (getInitialData_hit cfg now _ ps ts ex Hen);
    [|cbn [store map_store map_pages map_hasMore]; by rewrite Hst1].
  unfold setCurrentPage, mmodify.
  cbn [store blank map_store map_pages map_hasMore map_currentPageRef
       pages loading loadingMore error hasMore currentPageRef retryCountRef
       controllers inFlight issued config effectDeps effectCleanup].
  fold read. by rewrite !Hst1.
Qed.

(** X20.  Mounting over cached pages.  When the hook is enabled and its
    cache read hands back an infinite-scroll entry with at least one page,
    the mounted instance shows those pages at once, takes [hasMore] and the
    current page number from the last cached page, raises no loading flag
    and issues no request. *)
Theorem mount_over_cached_pages cfg now st ps ts ex :
  enabled cfg = true ->
  ((if persistentCache cfg
    then UniversalCacheManager.get (cacheKey cfg) now
    else UniversalCacheManager.memory_get (cacheKey cfg)) st).1
  = Ret (Some (InfiniteCacheEntry ps ts ex)) ->
  ps <> [] ->
  let w := mount cfg now st in
  pages w = ps
  /\ (exists lastPage,
        last ps = Some lastPage
        /\ hasMore w = PaginationMeta.hasMore (PaginatedResponse.pagination lastPage)
        /\ currentPageRef w
           = PaginationMeta.page (PaginatedResponse.pagination lastPage))
  /\ loading w = false /\ loadingMore w = false /\ error w = None
  /\ issued w = [] /\ inFlight w = [].
Proof.
  intros Hen Hread Hps w. subst w.
  unfold mount, mbind. rewrite (firstRender_hit cfg now st ps ts ex Hen Hread).
  rewrite initialLoadEffect_eq. cbv zeta. world_simpl. rewrite Hen. cbn [negb orb].
  rewrite (bool_decide_eq_true_2 (0 < length ps)%nat)
    by (destruct ps; [done | simpl; lia]).
  cbn [orb]. world_simpl.
  split; [reflexivity|]. split; [|by repeat split].
  destruct (last ps) as [lastPage|] eqn:Hlast.
  - by exists lastPage.
  - apply last_None in Hlast. contradiction.
Qed.

Lemma mount_disabled_blank cfg now st :
  enabled cfg = false -> mount cfg now st = blank cfg st.
Proof.
  intros Hen. unfold mount, mbind at 1, firstRender, mbind, mget.
  cbn [config blank]. unfold getInitialData. rewrite Hen. cbn [negb].
  unfold mret, setPages, setHasMore, setCurrentPage, mmodify.
  cbn [last map_pages map_hasMore map_currentPageRef].
  rewrite initialLoadEffect_eq. cbv zeta. unfold blank. world_simpl. rewrite Hen.
  reflexivity.
Qed.

(** X21.  [enabled = false] switches off the cache read and the automatic
    fetch only.  The mounted instance is blank: no pages, no request, the
    cache neither read nor written; yet [refetch()] on it still raises the
    loading flag and issues exactly one request, for page 1 with the
    configured page size. *)
Theorem disabled_paginated_hook_still_refetches cfg now st :
  enabled cfg = false ->
  let w := mount cfg now st in
  let w' := step w Refetch in
  (pages w = [] /\ loading w = false /\ issued w = [] /\ store w = st)
  /\ (loading w' = true /\ pages w' = [] /\ store w' = st
      /\ issued w'
         = [{| controller := 0; requestedPage := 1; requestedLimit := limit cfg;
               continuation := FetchPage 1 true true; closure := cfg |}]
      /\ inFlight w' = issued w').
Proof.
  intros Hen w w'. subst w' w.
  pose proof (mount_consistent (D:=D) cfg now st) as Hc.
  rewrite (mount_disabled_blank cfg now st Hen) in *.
  split; [by repeat split|].
  rewrite (step_refetch_eq _ Hc). cbv zeta.
  rewrite (bool_decide_eq_true_2 (pages (blank cfg st) = [])) by reflexivity.
  by repeat split.
Qed.

(** X22.  The retry ceiling holds.  Once the retry counter has reached 3
    (or while pages are held), no sequence of renders with new props,
    [loadMore()] calls and responses makes the automatic first-page fetch
    of the effect fire again: only [refetch()] or [invalidateCache()] can
    bring it back. *)
Theorem retry_ceiling_blocks_automatic_fetch w evs :
  pages w <> [] \/ maxRetries <= retryCountRef w ->
  forallb (fun ev => negb (manualReset ev)) evs = true ->
  filter (fun rq => automatic rq = true) (issued (steps w evs))
  = filter (fun rq => automatic rq = true) (issued w).
Proof. intros Hq Hevs. by apply quiet_steps. Qed.

End InfiniteMore.

Lemma withFirstPage_reachable : reachable Examples.withFirstPage.
Proof. apply respond_reachable. constructor. Qed.

Lemma at_most_one_live_request_witness :
  Examples.firstRequest = Examples.firstRequest
  /\ abortControllerRef (InfiniteApi.controllers Examples.mounted)
     = Some (InfiniteApi.controller Examples.firstRequest).
Proof.
  assert (Examples.firstRequest ∈ InfiniteApi.inFlight Examples.mounted) as Hin.
  { assert (InfiniteApi.inFlight Examples.mounted = [Examples.firstRequest]) as ->
      by (vm_compute; reflexivity).
    apply list_elem_of_singleton. reflexivity. }
  apply (at_most_one_live_request Examples.mounted Examples.firstRequest
           Examples.firstRequest
           (reachable_mount Examples.postsConfig 0 Examples.emptyStore) Hin Hin);
    vm_compute; reflexivity.
Defined.

Lemma failed_fetch_keeps_pages_witness :
  let w := Examples.mounted in
  let w' := InfiniteApi.stepAt w
              (InfiniteApi.Settle 0 (Rejected (ErrorObject "Error" "boom")) 500) 501 in
  InfiniteApi.pages w' = InfiniteApi.pages w
  /\ InfiniteApi.flatData w' = InfiniteApi.flatData w
  /\ InfiniteApi.hasMore w' = InfiniteApi.hasMore w
  /\ InfiniteApi.currentPageRef w' = InfiniteApi.currentPageRef w
  /\ InfiniteApi.error w' = Some "boom"
  /\ InfiniteApi.retryCountRef w' = InfiniteApi.retryCountRef w + 1
  /\ InfiniteApi.issued w' = InfiniteApi.issued w
  /\ InfiniteApi.store w' = InfiniteApi.store (InfiniteApi.renderRead 501 w).2
  /\ forall later,
       501 <= later ->
       (cacheRead (InfiniteApi.config w) later (InfiniteApi.store w')).1
       = (cacheRead (InfiniteApi.config w) later (InfiniteApi.store w)).1.
Proof.
  assert (Examples.firstRequest ∈ InfiniteApi.inFlight Examples.mounted) as Hin.
  { assert (InfiniteApi.inFlight Examples.mounted = [Examples.firstRequest]) as ->
      by (vm_compute; reflexivity).
    apply list_elem_of_singleton. reflexivity. }
  apply (failed_fetch_keeps_pages Examples.mounted Examples.firstRequest
           (ErrorObject "Error" "boom") 500 501
           (reachableAt_mount Examples.postsConfig 0 Examples.emptyStore) Hin).
  vm_compute. reflexivity.
Defined.

Lemma loadMore_is_guarded_witness :
  InfiniteApi.loading Examples.mounted = true
  /\ InfiniteApi.step Examples.mounted InfiniteApi.LoadMore = Examples.mounted.
Proof.
  split; [vm_compute; reflexivity|].
  apply (loadMore_is_guarded Examples.mounted
           (reachable_mount Examples.postsConfig 0 Examples.emptyStore)).
  right. right. vm_compute. reflexivity.
Defined.

Lemma loadMore_appends_page_witness :
  let w := Examples.withFirstPage in
  let result := Scenarios.lastPageResult in
  let w1 := InfiniteApi.stepAt w InfiniteApi.LoadMore 1500 in
  exists rq,
    InfiniteApi.issued w1 = InfiniteApi.issued w ++ [rq]
    /\ InfiniteApi.requestedPage rq = InfiniteApi.currentPageRef w + 1
    /\ InfiniteApi.requestedLimit rq = InfiniteApi.limit (InfiniteApi.config w)
    /\ (InfiniteApi.currentPageRef w <> 0 -> InfiniteApi.loadingMore w1 = true)
    /\ let w' := InfiniteApi.stepAt w1
                   (InfiniteApi.Settle (InfiniteApi.controller rq) (Resolved result) 2000)
                   2001 in
       let entry :=
         createInfiniteEntry (InfiniteApi.pages w ++ [result])
           (InfiniteApi.cacheTtl (InfiniteApi.config w)) 2000 in
       InfiniteApi.pages w' = InfiniteApi.pages w ++ [result]
       /\ InfiniteApi.flatData w'
          = InfiniteApi.flatData w ++ PaginatedResponse.data result
       /\ InfiniteApi.hasMore w'
          = PaginationMeta.hasMore (PaginatedResponse.pagination result)
       /\ InfiniteApi.currentPageRef w'
          = PaginationMeta.page (PaginatedResponse.pagination result)
       /\ InfiniteApi.loading w' = false /\ InfiniteApi.loadingMore w' = false
       /\ InfiniteApi.error w' = None
       /\ InfiniteApi.issued w' = InfiniteApi.issued w ++ [rq]
       /\ (writeThrough (InfiniteApi.config w) (InfiniteApi.store w) ->
           2001 <= 2000 + InfiniteApi.cacheTtl (InfiniteApi.config w) ->
           memoryCache (InfiniteApi.store w')
             !! InfiniteApi.cacheKey (InfiniteApi.config w) = Some entry
           /\ forall later,
                2001 <= later ->
                later <= 2000 + InfiniteApi.cacheTtl (InfiniteApi.config w) ->
                (cacheRead (InfiniteApi.config w) later (InfiniteApi.store w')).1
                = Ret (Some entry)).
Proof.
  apply (loadMore_appends_page Examples.withFirstPage Scenarios.lastPageResult 2000
           1500 2001 (reachable_reachableAt _ withFirstPage_reachable));
    vm_compute; reflexivity.
Defined.

Lemma rerender_keeps_loaded_pages_witness :
  let w := Examples.withFirstPage in
  let cfg := Scenarios.userThreeConfig in
  let w' := InfiniteApi.stepAt w (InfiniteApi.Rerender cfg false) 1500 in
  InfiniteApi.cacheKey cfg <> InfiniteApi.cacheKey (InfiniteApi.config w)
  /\ InfiniteApi.pages w' = InfiniteApi.pages w
  /\ InfiniteApi.hasMore w' = InfiniteApi.hasMore w
  /\ InfiniteApi.currentPageRef w' = InfiniteApi.currentPageRef w
  /\ InfiniteApi.issued w' = InfiniteApi.issued w
  /\ InfiniteApi.loading w' = InfiniteApi.loading w
  /\ InfiniteApi.config w' = cfg
  /\ InfiniteApi.store w'
     = (if InfiniteApi.enabled cfg
        then (cacheRead cfg 1500 (InfiniteApi.store w)).2 else InfiniteApi.store w)
  /\ (InfiniteApi.enabled cfg = false \/ InfiniteApi.persistentCache cfg = false
      \/ UniversalCacheManager.durable_entry (InfiniteApi.store w)
           (InfiniteApi.cacheKey cfg) = None ->
      InfiniteApi.store w' = InfiniteApi.store w)
  /\ forall key,
       key <> InfiniteApi.cacheKey cfg ->
       memoryCache (InfiniteApi.store w') !! key = memoryCache (InfiniteApi.store w) !! key
       /\ UniversalCacheManager.durable_entry (InfiniteApi.store w') key
          = UniversalCacheManager.durable_entry (InfiniteApi.store w) key.
Proof.
  split; [vm_compute; discriminate|].
  apply (rerender_keeps_loaded_pages Examples.withFirstPage Scenarios.userThreeConfig
           false 1500).
  vm_compute. discriminate.
Defined.

Lemma invalidateCache_drops_entry_witness :
  let w := Examples.withFirstPage in
  let w' := InfiniteApi.step w InfiniteApi.InvalidateCache in
  memoryCache (InfiniteApi.store w) !! "posts_infinite_limit_10_user_all" <> None
  /\ absent "posts_infinite_limit_10_user_all" (InfiniteApi.store w')
  /\ InfiniteApi.pages w' = [] /\ InfiniteApi.loading w' = true.
Proof.
  split; [vm_compute; discriminate|].
  destruct (invalidateCache_drops_entry Examples.withFirstPage withFirstPage_reachable)
    as (_ & Habs & Hpages & _ & _ & Hld & _).
  split; [apply Habs; reflexivity|]. split; assumption.
Defined.

Lemma mount_over_cached_pages_witness :
  let st := InfiniteApi.store Examples.withFirstPage in
  let w := InfiniteApi.mount Examples.postsConfig 2000 st in
  length (InfiniteApi.pages w) = 1%nat
  /\ InfiniteApi.pages w = InfiniteApi.pages Examples.withFirstPage
  /\ InfiniteApi.loading w = false /\ InfiniteApi.issued w = [].
Proof.
  intros st w.
  destruct (mount_over_cached_pages Examples.postsConfig 2000 st
              (InfiniteApi.pages Examples.withFirstPage) 1000 301000)
    as (Hpages & _ & Hld & _ & _ & Hiss & _).
  - reflexivity.
  - vm_compute. reflexivity.
  - vm_compute. discriminate.
  - split; [vm_compute; reflexivity|]. split; [exact Hpages|]. split; assumption.
Defined.

Lemma disabled_paginated_hook_still_refetches_witness :
  let w := InfiniteApi.mount Scenarios.disabledPostsConfig 0 Examples.emptyStore in
  let w' := InfiniteApi.step w InfiniteApi.Refetch in
  (InfiniteApi.pages w = [] /\ InfiniteApi.loading w = false
   /\ InfiniteApi.issued w = [] /\ InfiniteApi.store w = Examples.emptyStore)
  /\ (InfiniteApi.loading w' = true /\ InfiniteApi.pages w' = []
      /\ InfiniteApi.store w' = Examples.emptyStore
      /\ InfiniteApi.issued w'
         = [{| InfiniteApi.controller := 0; InfiniteApi.requestedPage := 1;
               InfiniteApi.requestedLimit := 10;
               InfiniteApi.continuation := InfiniteApi.FetchPage 1 true true;
               InfiniteApi.closure := Scenarios.disabledPostsConfig |}]
      /\ InfiniteApi.inFlight w' = InfiniteApi.issued w').
Proof.
  apply (disabled_paginated_hook_still_refetches Scenarios.disabledPostsConfig 0
           Examples.emptyStore).
  reflexivity.
Defined.

Lemma retry_ceiling_blocks_automatic_fetch_witness :
  let w := Examples.afterThreeFailures in
  let evs := [InfiniteApi.Rerender Scenarios.userThreeConfig true;
              InfiniteApi.LoadMore;
              InfiniteApi.Rerender Examples.postsConfig true] in
  InfiniteApi.retryCountRef w = 3
  /\ filter (fun rq => automatic rq = true) (InfiniteApi.issued (InfiniteApi.steps w evs))
     = filter (fun rq => automatic rq = true) (InfiniteApi.issued w).
Proof.
  split; [vm_compute; reflexivity|].
  apply (retry_ceiling_blocks_automatic_fetch Examples.afterThreeFailures).
  - left. vm_compute. discriminate.
  - reflexivity.
Defined.

(** ** The posts API: failures and pagination metadata *)

Section PostsFetch.
Import PostsApi.
Implicit Types (fetch : Server) (params : Params) (response : Response).

Lemma http_failure_message fetch params timeoutOpt response :
  fetch (queryParams params) = FetchResolves response ->
  ok response = false ->
  fetchPaginatedPosts fetch params timeoutOpt
  = inr (new_Error ("Failed to fetch paginated posts: HTTP error! status: "
                    +:+ toString (status response))).
Proof. intros Hfetch Hok. unfold fetchPaginatedPosts. by rewrite Hfetch, Hok. Qed.

(** X23.  Every failure of [fetchPaginatedPosts] reaches the caller as an
    [Error] whose message tells the cause: a rejection named [AbortError]
    (the timeout) gives "Request timeout after <timeout>ms", with the
    default of 10000 when no timeout is passed; a response that is not ok
    gives "Failed to fetch paginated posts: HTTP error! status: <status>",
    whatever its body; a body that is not an array gives "... Invalid
    response format: expected array of posts"; a thrown value that is not
    an [Error] gives "Unknown error occurred while fetching paginated
    posts"; and there is no other shape of failure. *)
Theorem fetch_failures_are_reported fetch params timeoutOpt :
  let result := fetchPaginatedPosts fetch params timeoutOpt in
  let timeout := default DEFAULT_TIMEOUT timeoutOpt in
  (forall message,
     fetch (queryParams params) = FetchRejects (ErrorObject "AbortError" message) ->
     result = inr (new_Error ("Request timeout after " +:+ toString timeout +:+ "ms")))
  /\ (forall response,
        fetch (queryParams params) = FetchResolves response ->
        ok response = false ->
        result = inr (new_Error ("Failed to fetch paginated posts: HTTP error! status: "
                                 +:+ toString (status response))))
  /\ (forall response,
        fetch (queryParams params) = FetchResolves response ->
        ok response = true -> json response = BodyNotArray ->
        result = inr (new_Error ("Failed to fetch paginated posts: "
                                 +:+ "Invalid response format: expected array of posts")))
  /\ (fetch (queryParams params) = FetchRejects OtherValue ->
      result = inr (new_Error "Unknown error occurred while fetching paginated posts"))
  /\ (forall err,
        result = inr err ->
        exists message,
          err = new_Error message
          /\ (message = "Request timeout after " +:+ toString timeout +:+ "ms"
              \/ (exists cause, message = "Failed to fetch paginated posts: " +:+ cause)
              \/ message = "Unknown error occurred while fetching paginated posts")).
Proof.
  cbv zeta. unfold fetchPaginatedPosts. cbv zeta.
  repeat split.
  - intros message ->. reflexivity.
  - intros response -> ->. reflexivity.
  - intros response -> -> ->. reflexivity.
  - intros ->. reflexivity.
  - intros err.
    match goal with
    | |- match ?attempt with _ => _ end = _ -> _ => destruct attempt as [r|error]
    end; [discriminate|].
    intros [= <-]. unfold rethrow.
    destruct error as [name message|].
    + destruct (String.eqb name "AbortError"); eexists; split; try reflexivity.
      * by left.
      * right. left. by eexists.
    + eexists. split; [reflexivity|]. by right; right.
Qed.

Lemma ceil_div_gt current total limit :
  0 < limit ->
  (current <? ceil_div total limit) = true <-> current * limit < total.
Proof.
  intros Hl. unfold ceil_div. rewrite Z.ltb_lt.
  pose proof (Z.div_mod (- total) limit ltac:(lia)) as Hdm.
  pose proof (Z.mod_pos_bound (- total) limit Hl) as Hb.
  split; intros H; nia.
Qed.

Lemma ceil_div_bounds total limit :
  0 < limit ->
  (ceil_div total limit - 1) * limit < total <= ceil_div total limit * limit.
Proof.
  intros Hl. unfold ceil_div.
  pose proof (Z.div_mod (- total) limit ltac:(lia)) as Hdm.
  pose proof (Z.mod_pos_bound (- total) limit Hl) as Hb.
  nia.
Qed.

(** X24.  Pagination metadata.  For a well-formed response whose
    [x-total-count] header parses to [total], with a positive page size,
    and with the total, the page size and the page number or offset all
    safe integers (the total not negative), the result carries the posts
    unchanged, the page number of the request (or [floor(start / limit) +
    1] when an offset was given), [totalPages = ceil(total / limit)], and
    [hasMore] exactly when the pages up to the current one do not cover
    [total]; [nextPage] is the next page number when [hasMore] and
    undefined otherwise. *)
Theorem pagination_metadata fetch params timeoutOpt response posts header total :
  fetch (queryParams params) = FetchResolves response ->
  ok response = true ->
  json response = BodyArray posts ->
  Forall accepted posts ->
  x_total_count response = Some header -> header <> "" ->
  parseInt header = Some total ->
  0 <= total <= MAX_SAFE_INTEGER ->
  0 < default 10 (p_limit params) <= MAX_SAFE_INTEGER ->
  isSafeInteger (match p_start params with
                 | Some start => start
                 | None => default 1 (p_page params)
                 end) ->
  let limit := default 10 (p_limit params) in
  let current := match p_start params with
                 | Some start => start / limit + 1
                 | None => default 1 (p_page params)
                 end in
  exists r,
    fetchPaginatedPosts fetch params timeoutOpt = inl r
    /\ PaginatedResponse.data r = posts
    /\ PaginationMeta.page (PaginatedResponse.pagination r) = current
    /\ PaginationMeta.limit (PaginatedResponse.pagination r) = limit
    /\ PaginationMeta.total (PaginatedResponse.pagination r) = Some total
    /\ (exists pagesCount,
          PaginationMeta.totalPages (PaginatedResponse.pagination r) = Some pagesCount
          /\ (pagesCount - 1) * limit < total <= pagesCount * limit)
    /\ (PaginationMeta.hasMore (PaginatedResponse.pagination r) = true
        <-> current * limit < total)
    /\ PaginationMeta.nextPage (PaginatedResponse.pagination r)
       = if PaginationMeta.hasMore (PaginatedResponse.pagination r)
         then Some (current + 1) else None.
Proof.
  intros Hfetch Hok Hjson Hall Hheader Hne Hparse Htotal [Hlimit _] _ limit current.
  eexists. split.
  { apply (fetchPaginatedPosts_passes fetch params timeoutOpt response posts
             Hfetch Hok Hjson Hall). }
  unfold paginationFor.
  assert (Hnon : nonempty_header (x_total_count response) = true).
  { rewrite Hheader. simpl. destruct (String.eqb_spec header ""); [done|reflexivity]. }
  rewrite Hnon, andb_false_r, Hheader. cbn [from_option id negb]. rewrite Hparse.
  cbn [fmap option_fmap option_map PaginatedResponse.data PaginatedResponse.pagination
       PaginationMeta.page PaginationMeta.limit PaginationMeta.total
       PaginationMeta.totalPages PaginationMeta.hasMore PaginationMeta.nextPage].
  fold limit.
  split; [reflexivity|]. split; [reflexivity|]. split; [reflexivity|].
  split; [reflexivity|].
  split; [eexists; split; [reflexivity | by apply ceil_div_bounds]|].
  split; [by apply ceil_div_gt | reflexivity].
Qed.

(** X25.  The fallbacks for the total.  When the [x-total-count] header is
    missing or empty, the total is taken to be 100, or 10 when a user filter
    is in the request; when the header is present but starts with no
    number, the total and the page count are NaN, so [hasMore] is false and
    there is no next page. *)
Theorem total_count_fallbacks fetch params timeoutOpt response posts :
  fetch (queryParams params) = FetchResolves response ->
  ok response = true ->
  json response = BodyArray posts ->
  Forall accepted posts ->
  exists r,
    fetchPaginatedPosts fetch params timeoutOpt = inl r
    /\ (x_total_count response = None \/ x_total_count response = Some "" ->
        PaginationMeta.total (PaginatedResponse.pagination r)
        = Some (if p_userId params is Some _ then 10 else 100))
    /\ (forall header,
          x_total_count response = Some header -> header <> "" ->
          parseInt header = None ->
          PaginationMeta.total (PaginatedResponse.pagination r) = None
          /\ PaginationMeta.totalPages (PaginatedResponse.pagination r) = None
          /\ PaginationMeta.hasMore (PaginatedResponse.pagination r) = false
          /\ PaginationMeta.nextPage (PaginatedResponse.pagination r) = None).
Proof.
  intros Hfetch Hok Hjson Hall.
  eexists. split.
  { apply (fetchPaginatedPosts_passes fetch params timeoutOpt response posts
             Hfetch Hok Hjson Hall). }
  unfold paginationFor.
  cbn [PaginatedResponse.pagination PaginationMeta.total PaginationMeta.totalPages
       PaginationMeta.hasMore PaginationMeta.nextPage].
  split.
  - intros Hmissing.
    assert (Hnon : nonempty_header (x_total_count response) = false)
      by (destruct Hmissing as [-> | ->]; reflexivity).
    rewrite Hnon. cbn [negb]. rewrite andb_true_r.
    destruct (p_userId params) as [u|].
    + rewrite bool_decide_true by (by eexists). reflexivity.
    + rewrite bool_decide_false by (by intros [? ?]). reflexivity.
  - intros header Hheader Hne Hparse.
    assert (Hnon : nonempty_header (x_total_count response) = true).
    { rewrite Hheader. simpl. destruct (String.eqb_spec header ""); [done|reflexivity]. }
    rewrite Hnon, andb_false_r, Hheader. cbn [from_option id negb]. rewrite Hparse.
    by repeat split.
Qed.

End PostsFetch.

Lemma threePosts_accepted : Forall PostsApi.accepted Scenarios.threePosts.
Proof. repeat constructor. Qed.

Lemma pagination_metadata_witness :
  exists r,
    PostsApi.fetchPaginatedPosts (Scenarios.headerServer (Some "25"))
      Scenarios.thirdPage None = inl r
    /\ PaginatedResponse.data r = Scenarios.threePosts
    /\ PaginationMeta.page (PaginatedResponse.pagination r) = 3
    /\ PaginationMeta.limit (PaginatedResponse.pagination r) = 10
    /\ PaginationMeta.total (PaginatedResponse.pagination r) = Some 25
    /\ (exists pagesCount,
          PaginationMeta.totalPages (PaginatedResponse.pagination r) = Some pagesCount
          /\ (pagesCount - 1) * 10 < 25 <= pagesCount * 10)
    /\ (PaginationMeta.hasMore (PaginatedResponse.pagination r) = true <-> 3 * 10 < 25)
    /\ PaginationMeta.nextPage (PaginatedResponse.pagination r)
       = if PaginationMeta.hasMore (PaginatedResponse.pagination r)
         then Some (3 + 1) else None.
Proof.
  apply (pagination_metadata (Scenarios.headerServer (Some "25")) Scenarios.thirdPage
           None _ Scenarios.threePosts "25" 25 eq_refl eq_refl eq_refl
           threePosts_accepted eq_refl).
  - discriminate.
  - vm_compute. reflexivity.
  - vm_compute. split; discriminate.
  - vm_compute. split; [reflexivity | discriminate].
  - vm_compute. split; discriminate.
Defined.

Lemma total_count_fallbacks_witness :
  exists r,
    PostsApi.fetchPaginatedPosts (Scenarios.headerServer None)
      Scenarios.fromOffset20 None = inl r
    /\ PaginationMeta.total (PaginatedResponse.pagination r) = Some 10
    /\ PaginationMeta.page (PaginatedResponse.pagination r) = 3
    /\ PaginationMeta.hasMore (PaginatedResponse.pagination r) = false.
Proof.
  destruct (total_count_fallbacks (Scenarios.headerServer None) Scenarios.fromOffset20
              None _ Scenarios.threePosts eq_refl eq_refl eq_refl threePosts_accepted)
    as (r & Hr & Hmissing & _).
  exists r. split; [exact Hr|]. split; [apply Hmissing; by left|].
  assert (Hsome : inl r = PostsApi.fetchPaginatedPosts (Scenarios.headerServer None)
                            Scenarios.fromOffset20 None) by (by rewrite Hr).
  vm_compute in Hsome. injection Hsome as ->. split; reflexivity.
Defined.

(** ** The posts hook end to end *)

Section PostsHook.
Import InfiniteApi.

(** X26.  An HTTP failure travels from the server to the caller of
    [useInfinitePosts] unchanged in meaning: when the first request of a
    freshly mounted hook (no cached pages) is answered with a status that
    is not ok, the hook's error reads "Failed to fetch paginated posts: HTTP
    error! status: <status>", the loading flag drops, no page is shown,
    nothing is cached, the retry counter stands at 1 and no further request
    is issued. *)
Theorem http_failure_reaches_the_hook fetch limit userId now now'
    (st : Store unit Post.t) response :
  absent (InfinitePosts.cacheKey limit userId) st ->
  fetch (PostsApi.queryParams
           {| PostsApi.p_page := Some 1; PostsApi.p_limit := Some limit;
              PostsApi.p_start := None; PostsApi.p_userId := userId |})
  = PostsApi.FetchResolves response ->
  PostsApi.ok response = false ->
  let w := mount (InfinitePosts.config limit true userId) now st in
  let w' := InfinitePosts.respond fetch userId now' w in
  loading w = true
  /\ error w' = Some ("Failed to fetch paginated posts: HTTP error! status: "
                      +:+ toString (PostsApi.status response))
  /\ loading w' = false /\ pages w' = [] /\ store w' = st
  /\ retryCountRef w' = 1 /\ issued w' = issued w.
Proof.
  intros Habs Hfetch Hok w w'.
  pose proof (mount_consistent (D:=unit) (InfinitePosts.config limit true userId) now st)
    as Hc.
  pose proof (mount_without_cache (D:=unit) (InfinitePosts.config limit true userId)
                now st eq_refl Habs) as Hmount.
  cbv zeta in Hmount. fold w in Hmount, Hc.
  set (rq := {| controller := 0; requestedPage := 1;
                requestedLimit := limit;
                continuation := FetchFirstPage;
                closure := InfinitePosts.config limit true userId |}) in *.
  assert (Hfl : inFlight w = [rq]) by (by rewrite Hmount).
  assert (Hfail : InfinitePosts.postsFetcher fetch userId 1 limit
                  = Rejected (PostsApi.new_Error
                                ("Failed to fetch paginated posts: HTTP error! status: "
                                 +:+ toString (PostsApi.status response)))).
  { unfold InfinitePosts.postsFetcher. cbv zeta.
    by rewrite (http_failure_message fetch _ None response Hfetch Hok). }
  subst w'. unfold InfinitePosts.respond. rewrite Hfl. cbn [last].
  change (requestedPage rq) with 1. change (requestedLimit rq) with limit.
  rewrite Hfail.
  destruct (step_settle_rejected w rq
              (PostsApi.new_Error
                 ("Failed to fetch paginated posts: HTTP error! status: "
                  +:+ toString (PostsApi.status response)))
              now' Hc)
    as (Hretry & Herr & Hpages & Hstore & _ & _ & Hld & _ & Hissued & _).
  { rewrite Hfl. by left. }
  { by rewrite Hmount. }
  split; [by rewrite Hmount|].
  split; [exact Herr|]. split; [exact Hld|].
  split; [by rewrite Hpages, Hmount|]. split; [by rewrite Hstore, Hmount|].
  split; [by rewrite Hretry, Hmount | exact Hissued].
Qed.

End PostsHook.

Lemma http_failure_reaches_the_hook_witness :
  let w := InfiniteApi.mount (InfinitePosts.config 10 true None) 0 Examples.emptyStore in
  let w' := InfinitePosts.respond (Scenarios.statusServer 500) None 800 w in
  InfiniteApi.loading w = true
  /\ InfiniteApi.error w'
     = Some "Failed to fetch paginated posts: HTTP error! status: 500"
  /\ InfiniteApi.loading w' = false /\ InfiniteApi.pages w' = []
  /\ InfiniteApi.store w' = Examples.emptyStore
  /\ InfiniteApi.retryCountRef w' = 1
  /\ InfiniteApi.issued w' = InfiniteApi.issued w.
Proof.
  apply (http_failure_reaches_the_hook (Scenarios.statusServer 500) 10 None 0 800
           Examples.emptyStore
           {| PostsApi.ok := false; PostsApi.status := 500;
              PostsApi.x_total_count := None;
              PostsApi.json := PostsApi.BodyNotArray |}).
  - split; reflexivity.
  - reflexivity.
  - reflexivity.
Defined.

(** ** The users API *)

Section UsersFetch.
Import UsersApi.

Lemma first_invalid_user_spec users : forall index,
  match first_invalid index users with
  | Some found =>
      exists i user,
        found = (index + i)%nat /\ users !! i = Some user
        /\ invalid_user user = true
        /\ Forall (fun u => invalid_user u = false) (take i users)
  | None => Forall (fun u => invalid_user u = false) users
  end.
Proof.
  induction users as [|user rest IH]; intros index; [by constructor|].
  cbn [first_invalid]. destruct (invalid_user user) eqn:Hinv.
  - exists 0%nat, user. rewrite Nat.add_0_r. repeat split; [done|by constructor].
  - specialize (IH (S index)). destruct (first_invalid (S index) rest) as [found|].
    + destruct IH as (i & u & -> & Hu & Hbad & Hgood).
      exists (S i), u. repeat split; [lia | done | done |].
      cbn [take]. by constructor.
    + by constructor.
Qed.

Lemma first_invalid_user_at users i user :
  users !! i = Some user -> invalid_user user = true ->
  Forall (fun u => invalid_user u = false) (take i users) ->
  forall index, first_invalid index users = Some (index + i)%nat.
Proof.
  revert i. induction users as [|first rest IH]; intros i Hu Hbad Hgood index;
    [done|].
  destruct i as [|i]; cbn [first_invalid].
  - injection Hu as ->. by rewrite Hbad, Nat.add_0_r.
  - cbn [take] in Hgood. apply Forall_cons in Hgood as [Hfirst Hgood].
    rewrite Hfirst, (IH i Hu Hbad Hgood (S index)). f_equal. lia.
Qed.

(** X27.  [fetchUsers] returns a list exactly when the response is ok and
    its body is an array in which every user has a truthy [id], [name],
    [username] and [email], and then it returns that array as it is.  When
    some user fails the check, the error names the index of the first such
    user: "Failed to fetch users: Invalid user structure at index <i>". *)
Theorem fetchUsers_validates_users fetch timeoutOpt :
  (forall users,
     fetchUsers fetch timeoutOpt = inl users
     <-> exists response,
           fetch = FetchResolves response /\ ok response = true
           /\ json response = BodyArray users
           /\ Forall (fun u => invalid_user u = false) users)
  /\ (forall response users i user,
        fetch = FetchResolves response -> ok response = true ->
        json response = BodyArray users ->
        users !! i = Some user -> invalid_user user = true ->
        Forall (fun u => invalid_user u = false) (take i users) ->
        fetchUsers fetch timeoutOpt
        = inr (PostsApi.new_Error
                 ("Failed to fetch users: Invalid user structure at index "
                  +:+ pretty i))).
Proof.
  split.
  - intros users. unfold fetchUsers. cbv zeta. split.
    + destruct fetch as [err|response]; [discriminate|].
      destruct (ok response) eqn:Hok; [|discriminate]. cbn [negb].
      unfold validate. destruct (json response) as [err| |us] eqn:Hjson;
        try discriminate.
      pose proof (first_invalid_user_spec us 0) as Hspec.
      destruct (first_invalid 0 us); [discriminate|].
      intros [= <-]. by exists response.
    + intros (response & -> & -> & Hjson & Hall). cbn [negb].
      unfold validate. rewrite Hjson.
      pose proof (first_invalid_user_spec users 0) as Hspec.
      destruct (first_invalid 0 users) as [found|]; [|reflexivity].
      destruct Hspec as (i & u & _ & Hu & Hbad & _).
      apply (Forall_lookup_1 _ _ _ _ Hall) in Hu. congruence.
  - intros response users i user -> Hok Hjson Hu Hbad Hgood.
    unfold fetchUsers. cbv zeta. rewrite Hok. cbn [negb].
    unfold validate. rewrite Hjson.
    by rewrite (first_invalid_user_at users i user Hu Hbad Hgood 0).
Qed.

End UsersFetch.

(** ** The debug helper of the filters cache manager *)

Section ClearAllCache.
Context {D T : Type}.
Implicit Types (st : Store D T) (key : string).
Import UniversalCacheManager FiltersCacheManager.

Lemma forEach_delete_other (f : Z -> string) ids key st :
  (forall userId, userId ∈ ids -> key <> f userId) ->
  memoryCache (mforEach (fun userId => delete (f userId)) ids st).2 !! key
  = memoryCache st !! key
  /\ items (localStorage (mforEach (fun userId => delete (f userId)) ids st).2)
       !! (CACHE_PREFIX +:+ key)
     = items (localStorage st) !! (CACHE_PREFIX +:+ key).
Proof.
  revert st. induction ids as [|first ids IH]; intros st Hne; [done|].
  cbn [mforEach]. unfold mbind.
  destruct (delete_other key (f first) st) as [Hm Hi]; [apply Hne; by left|].
  rewrite delete_eq in *. cbn [fst snd] in *.
  destruct (IH (if unavailable (localStorage st)
                then with_memory (base.delete (f first)) st
                else with_memory (base.delete (f first))
                       (with_items (base.delete (CACHE_PREFIX +:+ f first)) st)))
    as [Hm' Hi'].
  { intros userId Hin. apply Hne. by right. }
  rewrite Hm', Hi'. by split.
Qed.

(** X28.  [clearAllCache], the debug helper of the filters cache manager:
    in a development build it removes the "all users" entry and the entries
    of the user ids 1 to 10 for the given page size from both tiers and
    leaves every other key alone; in a production build it does nothing. *)
Theorem clearAllCache_clears_posts_entries limit st :
  (absent (allUsersKey limit) (clearAllCache true limit st).2
   /\ (forall userId, 1 <= userId <= 10 ->
         absent (userCacheKey limit userId) (clearAllCache true limit st).2)
   /\ (forall key,
         key <> allUsersKey limit ->
         (forall userId, 1 <= userId <= 10 -> key <> userCacheKey limit userId) ->
         memoryCache (clearAllCache true limit st).2 !! key = memoryCache st !! key
         /\ items (localStorage (clearAllCache true limit st).2)
              !! (CACHE_PREFIX +:+ key)
            = items (localStorage st) !! (CACHE_PREFIX +:+ key)))
  /\ clearAllCache false limit st = (Ret tt, st).
Proof.
  split; [|reflexivity].
  unfold clearAllCache, mbind.
  pose proof (delete_absent (allUsersKey limit) st) as Habs.
  rewrite delete_eq in *. cbn [fst snd] in *.
  set (st1 := if unavailable (localStorage st) then _ else _) in *.
  assert (Hids : forall userId, 1 <= userId <= 10 -> userId ∈ knownUserIds).
  { intros userId Hrange. unfold knownUserIds.
    assert (userId = 1 \/ userId = 2 \/ userId = 3 \/ userId = 4 \/ userId = 5
            \/ userId = 6 \/ userId = 7 \/ userId = 8 \/ userId = 9 \/ userId = 10)
      as Hcases by lia.
    rewrite !elem_of_cons. tauto. }
  assert (Hrange : forall userId, userId ∈ knownUserIds -> 1 <= userId <= 10).
  { intros userId. unfold knownUserIds. rewrite !elem_of_cons, elem_of_nil. lia. }
  split; [|split].
  - by apply forEach_delete_keeps_absent.
  - intros userId Hr.
    apply (forEach_delete_absent (userCacheKey limit) knownUserIds). by apply Hids.
  - intros key Hall Husers.
    destruct (forEach_delete_other (userCacheKey limit) knownUserIds key st1)
      as [Hm Hi].
    { intros userId Hin. apply Husers. by apply Hrange. }
    rewrite Hm, Hi.
    destruct (delete_other key (allUsersKey limit) st Hall) as [Hm0 Hi0].
    rewrite delete_eq in Hm0, Hi0. by split.
Qed.

End ClearAllCache.

(** ** The user filter: the select element and back *)

Section SelectRoundTrip.

Lemma digit_of_pretty_N_char (d : N) :
  (d < 10)%N -> digit_of (pretty_N_char d) = Some (Z.of_N d).
Proof.
  intros Hd.
  assert (d = 0 \/ d = 1 \/ d = 2 \/ d = 3 \/ d = 4 \/ d = 5 \/ d = 6 \/ d = 7
          \/ d = 8 \/ d = 9)%N as Hcases by lia.
  repeat destruct Hcases as [->|Hcases]; try reflexivity. by subst d.
Qed.

Lemma parse_digits_pretty_N_go (x : N) : forall s acc,
  (0 < x)%N -> default 0 acc = 0 ->
  parse_digits acc (pretty_N_go x s) = parse_digits (Some (Z.of_N x)) s.
Proof.
  induction (N.lt_wf_0 x) as [x _ IH]; intros s acc Hpos Hacc.
  rewrite pretty_N_go_step by exact Hpos.
  pose proof (N.mod_lt x 10 ltac:(lia)) as Hmod.
  pose proof (N.div_mod x 10 ltac:(lia)) as Hdm.
  assert (x `div` 10 = 0 \/ 0 < x `div` 10)%N as [Hzero|Hdiv] by lia.
  - rewrite Hzero, pretty_N_go_0. cbn [parse_digits].
    rewrite (digit_of_pretty_N_char _ Hmod), Hacc. f_equal. f_equal. lia.
  - rewrite (IH (x `div` 10)%N) by (try apply N.div_lt; first [exact Hdiv | lia | exact Hacc]).
    cbn [parse_digits]. rewrite (digit_of_pretty_N_char _ Hmod).
    cbn [default from_option id]. f_equal. f_equal. lia.
Qed.

Lemma pretty_N_go_head (x : N) : forall s,
  (0 < x)%N ->
  exists d rest, (d < 10)%N /\ pretty_N_go x s = String (pretty_N_char d) rest.
Proof.
  induction (N.lt_wf_0 x) as [x _ IH]; intros s Hpos.
  rewrite pretty_N_go_step by exact Hpos.
  pose proof (N.mod_lt x 10 ltac:(lia)) as Hmod.
  destruct (N.eq_0_gt_0_cases (x `div` 10)) as [Hzero|Hdiv].
  - rewrite Hzero, pretty_N_go_0. by eexists _, _.
  - apply IH; [by apply N.div_lt | exact Hdiv].
Qed.

Lemma parseInt_digits d rest :
  (d < 10)%N ->
  parseInt (String (pretty_N_char d) rest)
  = parse_digits None (String (pretty_N_char d) rest).
Proof.
  intros Hd.
  assert (d = 0 \/ d = 1 \/ d = 2 \/ d = 3 \/ d = 4 \/ d = 5 \/ d = 6 \/ d = 7
          \/ d = 8 \/ d = 9)%N as Hcases by lia.
  repeat destruct Hcases as [->|Hcases]; try reflexivity. by subst d.
Qed.

Lemma parseInt_pretty_positive (p : positive) :
  parseInt (pretty (Npos p)) = Some (Zpos p)
  /\ parse_digits None (pretty (Npos p)) = Some (Zpos p)
  /\ pretty (Npos p) <> "".
Proof.
  unfold pretty, pretty_N. rewrite decide_False by done.
  destruct (pretty_N_go_head (Npos p) "" ltac:(lia)) as (d & rest & Hd & Heq).
  assert (Hdigits : parse_digits None (pretty_N_go (Npos p) "") = Some (Zpos p)).
  { rewrite parse_digits_pretty_N_go by (first [lia | reflexivity]). reflexivity. }
  split; [|split; [exact Hdigits|]].
  - rewrite Heq, parseInt_digits by exact Hd. by rewrite <- Heq.
  - by rewrite Heq.
Qed.

Lemma parseInt_toString (n : Z) : parseInt (toString n) = Some n /\ toString n <> "".
Proof.
  unfold toString, pretty, pretty_Z. destruct n as [|p|p].
  - split; [reflexivity | discriminate].
  - destruct (parseInt_pretty_positive p) as (H1 & _ & H3). by split.
  - destruct (parseInt_pretty_positive p) as (_ & H2 & _).
    split; [|discriminate].
    change (parseInt (String "-" (pretty (Npos p))) = Some (Z.neg p)).
    unfold parseInt. cbn [skip_white_space is_white_space].
    unfold pretty, pretty_positive in *. by rewrite H2.
Qed.

(** X29.  The select element of the user filter round-trips the
    selection: the value rendered for the selected user id (the empty
    string when none is selected), handed back by the change event, makes
    [handleSelectChange] report exactly that id again -- for every id that
    is a safe integer, zero and negative ones included -- and "no user" for
    the empty value. *)
Theorem select_value_round_trip (selectedUserId : option Z) :
  (forall userId, selectedUserId = Some userId -> isSafeInteger userId) ->
  UserFilter.handleSelectChange (UserFilter.selectValue selectedUserId)
  = match selectedUserId with
    | Some userId => UserFilter.selectUser userId
    | None => UserFilter.clearSelection
    end.
Proof.
  intros _.
  destruct selectedUserId as [userId|]; [|reflexivity].
  destruct (parseInt_toString userId) as [Hparse Hne].
  unfold UserFilter.handleSelectChange, UserFilter.selectValue, UserFilter.selectUser.
  destruct (String.eqb_spec (toString userId) ""); [done|].
  destruct (String.eqb_spec (toString userId) ""); [done|].
  by rewrite Hparse.
Qed.

End SelectRoundTrip.

Lemma select_value_round_trip_witness :
  isSafeInteger 7
  /\ UserFilter.handleSelectChange (UserFilter.selectValue (Some 7))
     = UserFilter.selectUser 7.
Proof.
  assert (Hsafe : isSafeInteger 7) by (vm_compute; split; discriminate).
  split; [exact Hsafe|].
  apply (select_value_round_trip (Some 7)).
  intros userId [= <-]. exact Hsafe.
Defined.

(** ** Client-side search *)

Section ClientSearchFacts.
Context {T : Type}.
Variable toLowerCase : string -> string.
Variable trim : string -> string.
Import ClientSearch.

#[local] Abbreviation search := (useClientSearch (T:=T) toLowerCase trim).

(** X30.  What [useClientSearch] returns, for any data, query and field
    extractor: the filtered list is a subsequence of the data (same items,
    same order, none added), the two counts are the lengths of the two
    lists, a query that is missing or trims to the empty string returns the
    data unfiltered, an active query keeps exactly the items with at least
    one field whose lower-cased text includes the lower-cased, trimmed
    query, and searching the result again with the same query changes
    nothing. *)
Theorem client_search_filters data searchQuery searchFields :
  let r := search data searchQuery searchFields in
  sublist (filteredData r) data
  /\ matchCount r = length (filteredData r)
  /\ totalCount r = length data
  /\ (matchCount r <= totalCount r)%nat
  /\ (hasActiveSearch r = false -> filteredData r = data)
  /\ (hasActiveSearch r = true ->
      exists text,
        searchQuery = Some text /\ trim text <> ""
        /\ forall item,
             item ∈ filteredData r
             <-> item ∈ data
                 /\ exists field,
                      Some field ∈ searchFields item
                      /\ includes (toLowerCase field) (trim (toLowerCase text)) = true)
  /\ filteredData (search (filteredData r) searchQuery searchFields) = filteredData r.
Proof.
  cbv zeta. unfold useClientSearch. cbv zeta.
  cbn [filteredData matchCount hasActiveSearch totalCount].
  set (active := match searchQuery with
                 | Some text => negb (String.eqb (trim text) "")
                 | None => false
                 end).
  assert (Hsub : sublist (if negb active then data
                          else filter (fun item =>
                                         matches toLowerCase
                                           (trim (toLowerCase (default "" searchQuery)))
                                           (searchFields item) = true) data) data).
  { destruct active; cbn [negb]; [apply sublist_filter | reflexivity]. }
  split; [exact Hsub|]. split; [reflexivity|]. split; [reflexivity|].
  split; [by apply sublist_length|].
  split; [by intros ->|].
  split.
  - intros Hact. rewrite Hact. cbn [negb]. subst active.
    destruct searchQuery as [text|]; [|discriminate].
    exists text. split; [reflexivity|].
    split; [by destruct (String.eqb_spec (trim text) "")|].
    intros item. cbn [default from_option id]. rewrite list_elem_of_filter.
    unfold matches. rewrite existsb_exists.
    split.
    + intros [([field|] & Hf & Hinc) Hin]; [|discriminate].
      split; [exact Hin|]. exists field.
      split; [by apply list_elem_of_In | exact Hinc].
    + intros [Hin (field & Hf & Hinc)]. split; [|exact Hin].
      exists (Some field). split; [by apply list_elem_of_In | exact Hinc].
  - destruct active; cbn [negb]; [|reflexivity].
    by rewrite list_filter_filter_l.
Qed.

End ClientSearchFacts.
